(** * scripts/test-memory-search.py: the memory search test harness

    A shallow embedding of the harness: the packed float32 codec
    ([vec_to_blob], [blob_to_vec]), [cosine_similarity], the two searches,
    the per-test evaluator [run_test] and the driver [main], followed by
    the properties of the harness that the specification states.

    Python floats are IEEE binary64 numbers, modelled by Rocq's primitive
    [float]; a [str] is a [string] (its characters are 8-bit: the queries
    and the expected answers of the test cases are ASCII); [bytes] is a
    [list byte].  A call either returns, raises or leaves the process
    through [sys.exit] ([outcome]); everything printed is kept as a list of
    typed lines ([io]).

    The store, the embeddings endpoint, the clock, the environment and the
    command line make up the [world] of a run: the store answers the four
    SQL statements of the script, the endpoint answers a request.  Four
    builtins are parameters of the harness ([str.lower], [json.loads],
    [round], [float]); the properties hold for every choice of them, and
    the sample runs use the instances defined after the harness. *)

From Stdlib Require Import ZArith List String Ascii Bool Lia Floats Permutation Sorted.
From Stdlib Require Uint63.
From coqutil Require Import Byte Word.LittleEndianList.
Import ListNotations.

Set Warnings "-inexact-float".
Local Open Scope string_scope.
Local Open Scope Z_scope.

(** ** Outcomes of a Python call *)

(** The exceptions that the functions of the script can let escape. *)
Inductive exn : Type :=
| URLError (reason : string)      (* urllib.error.URLError, HTTPError included *)
| TimeoutError                    (* socket.timeout while the response is read *)
| JSONDecodeError                 (* json.loads on text that is not JSON *)
| KeyError (key : string)
| IndexError
| TypeError
| ValueError
| OverflowError
| ZeroDivisionError
| StructError                     (* struct.error *)
| OperationalError (msg : string) (* sqlite3.OperationalError *).

Inductive outcome (A : Type) : Type :=
| Return (a : A)
| Raise (e : exn)
| Exit (code : Z).

Arguments Return {A} a.
Arguments Raise {A} e.
Arguments Exit {A} code.

(** The status with which the process ends: an uncaught exception makes the
    interpreter print a traceback and leave with status 1. *)
Definition exit_status {A : Type} (o : outcome A) : Z :=
  match o with
  | Return _ => 0
  | Raise _ => 1
  | Exit c => c
  end.

Definition obind {A B : Type} (m : outcome A) (f : A -> outcome B) : outcome B :=
  match m with
  | Return a => f a
  | Raise e => Raise e
  | Exit c => Exit c
  end.

(** What a collaborator of the script answers to a call: a value or an
    exception (a library does not leave the process). *)
Inductive answer (A : Type) : Type :=
| Ok (a : A)
| Fails (e : exn).

Arguments Ok {A} a.
Arguments Fails {A} e.

Definition of_answer {A : Type} (r : answer A) : outcome A :=
  match r with
  | Ok a => Return a
  | Fails e => Raise e
  end.

Fixpoint omap {A B : Type} (f : A -> outcome B) (l : list A) : outcome (list B) :=
  match l with
  | [] => Return []
  | x :: t => obind (f x) (fun y => obind (omap f t) (fun ys => Return (y :: ys)))
  end.

(** ** Strings *)

(** [needle in hay]. *)
Fixpoint str_in (needle hay : string) : bool :=
  if String.prefix needle hay then true
  else match hay with
       | EmptyString => false
       | String _ t => str_in needle t
       end.

(** [s[:n]]. *)
Definition str_take (n : nat) (s : string) : string := String.substring 0 n s.

(** [bool(s)] for a str. *)
Definition str_truthy (s : string) : bool :=
  match s with EmptyString => false | _ => true end.

(** ** Floats *)

Module Py.

(** [sum(xs)]: a left fold that starts from the integer 0, which the first
    addition converts to the float 0.0. *)
Definition sum (xs : list float) : float := fold_left PrimFloat.add xs 0%float.

(** [x ** 0.5] for the argument that the script gives it, a sum of
    squares: float_pow answers 0.0 for a zero base, nan for nan, inf for
    inf and the C library's pow(x, 0.5) otherwise, for which the
    correctly rounded square root stands.  (A negative base would give a
    complex number; a sum of squares has no negative value.) *)
Definition pow_half (x : float) : float :=
  if (x =? 0)%float then 0%float else PrimFloat.sqrt x.

(** [x / y]: float division raises on a zero divisor. *)
Definition truediv (x y : float) : outcome float :=
  if (y =? 0)%float then Raise ZeroDivisionError else Return (x / y)%float.

(** [max(a, b)] keeps its first argument unless the second is greater. *)
Definition max (a b : float) : float := if (a <? b)%float then b else a.

(** [min(xs)] on a list with head [x]: the running minimum is replaced
    only by a strictly smaller item. *)
Definition min (x : float) (xs : list float) : float :=
  fold_left (fun m y => if (y <? m)%float then y else m) xs x.

(** [bool(x)] for a float: zero of either sign is falsy, nan is truthy. *)
Definition truthy (x : float) : bool := negb (x =? 0)%float.

End Py.

(** ** The packed float32 codec of [struct] *)

Module Struct.

(** The binary32 pattern of the magnitude [m * 2^e], rounded to nearest
    with ties to even: [e'] is the exponent of the unit in the last place
    of the result (never below that of the subnormals, -149), [q] the
    rounded significand.  Adding [q] to the exponent field lets a carry
    out of the significand move to the next binade. *)
Definition round_even (m : Z) (k : Z) : Z :=
  let q := Z.shiftr m k in
  let r := m - Z.shiftl q k in
  let half := Z.shiftl 1 (k - 1) in
  if (half <? r) || ((half =? r) && Z.odd q) then q + 1 else q.

Definition magnitude32 (m : positive) (e : Z) : Z :=
  let d := Z.log2 (Zpos m) + 1 in
  let e' := Z.max (d + e - 24) (-149) in
  let q := if e' <=? e then Z.shiftl (Zpos m) (e - e')
           else round_even (Zpos m) (e' - e) in
  (e' + 149) * 2 ^ 23 + q.

Definition inf32 : Z := 255 * 2 ^ 23.
Definition nan32 : Z := inf32 + 2 ^ 22.
Definition sign32 (s : bool) : Z := if s then 2 ^ 31 else 0.

(** PyFloat_Pack4: the C conversion [(float)x], refused when a finite [x]
    becomes an infinity.  A nan is packed as the quiet nan (Rocq's floats
    have a single nan, so payloads are not modelled). *)
Definition pack_f (x : float) : outcome Z :=
  match Prim2SF x with
  | S754_nan => Return nan32
  | S754_zero s => Return (sign32 s)
  | S754_infinity s => Return (sign32 s + inf32)
  | S754_finite s m e =>
      let b := magnitude32 m e in
      if inf32 <=? b then Raise OverflowError else Return (sign32 s + b)
  end.

(** PyFloat_Unpack4: the binary32 number of a pattern, as a double (every
    binary32 number is one exactly). *)
Definition unpack_f (w : Z) : float :=
  let s := Z.testbit w 31 in
  let E := Z.land (Z.shiftr w 23) 255 in
  let M := Z.land w (2 ^ 23 - 1) in
  if E =? 255 then
    if M =? 0 then SF2Prim (S754_infinity s) else SF2Prim S754_nan
  else if E =? 0 then
    match M with
    | Zpos p => SF2Prim (S754_finite s p (-149)%Z)
    | _ => SF2Prim (S754_zero s)
    end
  else
    match (2 ^ 23 + M)%Z with
    | Zpos p => SF2Prim (S754_finite s p (E - 150)%Z)
    | _ => SF2Prim (S754_zero s)
    end.

(** [struct.pack(f"<{n}f", *vec)] with [n = len(vec)]. *)
Definition pack (vec : list float) : outcome (list byte) :=
  obind (omap pack_f vec) (fun ws => Return (flat_map (le_split 4) ws)).

(** The consecutive 4-byte groups of a buffer. *)
Fixpoint words (n : nat) (blob : list byte) : list Z :=
  match n with
  | O => []
  | S n' => le_combine (firstn 4 blob) :: words n' (skipn 4 blob)
  end.

(** [struct.unpack(f"<{n}f", blob)]: the buffer must have exactly the
    size of the format. *)
Definition unpack (n : nat) (blob : list byte) : outcome (list float) :=
  if Nat.eqb (List.length blob) (4 * n)%nat then Return (map unpack_f (words n blob))
  else Raise StructError.

End Struct.

(** ** What the script prints *)

(** One constructor for each [print] of the script, with the values that
    its f-string formats ([{x:.2f}] and the like are left to the reader of
    the line: the float itself is kept). *)
Inductive line : Type :=
| LNoKey                                   (* ERROR: No OPENAI_API_KEY or OPENROUTER_KEY set *)
| LEmbeddingError (reason : string)        (* Embedding API error: {e} *)
| LRule | LDash                            (* '='*70 and '─'*70 *)
| LQuery (q : string) | LExpect (e : string) | LDesc (d : string)
| LSkip (ms : Z)
| LVectorHeader (top : nat) (ms : Z)
| LVectorHit (marker : bool) (i : nat) (score : float) (above : bool)
             (path : string) (lines : Z * Z)
| LPreview (text : string)
| LFtsHeader (top : nat)
| LFtsHit (marker : bool) (i : nat) (rank : option float)
          (path : option string) (lines : option (Z * Z))
| LResult (status : string)
| LTopScore (top min_score : float)
| LAbove (k n : nat)
| LFoundBelow (match_score min_score : float)
| LTitle | LDb (path : string) | LScope (prefix : string)
| LMinScore (min_score : float) | LModel (model : string) | LTests (n : nat)
| LDbMissing (path : string)
| LIndexed (files chunks : Z)
| LSummary
| LPass (k n : nat) | LFail (k n : nat) | LBelow (k n : nat) (min_score : float)
| LSkipped (k n : nat)
| LRecommend
| LLowest (score : float)
| LSuggested (threshold : float)
| LDistHeader
| LDist (flag : string) (score : float) (bar : nat) (q : string).

(** A computation that prints: the lines printed so far stay printed when
    it raises or exits. *)
Definition io (A : Type) : Type := (list line * outcome A)%type.

Definition ret {A : Type} (a : A) : io A := ([], Return a).
Definition lift {A : Type} (o : outcome A) : io A := ([], o).
Definition print (l : line) : io unit := ([l], Return tt).
Definition sys_exit {A : Type} (code : Z) : io A := ([], Exit code).

Definition bind {A B : Type} (m : io A) (f : A -> io B) : io B :=
  match m with
  | (out, Return a) => let (out', r) := f a in ((out ++ out')%list, r)
  | (out, Raise e) => (out, Raise e)
  | (out, Exit c) => (out, Exit c)
  end.

Notation "x <- m ;; k" := (bind m (fun x => k))
  (at level 61, m at next level, right associativity).
Notation "m ;; k" := (bind m (fun _ => k))
  (at level 61, right associativity).

(** [for x in xs: body(x)]. *)
Fixpoint for_each {A : Type} (body : A -> io unit) (xs : list A) : io unit :=
  match xs with
  | [] => ret tt
  | x :: t => body x ;; for_each body t
  end.

Definition printed {A : Type} (m : io A) : list line := fst m.
Definition result_of {A : Type} (m : io A) : outcome A := snd m.

(** ** Config *)

Definition environ : Type := string -> option string.

(** [os.environ.get(name, default)]. *)
Definition environ_get (env : environ) (name default : string) : string :=
  match env name with Some v => v | None => default end.

Definition DB_PATH (env : environ) : string :=
  environ_get env "MEMORY_DB" "/root/.openclaw/memory/main.sqlite".
Definition OPENAI_API_KEY (env : environ) : string :=
  environ_get env "OPENAI_API_KEY" EmptyString.
Definition OPENROUTER_API_KEY (env : environ) : string :=
  environ_get env "OPENROUTER_KEY" EmptyString.
Definition EMBEDDING_MODEL : string := "text-embedding-3-small".
Definition SCOPE_PREFIX : string := "memory/customers/test-customer".
Definition MIN_SCORE_DEFAULT : float := 0.35%float.
Definition MAX_RESULTS : nat := 5.

(** (query as the user would say it, expected answer substring, description) *)
Definition TEST_CASES : list (string * string * string) :=
  [ ("hey can I get somebody on a call to talk about this deal?",
     "CloudWarriors",
     "Presales call request → should ask if CW is partner");
    ("Can I get someone to hop on a call?",
     "money",
     "Hop on a call → for money (trained pair #1)");
    ("Can I get presales assistance?",
     "CloudWarriors is the partner",
     "Presales assistance → partner check (trained pair #2)");
    ("there is already a partner on this deal",
     "minimum of $10k",
     "Partner exists → $10k minimum (trained pair #3)");
    ("what is the minimum cost for an implementation?",
     "minimum engagement",
     "Minimum engagement pricing question");
    ("I need an executable SOW",
     "SOW",
     "SOW request → should match SOW-related Q&A");
    ("can you scope out a custom integration?",
     "integration",
     "Custom integration question");
    ("I need a quote on CW paper",
     "quote",
     "Quote request");
    ("Team, availability for a scoping call next week?",
     "scoping",
     "Scoping call availability (first Q&A pair in training)");
    ("what is the deal registration status?",
     "deal",
     "Deal registration question") ].

(** ** The collaborators of the script *)

(** What the embeddings endpoint does with one request, seen from the [try]
    block of [get_embedding]. *)
Inductive api_reply : Type :=
| Unreachable (reason : string)
    (* urlopen raises URLError: no route, refused or reset connection, time
       out while connecting or sending, or an HTTP error status (HTTPError) *)
| ReadTimeout
    (* the 15 s time out expires while the response is awaited or read:
       socket.timeout, which is TimeoutError and no URLError *)
| Malformed (e : exn)
    (* the body is not JSON (JSONDecodeError), or the decoded value has no
       data[0].embedding (KeyError, IndexError, TypeError) *)
| Embedding (vec : list float).

(** An SQLite value, as the [sqlite3] module hands it over. *)
Inductive sqlval : Type :=
| SqlNull
| SqlInt (z : Z)
| SqlReal (x : float)
| SqlText (s : string)
| SqlBlob (b : list byte).

(** [bool(v)]. *)
Definition sql_truthy (v : sqlval) : bool :=
  match v with
  | SqlNull => false
  | SqlInt z => negb (z =? 0)%Z
  | SqlReal x => Py.truthy x
  | SqlText s => str_truthy s
  | SqlBlob b => match b with [] => false | _ => true end
  end.

(** A row of [SELECT id, text, path, start_line, end_line, embedding FROM chunks].
    The columns have the types that the schema of the store declares for
    them: a text and two integers that are not NULL.  (SQLite does not
    enforce them; on another value [int(...)] or the slice of the text in
    [search_vector] would raise, which these rows cannot show.)  Only the
    embedding is kept as the value that it is. *)
Record chunk_row : Type := {
  chunk_id : string;
  chunk_text : string;
  chunk_path : string;
  chunk_start : Z;
  chunk_end : Z;
  chunk_embedding : sqlval
}.

(** A row of [SELECT text, path, start_line, end_line, rank FROM chunks_fts]. *)
Record fts_row : Type := {
  fts_text : string;
  fts_path : string;
  fts_start : Z;
  fts_end : Z;
  fts_row_rank : float
}.

(** An open [sqlite3.Connection], by the answers of the store to the four
    statements of the script (each may raise, as on a missing table). *)
Record connection : Type := {
  (* ... FROM chunks_fts WHERE chunks_fts MATCH ? AND path LIKE ? ORDER BY rank LIMIT ? *)
  select_fts : string -> string -> nat -> answer (list fts_row);
  (* ... FROM chunks WHERE model = ? AND path LIKE ? *)
  select_chunks : string -> string -> answer (list chunk_row);
  (* the number of rows of chunks WHERE path LIKE ? *)
  count_chunks : string -> answer Z;
  (* the number of rows of files WHERE path LIKE ? *)
  count_files : string -> answer Z
}.

(** The process environment and everything outside the process. *)
Record world : Type := {
  env : environ;
  argv : list string;                       (* sys.argv *)
  path_exists : string -> bool;             (* os.path.exists *)
  connect : string -> answer connection;    (* sqlite3.connect *)
  (* the embeddings endpoint: url, bearer key, input text *)
  urlopen : string -> string -> string -> api_reply;
  (* milliseconds that the embedding call of a query takes *)
  elapsed_ms : string -> Z
}.

(** ** Helpers *)

(** The two backends of [get_embedding]. *)
Inductive backend : Type := OpenAI | OpenRouter.

Definition backend_url (b : backend) : string :=
  match b with
  | OpenRouter => "https://openrouter.ai/api/v1/embeddings"
  | OpenAI => "https://api.openai.com/v1/embeddings"
  end.

Definition backend_key (e : environ) (b : backend) : string :=
  match b with
  | OpenRouter => OPENROUTER_API_KEY e
  | OpenAI => OPENAI_API_KEY e
  end.

(** The [if]/[elif]/[else] that opens [get_embedding]: the backend whose
    url and key the request gets, [None] where the function exits. *)
Definition selected_backend (e : environ) : option backend :=
  if str_truthy (OPENROUTER_API_KEY e) then Some OpenRouter
  else if str_truthy (OPENAI_API_KEY e) then Some OpenAI
  else None.

Definition get_embedding (w : world) (text : string) : io (list float) :=
  b <- match selected_backend (env w) with
       | Some b => ret b
       | None => print LNoKey ;; sys_exit 1
       end ;;
  match urlopen w (backend_url b) (backend_key (env w) b) text with
  | Embedding vec => ret vec
  | Unreachable reason => print (LEmbeddingError reason) ;; ret []
  | ReadTimeout => lift (Raise TimeoutError)
  | Malformed e => lift (Raise e)
  end.

Definition vec_to_blob (vec : list float) : outcome (list byte) :=
  Struct.pack vec.

(** What the codec makes of [x]: the float that [struct.unpack] reads
    from the four bytes that [struct.pack] writes for it; none where
    [struct.pack] refuses [x]. *)
Definition to_float32 (x : float) : option float :=
  match Struct.pack_f x with
  | Return w => Some (Struct.unpack_f w)
  | _ => None
  end.

Definition cosine_similarity (a b : list float) : outcome float :=
  let dot := Py.sum (map (fun xy => (fst xy * snd xy)%float) (combine a b)) in
  let norm_a := Py.pow_half (Py.sum (map (fun x => (x * x)%float) a)) in
  let norm_b := Py.pow_half (Py.sum (map (fun x => (x * x)%float) b)) in
  if (norm_a =? 0)%float || (norm_b =? 0)%float then Return 0%float
  else Py.truediv dot (norm_a * norm_b)%float.

(** [str(e)]. *)
Definition exn_str (e : exn) : string :=
  match e with
  | URLError reason => reason
  | KeyError key => key
  | OperationalError msg => msg
  | _ => EmptyString
  end.

(** [s.split()]: the maximal runs of characters that are not whitespace. *)
Definition is_space (c : ascii) : bool :=
  let n := nat_of_ascii c in
  ((9 <=? n) && (n <=? 13) || (28 <=? n) && (n <=? 32) || (n =? 133) || (n =? 160))%nat.

Fixpoint split_from (cur s : string) : list string :=
  match s with
  | EmptyString => if str_truthy cur then [cur] else []
  | String c t =>
      if is_space c then
        if str_truthy cur then cur :: split_from EmptyString t
        else split_from EmptyString t
      else split_from (cur ++ String c EmptyString) t
  end.

Definition str_split (s : string) : list string := split_from EmptyString s.

(** A dict of the list that [search_fts] returns. *)
Inductive fts_result : Type :=
| FtsHit (text path : string) (lines : Z * Z) (fts_rank : float)
| FtsError (error : string).

(** [r.get("text", "")]. *)
Definition fts_get_text (r : fts_result) : string :=
  match r with
  | FtsHit text _ _ _ => text
  | FtsError _ => EmptyString
  end.

Definition search_fts (db : connection) (query prefix : string) (limit : nat)
  : list fts_result :=
  let words := str_split query in
  let fts_query :=
    String.concat " OR " (filter (fun w => (2 <? String.length w)%nat) words) in
  let fts_query := if str_truthy fts_query then fts_query else query in
  match select_fts db fts_query (prefix ++ "/%") limit with
  | Ok rows =>
      map (fun r => FtsHit (str_take 200 (fts_text r)) (fts_path r)
                           (fts_start r, fts_end r) (fts_row_rank r)) rows
  | Fails e => [FtsError (exn_str e)]
  end.

(** A dict of the list that [search_vector] returns. *)
Record vec_result : Type := {
  score : float;
  path : string;
  lines : Z * Z;
  text : string
}.

(** [scored.sort(key=lambda x: x["score"], reverse=True)]: descending and
    stable.  (With a nan among the scores [<] is no order, and the place of
    the nan rows depends on the run of the sorting algorithm.) *)
Fixpoint insert_desc (x : vec_result) (l : list vec_result) : list vec_result :=
  match l with
  | [] => [x]
  | y :: t => if (score x <? score y)%float then y :: insert_desc x t else x :: l
  end.

Definition sort_desc (l : list vec_result) : list vec_result :=
  fold_right insert_desc [] l.

Section Harness.

(** Builtins of Python that the harness takes as given. *)
Variable lower : string -> string.                       (* str.lower *)
Variable json_loads : string -> answer (list float).     (* json.loads, on an embedding column
                                                            that holds a JSON array of numbers *)
Variable round4 : float -> float.                        (* round(x, 4) *)
Variable float_of_str : string -> answer float.          (* float(s) *)

Definition blob_to_vec (blob : sqlval) : outcome (list float) :=
  match blob with
  | SqlText s => of_answer (json_loads s)
  | SqlBlob b =>
      let n := (List.length b / 4)%nat in
      Struct.unpack n b
  | _ => Return []
  end.

(** (With the columns of a row typed as in [chunk_row], [int(start)],
    [int(end)] and [text[:200]] are what they are on integers and a str,
    and do not fail.) *)
Definition search_vector (db : connection) (query_vec : list float)
           (prefix : string) (limit : nat) : outcome (list vec_result) :=
  obind (of_answer (select_chunks db EMBEDDING_MODEL (prefix ++ "/%"))) (fun rows =>
  obind (omap (fun row =>
                 if negb (sql_truthy (chunk_embedding row)) then Return []
                 else
                   obind (blob_to_vec (chunk_embedding row)) (fun chunk_vec =>
                   obind (cosine_similarity query_vec chunk_vec) (fun s =>
                   Return [ {| score := round4 s;
                               path := chunk_path row;
                               lines := (chunk_start row, chunk_end row);
                               text := str_take 200 (chunk_text row) |} ])))
              rows) (fun scored =>
  Return (firstn limit (sort_desc (List.concat scored))))).

(** ** Main *)

(** The dict that [run_test] returns: the skip dict has only the first
    two keys. *)
Record result : Type := {
  status : string;
  query : string;
  top_score : option float;
  above_threshold : option nat;
  embed_ms : option Z
}.

(** [expected.lower() in t.lower()]. *)
Definition found (expected t : string) : bool :=
  str_in (lower expected) (lower t).

(** The three tests of step 4 of [run_test]. *)
Definition vec_pass (expected : string) (min_score : float)
           (vec_results : list vec_result) : bool :=
  existsb (fun r => found expected (text r))
          (filter (fun r => (min_score <=? score r)%float) vec_results).

Definition vec_any (expected : string) (vec_results : list vec_result) : bool :=
  existsb (fun r => found expected (text r)) vec_results.

Definition fts_pass (expected : string) (fts_results : list fts_result) : bool :=
  existsb (fun r => found expected (fts_get_text r)) fts_results.

(** [enumerate(xs)]. *)
Definition enumerate {A : Type} (xs : list A) : list (nat * A) :=
  combine (seq 0 (List.length xs)) xs.

Definition run_test (w : world) (db : connection)
           (query expected description : string) (min_score : float) : io result :=
  print LRule ;;
  print (LQuery query) ;;
  print (LExpect expected) ;;
  print (LDesc description) ;;
  print LDash ;;
  (* 1. Get embedding for query *)
  query_vec <- get_embedding w query ;;
  let embed_ms := elapsed_ms w query in
  match query_vec with
  | [] =>
      print (LSkip embed_ms) ;;
      ret {| status := "skip"; query := query; top_score := None;
             above_threshold := None; embed_ms := None |}
  | _ :: _ =>
      (* 2. Vector search *)
      vec_results <- lift (search_vector db query_vec SCOPE_PREFIX MAX_RESULTS) ;;
      (* 3. FTS search *)
      let fts_results := search_fts db query SCOPE_PREFIX MAX_RESULTS in
      (* 4. Check results *)
      let vec_pass := vec_pass expected min_score vec_results in
      let vec_any := vec_any expected vec_results in
      let fts_pass := fts_pass expected fts_results in
      let top_score :=
        match vec_results with r :: _ => score r | [] => 0%float end in
      let above_threshold :=
        filter (fun r => (min_score <=? score r)%float) vec_results in
      let status := if vec_pass || fts_pass then "PASS" else "FAIL" in
      let status :=
        if negb vec_pass && vec_any then "BELOW_THRESHOLD" else status in
      print (LVectorHeader MAX_RESULTS embed_ms) ;;
      for_each (fun ir =>
                  let r := snd ir in
                  print (LVectorHit (found expected (text r)) (fst ir + 1)
                                    (score r) (min_score <=? score r)%float
                                    (path r) (lines r)) ;;
                  print (LPreview (str_take 120 (text r))))
               (enumerate (firstn MAX_RESULTS vec_results)) ;;
      print (LFtsHeader (Nat.min 3 (List.length fts_results))) ;;
      for_each (fun ir =>
                  match snd ir with
                  | FtsHit t p l k =>
                      print (LFtsHit (found expected t) (fst ir + 1)
                                     (Some k) (Some p) (Some l)) ;;
                      print (LPreview (str_take 120 t))
                  | FtsError e =>
                      print (LFtsHit (found expected EmptyString) (fst ir + 1)
                                     None None None) ;;
                      print (LPreview (str_take 120 e))
                  end)
               (enumerate (firstn 3 fts_results)) ;;
      print (LResult status) ;;
      print (LTopScore top_score min_score) ;;
      print (LAbove (List.length above_threshold) (List.length vec_results)) ;;
      (if String.eqb status "BELOW_THRESHOLD" then
         let match_score :=
           match filter (fun r => found expected (text r)) vec_results with
           | r :: _ => score r
           | [] => 0%float
           end in
         print (LFoundBelow match_score min_score)
       else ret tt) ;;
      ret {| status := status; query := query; top_score := Some top_score;
             above_threshold := Some (List.length above_threshold);
             embed_ms := Some embed_ms |}
  end.

(** [sum(1 for r in results if r["status"] == s)]. *)
Definition count_status (s : string) (results : list result) : nat :=
  List.length (filter (fun r => String.eqb (status r) s) results).

(** [r.get("top_score", 0)]. *)
Definition get_top_score (r : result) : float :=
  match top_score r with Some x => x | None => 0%float end.

(** [r["top_score"]]. *)
Definition item_top_score (r : result) : outcome float :=
  match top_score r with
  | Some x => Return x
  | None => Raise (KeyError "top_score")
  end.

(** [sorted(results, key=lambda x: x.get("top_score", 0))]: ascending and
    stable. *)
Fixpoint insert_asc (x : result) (l : list result) : list result :=
  match l with
  | [] => [x]
  | y :: t =>
      if (get_top_score y <? get_top_score x)%float then y :: insert_asc x t
      else x :: l
  end.

Definition sorted_by_top_score (l : list result) : list result :=
  fold_right insert_asc [] l.

(** [{"PASS": "+", "FAIL": "X", "BELOW_THRESHOLD": "~", "skip": "?"}[s]]. *)
Definition flag_of (s : string) : outcome string :=
  if String.eqb s "PASS" then Return "+"
  else if String.eqb s "FAIL" then Return "X"
  else if String.eqb s "BELOW_THRESHOLD" then Return "~"
  else if String.eqb s "skip" then Return "?"
  else Raise (KeyError s).

(** [int(x)]: the float truncated towards zero. *)
Definition py_int (x : float) : outcome Z :=
  match Prim2SF x with
  | S754_nan => Raise ValueError
  | S754_infinity _ => Raise OverflowError
  | S754_zero _ => Return 0%Z
  | S754_finite s m e =>
      let a := if (0 <=? e)%Z then Z.shiftl (Zpos m) e
               else Z.shiftr (Zpos m) (- e) in
      Return (if s then (- a)%Z else a)
  end.

(** The loop of [main] over the test cases (the pause after each test
    prints nothing). *)
Fixpoint run_tests (w : world) (db : connection) (min_score : float)
         (cases : list (string * string * string)) : io (list result) :=
  match cases with
  | [] => ret []
  | (q, expected, desc) :: rest =>
      r <- run_test w db q expected desc min_score ;;
      rs <- run_tests w db min_score rest ;;
      ret (r :: rs)
  end.

(** The end of [main], from the Summary comment on. *)
Definition main_summary (results : list result) (min_score : float) : io unit :=
  print LRule ;;
  print LSummary ;;
  print LRule ;;
  let passed := count_status "PASS" results in
  let failed := count_status "FAIL" results in
  let below := count_status "BELOW_THRESHOLD" results in
  let skipped := count_status "skip" results in
  let n := List.length results in
  print (LPass passed n) ;;
  print (LFail failed n) ;;
  print (LBelow below n min_score) ;;
  (if (0 <? skipped)%nat then print (LSkipped skipped n) else ret tt) ;;
  (if (0 <? below)%nat then
     print LRecommend ;;
     scores <- lift (omap item_top_score
                       (filter (fun r => String.eqb (status r) "BELOW_THRESHOLD")
                               results)) ;;
     match scores with
     | x :: xs =>
         print (LLowest (Py.min x xs)) ;;
         print (LSuggested (Py.max 0.15%float (Py.min x xs - 0.05)%float))
     | [] => ret tt
     end
   else ret tt) ;;
  print LDistHeader ;;
  for_each (fun r =>
              flag <- lift (flag_of (status r)) ;;
              let score := get_top_score r in
              bar <- (if Py.truthy score
                      then k <- lift (py_int (score * 40)%float) ;; ret (Z.to_nat k)
                      else ret 0%nat) ;;
              print (LDist flag score bar (str_take 50 (query r))))
           (sorted_by_top_score results) ;;
  (* db.close() *)
  sys_exit (if (0 <? failed)%nat then 1%Z else 0%Z).

(** [main] once its first statement has read the threshold. *)
Definition main_with (w : world) (min_score : float) : io unit :=
  print LTitle ;;
  print (LDb (DB_PATH (env w))) ;;
  print (LScope SCOPE_PREFIX) ;;
  print (LMinScore min_score) ;;
  print (LModel EMBEDDING_MODEL) ;;
  print (LTests (List.length TEST_CASES)) ;;
  (if negb (path_exists w (DB_PATH (env w))) then
     print (LDbMissing (DB_PATH (env w))) ;; sys_exit 1%Z
   else ret tt) ;;
  db <- lift (of_answer (connect w (DB_PATH (env w)))) ;;
  (* Quick stats *)
  chunk_count <- lift (of_answer (count_chunks db (SCOPE_PREFIX ++ "/%"))) ;;
  file_count <- lift (of_answer (count_files db (SCOPE_PREFIX ++ "/%"))) ;;
  print (LIndexed file_count chunk_count) ;;
  results <- run_tests w db min_score TEST_CASES ;;
  main_summary results min_score.

Definition main (w : world) : io unit :=
  min_score <- match argv w with
               | _ :: a :: _ => lift (of_answer (float_of_str a))
               | _ => ret MIN_SCORE_DEFAULT
               end ;;
  main_with w min_score.

(** ** Notions that the properties below are stated with *)

(** The dict that [run_test] returns for a skipped test case, and the one
    that it returns after the searches. *)
Definition skipped (q : string) : result :=
  {| status := "skip"; query := q; top_score := None;
     above_threshold := None; embed_ms := None |}.

Definition classified (db : connection) (w : world) (q expected : string)
           (min_score : float) (vr : list vec_result) : result :=
  {| status :=
       if negb (vec_pass expected min_score vr) && vec_any expected vr
       then "BELOW_THRESHOLD"
       else if vec_pass expected min_score vr
               || fts_pass expected (search_fts db q SCOPE_PREFIX MAX_RESULTS)
            then "PASS" else "FAIL";
     query := q;
     top_score := Some (match vr with r :: _ => score r | [] => 0%float end);
     above_threshold :=
       Some (List.length (filter (fun r => (min_score <=? score r)%float) vr));
     embed_ms := Some (elapsed_ms w q) |}.

(** The run gets as far as the loop over the test cases, which ends with
    the list [rs] of results: the threshold is read, the store is there
    and answers the two counts. *)
Definition reaches_summary (w : world) (min_score : float) (rs : list result)
  : Prop :=
  match argv w with
  | _ :: a :: _ => float_of_str a = Ok min_score
  | _ => min_score = MIN_SCORE_DEFAULT
  end /\
  path_exists w (DB_PATH (env w)) = true /\
  exists db chunk_count file_count,
    connect w (DB_PATH (env w)) = Ok db /\
    count_chunks db (SCOPE_PREFIX ++ "/%") = Ok chunk_count /\
    count_files db (SCOPE_PREFIX ++ "/%") = Ok file_count /\
    result_of (run_tests w db min_score TEST_CASES) = Return rs.

(** The top scores of the test cases classified BELOW_THRESHOLD, in the
    order of the run. *)
Definition below_scores (rs : list result) : list float :=
  map get_top_score
      (filter (fun r => String.eqb (status r) "BELOW_THRESHOLD") rs).

End Harness.

Definition statuses : list string := ["skip"; "PASS"; "BELOW_THRESHOLD"; "FAIL"].

(** What [run_test] can return: the skip dict, or a dict with a verdict and
    a top score. *)
Definition well_formed (r : result) : Prop :=
  (status r = "skip" /\ top_score r = None) \/
  (In (status r) ["PASS"; "BELOW_THRESHOLD"; "FAIL"] /\ top_score r <> None).

(** The lines that report the verdict on a test case, and the one that
    suggests a threshold. *)
Definition is_verdict (l : line) : bool :=
  match l with
  | LResult _ | LSkip _ => true
  | _ => false
  end.

Definition is_suggestion (l : line) : bool :=
  match l with
  | LSuggested _ => true
  | _ => false
  end.

(** A float that is an infinity, a nan, or a finite number of magnitude
    [2 ^ (k - 1)] at least. *)
Definition SFlarge (k : Z) (x : spec_float) : Prop :=
  match x with
  | S754_zero _ => False
  | S754_finite _ m e => k <= Zdigits2 (Zpos m) + e
  | _ => True
  end.

(** The rounding to binary32 of the standard library: [binary_round] is
    the rounding to nearest, ties to even, of its model of IEEE 754
    arithmetic, here at the 24 bits of precision and the exponent bound 128
    of binary32.  A float beyond the range of binary32 is rounded to an
    infinity. *)
Definition round32 (x : float) : spec_float :=
  match Prim2SF x with
  | S754_finite s m e => binary_round 24 128 s m e
  | sf => sf
  end.

(** A finite float whose rounding to binary32 is an infinity. *)
Definition overflows32 (x : float) : Prop :=
  exists s m e, Prim2SF x = S754_finite s m e /\ round32 x = S754_infinity s.

(** ** Instances of the builtins and sample runs *)

(** [str.lower] on ASCII text. *)
Definition lower_char (c : ascii) : ascii :=
  let n := nat_of_ascii c in
  if ((65 <=? n) && (n <=? 90))%nat then ascii_of_nat (n + 32) else c.

Fixpoint ascii_lower (s : string) : string :=
  match s with
  | EmptyString => EmptyString
  | String c t => String (lower_char c) (ascii_lower t)
  end.

(** [round(x, 4)]: the decimal with four places nearest to the exact value
    of [x] (ties to even), then the double nearest to that decimal. *)
Definition round_half_even_div (n d : Z) : Z :=
  let q := (n / d)%Z in
  let r := (n mod d)%Z in
  if (d <? 2 * r)%Z || ((d =? 2 * r)%Z && Z.odd q) then (q + 1)%Z else q.

Definition py_round4 (x : float) : float :=
  match Prim2SF x with
  | S754_finite s m e =>
      let n := if (0 <=? e)%Z then (Zpos m * 2 ^ e * 10000)%Z
               else round_half_even_div (Zpos m * 10000) (2 ^ (- e)) in
      match n with
      | Zpos p =>
          SF2Prim (SFdiv prec emax (S754_finite s p 0%Z) (S754_finite false 10000 0%Z))
      | _ => SF2Prim (S754_zero s)
      end
  | _ => x
  end.

(** A decoder given by the table of the texts that it decodes. *)
Fixpoint decode_with {A : Type} (table : list (string * A)) (e : exn) (s : string)
  : answer A :=
  match table with
  | [] => Fails e
  | (k, v) :: rest => if String.eqb k s then Ok v else decode_with rest e s
  end.

(** [json.loads] and [float] for a store without JSON embeddings and a
    command line with the threshold written as 0.5 or not at all. *)
Definition json_loads_none : string -> answer (list float) :=
  decode_with [] JSONDecodeError.
Definition float_of_str_half : string -> answer float :=
  decode_with [("0.5", 0.5%float)] ValueError.

(** The little-endian buffer of some binary32 patterns. *)
Definition blob_of (ws : list Z) : sqlval := SqlBlob (flat_map (le_split 4) ws).

Definition one32 : Z := 1065353216.     (* 0x3F800000, 1.0 *)
Definition qnan32 : Z := 2143289344.    (* 0x7FC00000, nan *)

Definition chunk (t : string) (ws : list Z) : chunk_row :=
  {| chunk_id := "c1"; chunk_text := t;
     chunk_path := "memory/customers/test-customer/training.md";
     chunk_start := 1; chunk_end := 4; chunk_embedding := blob_of ws |}.

(** A store whose full-text statement has one answer, whatever the match
    expression: the error of a store without the full-text table, or the
    rows of a canned answer. *)
Definition store (chunks : list chunk_row) (hits : answer (list fts_row)) : connection :=
  {| select_fts := fun _ _ _ => hits;
     select_chunks := fun _ _ => Ok chunks;
     count_chunks := fun _ => Ok (Z.of_nat (List.length chunks));
     count_files := fun _ => Ok 1%Z |}.

(** A full-text index over some rows, which answers as FTS5 answers the
    match expressions that [search_fts] builds: words joined by OR.  A word
    is a term when it is a bareword: letters, digits, underscores and
    characters beyond ASCII.  Any other character must be quoted, and
    unquoted it makes the statement fail with a syntax error; so it is with
    the question mark and the comma that seven of the ten queries leave in
    their words.  A row matches when one of the terms is one of the tokens
    of its text, letter case aside, and its path is LIKE the pattern.  The
    rows are listed by rank.  (Quoted strings, prefix and column queries,
    NEAR, AND, NOT and parentheses are no part of this index.) *)
Definition bareword_char (c : ascii) : bool :=
  let n := nat_of_ascii c in
  ((48 <=? n) && (n <=? 57) || (65 <=? n) && (n <=? 90) || (97 <=? n) && (n <=? 122)
   || (n =? 95) || (n =? 26) || (128 <=? n))%nat.

(** The first character of an expression that is neither of a bareword nor
    white space (a space, a tab or an end of line). *)
Definition fts5_space (c : ascii) : bool :=
  let n := nat_of_ascii c in
  ((n =? 32) || (n =? 9) || (n =? 10) || (n =? 13))%nat.

Fixpoint offending (expr : string) : option ascii :=
  match expr with
  | EmptyString => None
  | String c t => if bareword_char c || fts5_space c then offending t else Some c
  end.

(** The tokens of a text: the runs of letters, digits and characters beyond
    ASCII, in lower case. *)
Definition token_char (c : ascii) : bool :=
  let n := nat_of_ascii c in
  ((48 <=? n) && (n <=? 57) || (65 <=? n) && (n <=? 90) || (97 <=? n) && (n <=? 122)
   || (128 <=? n))%nat.

Fixpoint tokens_from (cur s : string) : list string :=
  match s with
  | EmptyString => if str_truthy cur then [cur] else []
  | String c t =>
      if token_char c then tokens_from (cur ++ String (lower_char c) EmptyString) t
      else if str_truthy cur then cur :: tokens_from EmptyString t
      else tokens_from EmptyString t
  end.

Definition tokens (s : string) : list string := tokens_from EmptyString s.

(** [s LIKE pattern]: % stands for any characters, _ for one, and the
    letters of ASCII match in either case. *)
Fixpoint sql_like (pattern s : string) : bool :=
  match pattern with
  | EmptyString => negb (str_truthy s)
  | String c p =>
      if Ascii.eqb c "%" then
        (fix rest (s : string) : bool :=
           sql_like p s
           || match s with
              | String _ t => rest t
              | EmptyString => false
              end) s
      else
        match s with
        | String d t =>
            (Ascii.eqb c "_" || Ascii.eqb (lower_char c) (lower_char d)) && sql_like p t
        | EmptyString => false
        end
  end.

Definition fts5_select (index : list fts_row) (expr pattern : string) (limit : nat)
  : answer (list fts_row) :=
  match offending expr with
  | Some c =>
      Fails (OperationalError
               ("fts5: syntax error near "
                ++ String "034" (String c (String "034" EmptyString))))
  | None =>
      let terms :=
        map ascii_lower
            (filter (fun w => negb (String.eqb w "OR")) (str_split expr)) in
      Ok (firstn limit
            (filter (fun r =>
                       sql_like pattern (fts_path r)
                       && existsb (fun t => existsb (String.eqb t) (tokens (fts_text r)))
                                  terms)
                    index))
  end.

(** A store with this index over its full-text table. *)
Definition store_indexed (chunks : list chunk_row) (index : list fts_row) : connection :=
  {| select_fts := fts5_select index;
     select_chunks := fun _ _ => Ok chunks;
     count_chunks := fun _ => Ok (Z.of_nat (List.length chunks));
     count_files := fun _ => Ok 1%Z |}.

Definition environ_of (vars : list (string * string)) : environ :=
  fun name =>
    match decode_with vars ValueError name with
    | Ok v => Some v
    | Fails _ => None
    end.

Definition world_of (vars : list (string * string)) (db : connection)
           (api : api_reply) : world :=
  {| env := environ_of vars;
     argv := ["test-memory-search.py"];
     path_exists := fun _ => true;
     connect := fun _ => Ok db;
     urlopen := fun _ _ _ => api;
     elapsed_ms := fun _ => 120%Z |}.

(** A store whose only chunk holds the trained answers, with an embedding
    orthogonal to the query vector [1, 0], and a full-text index over the
    chunk. *)
Definition answers : string :=
  "CloudWarriors is the partner; for money; minimum of $10k; minimum engagement; SOW; integration; quote; scoping; deal".

Definition answers_indexed : list fts_row :=
  [ {| fts_text := answers;
       fts_path := "memory/customers/test-customer/training.md";
       fts_start := 1; fts_end := 4; fts_row_rank := (-1.5)%float |} ].

Definition store_orthogonal : connection :=
  store_indexed [chunk answers [0%Z; one32]] answers_indexed.

Definition world_orthogonal : world :=
  world_of [("OPENROUTER_KEY", "sk-or")] store_orthogonal
           (Embedding [1%float; 0%float]).

(** The same chunk with the embedding of the query, and no full-text table. *)
Definition store_aligned : connection :=
  store [chunk answers [one32; 0%Z]]
        (Fails (OperationalError "no such table: chunks_fts")).

Definition world_aligned : world :=
  world_of [("OPENAI_API_KEY", "sk")] store_aligned (Embedding [1%float; 0%float]).

(** An endpoint that answers with a body that is not JSON. *)
Definition world_malformed : world :=
  world_of [("OPENAI_API_KEY", "sk")] store_aligned (Malformed JSONDecodeError).

(** An endpoint that cannot be reached. *)
Definition world_unreachable : world :=
  world_of [("OPENAI_API_KEY", "sk")] store_aligned
           (Unreachable "[Errno 111] Connection refused").

(** No credential at all. *)
Definition world_no_keys : world :=
  world_of [] store_aligned (Embedding [1%float; 0%float]).

(** Both credentials. *)
Definition world_both_keys : world :=
  world_of [("OPENAI_API_KEY", "sk"); ("OPENROUTER_KEY", "sk-or")] store_aligned
           (Embedding [1%float; 0%float]).

(** A store whose chunk has a nan in its embedding. *)
Definition store_nan : connection :=
  store [chunk answers [qnan32]] (Fails (OperationalError "no such table: chunks_fts")).

Definition world_nan : world :=
  world_of [("OPENAI_API_KEY", "sk")] store_nan (Embedding [1%float]).

(** The results of the run in [world_orthogonal]. *)
Definition results_orthogonal : list result :=
  Eval vm_compute in
    match result_of (run_tests ascii_lower json_loads_none py_round4
                               world_orthogonal store_orthogonal
                               MIN_SCORE_DEFAULT TEST_CASES) with
    | Return rs => rs
    | _ => []
    end.
(** ** Parts of the searches, by name *)

(** The match expression that [search_fts] hands to the full-text index:
    the words of the query of more than two characters joined by OR, and
    the query itself where no such word is left. *)
Definition fts_query (query : string) : string :=
  let words := str_split query in
  let fts_query :=
    String.concat " OR " (filter (fun w => (2 <? String.length w)%nat) words) in
  if str_truthy fts_query then fts_query else query.

(** The body of the loop of [search_vector]: what a row adds to [scored]. *)
Definition score_row (json_loads : string -> answer (list float))
           (round4 : float -> float) (query_vec : list float) (row : chunk_row)
  : outcome (list vec_result) :=
  if negb (sql_truthy (chunk_embedding row)) then Return []
  else
    obind (blob_to_vec json_loads (chunk_embedding row)) (fun chunk_vec =>
    obind (cosine_similarity query_vec chunk_vec) (fun s =>
    Return [ {| score := round4 s;
                path := chunk_path row;
                lines := (chunk_start row, chunk_end row);
                text := str_take 200 (chunk_text row) |} ])).

(** The rows that the loop of [search_vector] does not pass over. *)
Definition with_embedding (rows : list chunk_row) : list chunk_row :=
  filter (fun row => sql_truthy (chunk_embedding row)) rows.

(** ** The order of the floats *)

(** The place of a float in the order that the comparisons of Python
    follow: the class (infinities, negative and positive numbers, zero),
    then exponent and significand.  A nan has no place. *)
Definition SFkey (x : spec_float) : option (Z * Z * Z) :=
  match x with
  | S754_nan => None
  | S754_infinity s => Some (if s then -2 else 2, 0, 0)
  | S754_zero _ => Some (0, 0, 0)
  | S754_finite s m e => if s then Some (-1, - e, - Zpos m) else Some (1, e, Zpos m)
  end.

Definition key_le (k k' : Z * Z * Z) : Prop :=
  let '(a, b, c) := k in
  let '(a', b', c') := k' in
  a < a' \/ (a = a' /\ (b < b' \/ (b = b' /\ c <= c'))).

Definition key_lt (k k' : Z * Z * Z) : Prop :=
  let '(a, b, c) := k in
  let '(a', b', c') := k' in
  a < a' \/ (a = a' /\ (b < b' \/ (b = b' /\ c < c'))).

(** [x >= y] on the scores of two results. *)
Definition score_ge (r r' : vec_result) : Prop :=
  (score r' <=? score r)%float = true.

(** ** Lines of the report *)

(** The line that tells that the expected answer was found below the
    threshold. *)
Definition is_found_below (l : line) : bool :=
  match l with
  | LFoundBelow _ _ => true
  | _ => false
  end.

(** The verdict line that goes with a returned dict. *)
Definition verdict_line (w : world) (r : result) : line :=
  if String.eqb (status r) "skip" then LSkip (elapsed_ms w (query r))
  else LResult (status r).

(** ** More sample runs *)

(** A run without the file of the store. *)
Definition world_no_db : world :=
  {| env := environ_of [("OPENAI_API_KEY", "sk"); ("MEMORY_DB", "/tmp/none.sqlite")];
     argv := ["test-memory-search.py"; "0.5"];
     path_exists := fun _ => false;
     connect := fun _ => Fails (OperationalError "unable to open database file");
     urlopen := fun _ _ _ => Embedding [1%float; 0%float];
     elapsed_ms := fun _ => 120%Z |}.

(** The results of the run in [world_aligned]. *)
Definition results_aligned : list result :=
  Eval vm_compute in
    match result_of (run_tests ascii_lower json_loads_none py_round4
                               world_aligned store_aligned
                               MIN_SCORE_DEFAULT TEST_CASES) with
    | Return rs => rs
    | _ => []
    end.

(** A store with three chunks that have an embedding and one that has
    none, and a full-text index that finds two of them. *)
Definition chunk_at (t : string) (first last : Z) (embedding : sqlval) : chunk_row :=
  {| chunk_id := "c"; chunk_text := t;
     chunk_path := "memory/customers/test-customer/training.md";
     chunk_start := first; chunk_end := last; chunk_embedding := embedding |}.

Definition chunks_ranked : list chunk_row :=
  [ chunk_at "Q: hop on a call? A: for money" 1 2 (blob_of [0%Z; one32]);
    chunk_at "Q: quote on CW paper? A: a quote takes two days" 3 4
             (blob_of [one32; one32]);
    chunk_at "no embedding yet" 5 6 SqlNull;
    chunk_at "Q: deal registration? A: the deal is registered" 7 8
             (blob_of [one32; 0%Z]) ].

Definition fts_rows_ranked : list fts_row :=
  [ {| fts_text := "Q: quote on CW paper? A: a quote takes two days";
       fts_path := "memory/customers/test-customer/training.md";
       fts_start := 3; fts_end := 4; fts_row_rank := (-2.5)%float |};
    {| fts_text := "Q: hop on a call? A: for money";
       fts_path := "memory/customers/test-customer/training.md";
       fts_start := 1; fts_end := 2; fts_row_rank := (-1.25)%float |} ].

Definition store_ranked : connection := store chunks_ranked (Ok fts_rows_ranked).

Definition world_ranked : world :=
  world_of [("OPENAI_API_KEY", "sk")] store_ranked (Embedding [1%float; 0%float]).

(** What the rows of [store_ranked] score against the query vector [1, 0]. *)
Definition scored_ranked : list (list vec_result) :=
  Eval vm_compute in
    match omap (score_row json_loads_none py_round4 [1%float; 0%float])
               chunks_ranked with
    | Return scored => scored
    | _ => []
    end.

(** A store with an embedding of three bytes. *)
Definition store_corrupt : connection :=
  store [ chunk_at "Q: hop on a call? A: for money" 1 2
                   (SqlBlob [Byte.x00; Byte.x00; Byte.x80]) ]
        (Ok []).

(** The run in which every query gets the vector [1, 0] and the store has
    the embedding of three bytes. *)
Definition world_corrupt : world :=
  world_of [("OPENAI_API_KEY", "sk")] store_corrupt (Embedding [1%float; 0%float]).

(** A store whose chunk is in the full-text index and has no embedding
    yet. *)
Definition store_unembedded : connection :=
  store_indexed [chunk_at answers 1 4 SqlNull] answers_indexed.

(** The two best results of [store_ranked] for the query vector [1, 0]. *)
Definition top2_ranked : list vec_result :=
  Eval vm_compute in
    match search_vector json_loads_none py_round4 store_ranked
                        [1%float; 0%float] SCOPE_PREFIX 2 with
    | Return vr => vr
    | _ => []
    end.

(** ** Patterns of binary32 *)

(** The patterns that stand for a nan: all ones in the exponent field and
    a fraction that is not zero. *)
Definition nan_pattern (w : Z) : bool :=
  (Z.land (Z.shiftr w 23) 255 =? 255) && negb (Z.land w (2 ^ 23 - 1) =? 0).

(** A pattern that [struct] writes back as it read it: any number or
    infinity, and of the nans the quiet nan without payload. *)
Definition stable_pattern (w : Z) : Prop :=
  0 <= w < 2 ^ 32 /\ (nan_pattern w = true -> w = Struct.nan32).

(** The least magnitude that binary32 cannot hold, [2^128 - 2^103]: half
    a unit in the last place above the largest binary32 number. *)
Definition overflow32 : float := 0x1.ffffffp+127%float.

(** A finite float of that magnitude at least. *)
Definition overflows (x : float) : bool :=
  ((overflow32 <=? abs x) && (abs x <? infinity))%float.

(** The results of the run in [world_nan]. *)
Definition results_nan : list result :=
  Eval vm_compute in
    match result_of (run_tests ascii_lower json_loads_none py_round4
                               world_nan store_nan
                               MIN_SCORE_DEFAULT TEST_CASES) with
    | Return rs => rs
    | _ => []
    end.

(** A buffer of four floats: 1.0, -2.5, the least subnormal and the
    positive infinity. *)
Definition sample_blob : list byte :=
  flat_map (le_split 4) [1065353216; 3223322624; 1; 2139095040].




(** The lines of the score chart. *)
Definition is_dist (l : line) : bool :=
  match l with
  | LDist _ _ _ _ => true
  | _ => false
  end.

(** The chart line of a result: the flag of its status, its top score (0
    without one), a bar of [int(score * 40)] marks, and the first 50
    characters of its query. *)
Definition charted (r : result) (l : line) : Prop :=
  exists flag bar,
    flag_of (status r) = Return flag /\
    l = LDist flag (get_top_score r) bar (str_take 50 (query r)) /\
    ((Py.truthy (get_top_score r) = false /\ bar = 0%nat) \/
     (Py.truthy (get_top_score r) = true /\
      exists k, py_int (get_top_score r * 40)%float = Return k /\ bar = Z.to_nat k)).

(** [a] comes before [b] in the chart: its top score is not the higher. *)
Definition top_score_le (a b : result) : Prop :=
  (get_top_score a <=? get_top_score b)%float = true.

(** * Properties *)

(** ** The printing monad *)

Lemma result_bind {A B : Type} (m : io A) (f : A -> io B) :
  result_of (bind m f) = obind (result_of m) (fun a => result_of (f a)).
Proof.
  destruct m as [out [a | e | c]]; simpl; try reflexivity.
  destruct (f a); reflexivity.
Qed.

Lemma printed_bind {A B : Type} (m : io A) (f : A -> io B) :
  printed (bind m f) =
  (printed m ++ match result_of m with
                | Return a => printed (f a)
                | _ => []
                end)%list.
Proof.
  destruct m as [out [a | e | c]]; simpl; try (now rewrite app_nil_r).
  destruct (f a); reflexivity.
Qed.

Lemma bind_returned {A B : Type} (out : list line) (a : A) (f : A -> io B) :
  bind (out, Return a) f = ((out ++ printed (f a))%list, result_of (f a)).
Proof. simpl. destruct (f a); reflexivity. Qed.

Lemma bind_ret {A B : Type} (a : A) (f : A -> io B) : bind (ret a) f = f a.
Proof. unfold bind, ret. destruct (f a). reflexivity. Qed.

Lemma bind_lift {A B : Type} (o : outcome A) (f : A -> io B) :
  bind (lift o) f =
  match o with
  | Return a => f a
  | Raise e => ([], Raise e)
  | Exit c => ([], Exit c)
  end.
Proof. destruct o; try reflexivity. apply bind_ret. Qed.

Lemma bind_print {B : Type} (l : line) (k : unit -> io B) :
  bind (print l) k = (l :: printed (k tt), result_of (k tt)).
Proof. unfold bind, print. destruct (k tt). reflexivity. Qed.

Lemma for_each_returns {A : Type} (body : A -> io unit) (xs : list A) :
  (forall x, In x xs -> result_of (body x) = Return tt) ->
  result_of (for_each body xs) = Return tt.
Proof.
  induction xs as [| x t IH]; intros H; simpl; [reflexivity |].
  rewrite result_bind, (H x) by (now left). simpl.
  apply IH. intros y Hy. apply H. now right.
Qed.

(** Every printed line satisfies [P]. *)
Definition prints_only {A : Type} (P : line -> Prop) (m : io A) : Prop :=
  Forall P (printed m).

Lemma prints_only_bind {A B : Type} (P : line -> Prop) (m : io A) (f : A -> io B) :
  prints_only P m -> (forall a, prints_only P (f a)) -> prints_only P (bind m f).
Proof.
  unfold prints_only. intros Hm Hf. rewrite printed_bind.
  apply Forall_app. split; [assumption |].
  destruct (result_of m); [apply Hf | constructor | constructor].
Qed.

Lemma prints_only_for_each {A : Type} (P : line -> Prop) (body : A -> io unit) xs :
  (forall x, prints_only P (body x)) -> prints_only P (for_each body xs).
Proof.
  intros H. induction xs as [| x t IH]; simpl.
  - constructor.
  - apply prints_only_bind; [apply H | intros _; exact IH].
Qed.

Lemma result_print (l : line) : result_of (print l) = Return tt.
Proof. reflexivity. Qed.

Lemma result_ret {A : Type} (a : A) : result_of (ret a) = Return a.
Proof. reflexivity. Qed.

Lemma result_lift {A : Type} (o : outcome A) : result_of (lift o) = o.
Proof. reflexivity. Qed.

Lemma result_pair {A : Type} (out : list line) (o : outcome A) :
  result_of (out, o) = o.
Proof. reflexivity. Qed.

(** Computes the result of a sequence of statements, leaving the loops and
    the calls in place. *)
Ltac step_result :=
  repeat (rewrite ?result_bind, ?result_print, ?result_ret, ?result_lift,
            ?result_pair;
          cbn [obind]).

Lemma in_printed_bind {A B : Type} (l : line) (m : io A) (f : A -> io B) :
  In l (printed (bind m f)) <->
  In l (printed m) \/ exists a, result_of m = Return a /\ In l (printed (f a)).
Proof.
  rewrite printed_bind, in_app_iff. split; (intros [H | H]; [now left | right]).
  - destruct (result_of m) as [a | e | c]; [now exists a | easy | easy].
  - destruct H as [a [Ha H]]. now rewrite Ha.
Qed.

Lemma in_printed_print {B : Type} (x l : line) (k : unit -> io B) :
  In x (printed (bind (print l) k)) <-> l = x \/ In x (printed (k tt)).
Proof. rewrite printed_bind. reflexivity. Qed.

Lemma in_printed_seq {A B : Type} (x : line) (m : io A) (f : A -> io B) (a : A) :
  result_of m = Return a ->
  In x (printed (bind m f)) <-> In x (printed m) \/ In x (printed (f a)).
Proof. intros H. rewrite printed_bind, H. apply in_app_iff. Qed.

Lemma printed_bind_silent {A B : Type} (m : io A) (f : A -> io B) :
  (forall a, printed (f a) = []) -> printed (bind m f) = printed m.
Proof.
  intros H. rewrite printed_bind.
  destruct (result_of m); rewrite ?H; apply app_nil_r.
Qed.

Lemma prints_only_print (P : line -> Prop) (l : line) :
  P l -> prints_only P (print l).
Proof. intros H. repeat constructor. exact H. Qed.

Lemma prints_only_silent {A : Type} (P : line -> Prop) (o : outcome A) :
  prints_only P (lift o).
Proof. constructor. Qed.

(** Splits a sequence of statements into its prints, loops and branches. *)
Ltac prints_tac :=
  repeat first
    [ apply prints_only_bind; [| intros ?]
    | apply prints_only_for_each; intros ?
    | apply prints_only_print
    | apply prints_only_silent
    | apply (prints_only_silent _ (Return _))
    | apply (prints_only_silent _ (Exit _))
    | match goal with
      | |- prints_only _ (match ?x with _ => _ end) => destruct x
      | |- prints_only _ (if ?b then _ else _) => destruct b
      end ].

(** ** The evaluator *)

Section EvaluatorProperties.

Variable lower : string -> string.
Variable json_loads : string -> answer (list float).
Variable round4 : float -> float.

(** [run_test] returns as soon as the embedding call and the vector search
    do, and fails as they fail. *)
Lemma run_test_result w db q expected desc min_score :
  result_of (run_test lower json_loads round4 w db q expected desc min_score) =
  match result_of (get_embedding w q) with
  | Return [] => Return (skipped q)
  | Return (x :: xs) =>
      match search_vector json_loads round4 db (x :: xs) SCOPE_PREFIX MAX_RESULTS with
      | Return vr => Return (classified lower db w q expected min_score vr)
      | Raise e => Raise e
      | Exit c => Exit c
      end
  | Raise e => Raise e
  | Exit c => Exit c
  end.
Proof.
  unfold run_test. step_result.
  destruct (result_of (get_embedding w q)) as [[| x xs] | e | c];
    step_result; try reflexivity.
  destruct (search_vector _ _ _ _ _ _) as [vr | e | c];
    step_result; try reflexivity.
  rewrite for_each_returns by (intros ir _; now step_result).
  step_result.
  rewrite for_each_returns
    by (intros ir _; destruct (snd ir); now step_result).
  step_result.
  destruct (String.eqb _ "BELOW_THRESHOLD"); now step_result.
Qed.

Lemma classified_status db w q expected min_score vr :
  In (status (classified lower db w q expected min_score vr))
     ["PASS"; "BELOW_THRESHOLD"; "FAIL"].
Proof.
  unfold classified; cbn [status].
  destruct (negb _ && _); [right; now left |].
  destruct (_ || _); [now left | right; right; now left].
Qed.

Lemma run_test_well_formed w db q expected desc min_score r :
  result_of (run_test lower json_loads round4 w db q expected desc min_score)
  = Return r ->
  well_formed r.
Proof.
  rewrite run_test_result.
  destruct (result_of (get_embedding w q)) as [[| x xs] | e | c]; try discriminate.
  - intros [= <-]. left. split; reflexivity.
  - destruct (search_vector _ _ _ _ _ _) as [vr | e | c]; try discriminate.
    intros [= <-]. right. split; [apply classified_status | discriminate].
Qed.

Lemma run_tests_well_formed w db min_score cases rs :
  result_of (run_tests lower json_loads round4 w db min_score cases) = Return rs ->
  Forall well_formed rs.
Proof.
  revert rs. induction cases as [| [[q expected] desc] rest IH]; intros rs.
  - intros [= <-]. constructor.
  - cbn [run_tests]. step_result.
    destruct (result_of (run_test _ _ _ _ _ _ _ _ _)) as [r | e | c] eqn:Hr;
      cbn [obind]; try discriminate.
    step_result.
    destruct (result_of (run_tests _ _ _ _ _ _ _)) as [rs' | e | c];
      cbn [obind]; try discriminate.
    step_result. intros [= <-]. constructor.
    + eapply run_test_well_formed, Hr.
    + now apply IH.
Qed.

Lemma run_test_no_suggestion w db q expected desc min_score :
  prints_only (fun l => is_suggestion l = false)
              (run_test lower json_loads round4 w db q expected desc min_score).
Proof.
  unfold run_test. prints_tac; reflexivity.
Qed.

Lemma run_tests_no_suggestion w db min_score cases :
  prints_only (fun l => is_suggestion l = false)
              (run_tests lower json_loads round4 w db min_score cases).
Proof.
  induction cases as [| [[q expected] desc] rest IH]; cbn [run_tests].
  - constructor.
  - apply prints_only_bind; [apply run_test_no_suggestion | intros r].
    apply prints_only_bind; [exact IH | intros rs; constructor].
Qed.

End EvaluatorProperties.

(** ** The verdict on a test case *)

(** C1, as the code has it: when the embedding call returns a non-empty
    vector, the vector search returns, and the expected substring is found
    (case-insensitively) in a lexical result, the verdict is PASS, unless
    the substring is found in vector results of which none reaches the
    threshold: then the verdict is BELOW_THRESHOLD in spite of the lexical
    match.  A lexical match promotes an otherwise FAIL outcome, not a
    BELOW_THRESHOLD one. *)
Theorem lexical_match_verdict
        (lower : string -> string) (json_loads : string -> answer (list float))
        (round4 : float -> float)
        (w : world) (db : connection) (q expected desc : string) (min_score : float)
        (out : list line) (x : float) (xs : list float) (vr : list vec_result) :
  get_embedding w q = (out, Return (x :: xs)) ->
  search_vector json_loads round4 db (x :: xs) SCOPE_PREFIX MAX_RESULTS = Return vr ->
  fts_pass lower expected (search_fts db q SCOPE_PREFIX MAX_RESULTS) = true ->
  exists r,
    result_of (run_test lower json_loads round4 w db q expected desc min_score)
    = Return r /\
    status r = if negb (vec_pass lower expected min_score vr)
                  && vec_any lower expected vr
               then "BELOW_THRESHOLD" else "PASS".
Proof.
  intros He Hv Hf. eexists. split.
  - rewrite run_test_result, He. cbn [result_of snd]. rewrite Hv. reflexivity.
  - cbn [classified status]. rewrite Hf, orb_true_r. reflexivity.
Qed.

(** The two verdicts on the test case of the quote, whose words are a
    match expression that the full-text index takes (need OR quote OR
    paper) and whose expected answer is in the text of the hit: where the
    chunk scores 0.0 as a vector result, the verdict is BELOW_THRESHOLD;
    where the chunk has no embedding and is no vector result, it is PASS. *)
Lemma lexical_match_verdict_witness :
  (exists r,
     result_of (run_test ascii_lower json_loads_none py_round4 world_orthogonal
                         store_orthogonal "I need a quote on CW paper"
                         "quote" "Quote request" MIN_SCORE_DEFAULT)
     = Return r /\
     status r = "BELOW_THRESHOLD") /\
  (exists r,
     result_of (run_test ascii_lower json_loads_none py_round4 world_orthogonal
                         store_unembedded "I need a quote on CW paper"
                         "quote" "Quote request" MIN_SCORE_DEFAULT)
     = Return r /\
     status r = "PASS").
Proof.
  split.
  - exact (lexical_match_verdict ascii_lower json_loads_none py_round4
             world_orthogonal store_orthogonal "I need a quote on CW paper"
             "quote" "Quote request" MIN_SCORE_DEFAULT [] 1%float [0%float]
             [ {| score := 0%float;
                  path := "memory/customers/test-customer/training.md";
                  lines := (1, 4);
                  text := answers |} ]
             eq_refl eq_refl eq_refl).
  - exact (lexical_match_verdict ascii_lower json_loads_none py_round4
             world_orthogonal store_unembedded "I need a quote on CW paper"
             "quote" "Quote request" MIN_SCORE_DEFAULT [] 1%float [0%float] []
             eq_refl eq_refl eq_refl).
Defined.

(** C1, as the specification states it, fails.  For the test case of the
    quote the query vector [1, 0] is not empty, the match expression is
    need OR quote OR paper, and the one lexical result is the chunk of the
    trained answers, which holds the expected "quote"; yet the same chunk
    scores 0.0 as a vector result, against the threshold 0.35, and the
    verdict is BELOW_THRESHOLD. *)
Lemma lexical_match_not_pass :
  get_embedding world_orthogonal "I need a quote on CW paper"
  = ([], Return [1%float; 0%float]) /\
  search_fts store_orthogonal "I need a quote on CW paper" SCOPE_PREFIX MAX_RESULTS
  = [FtsHit answers "memory/customers/test-customer/training.md" (1, 4)
            (-1.5)%float] /\
  fts_pass ascii_lower "quote"
           (search_fts store_orthogonal "I need a quote on CW paper"
                       SCOPE_PREFIX MAX_RESULTS) = true /\
  exists r,
    result_of (run_test ascii_lower json_loads_none py_round4 world_orthogonal
                        store_orthogonal "I need a quote on CW paper"
                        "quote" "Quote request" MIN_SCORE_DEFAULT)
    = Return r /\
    status r = "BELOW_THRESHOLD" /\ status r <> "PASS".
Proof.
  split; [reflexivity |]. split; [vm_compute; reflexivity |].
  split; [vm_compute; reflexivity |].
  eexists. split; [vm_compute; reflexivity |].
  split; [reflexivity | discriminate].
Qed.

Lemma statuses_distinct : NoDup statuses.
Proof.
  unfold statuses. repeat constructor; cbn [In]; intuition discriminate.
Qed.

(** C4, as the code has it: [run_test] returns a result, and the test case
    has a status, exactly when the embedding call returns and, for a vector
    that is not empty, the vector search returns.  The status is then
    exactly one of the four, and it is skip exactly when the embedding is
    the empty vector, whatever the store holds (the searches are not even
    run).  When the embedding call raises or exits, or the vector search
    raises, the test case gets no status. *)
Theorem classification_total_exclusive
        (lower : string -> string) (json_loads : string -> answer (list float))
        (round4 : float -> float)
        (w : world) (db : connection) (q expected desc : string) (min_score : float) :
  ((exists r,
      result_of (run_test lower json_loads round4 w db q expected desc min_score)
      = Return r)
   <->
   (exists query_vec,
      result_of (get_embedding w q) = Return query_vec /\
      (query_vec <> [] ->
       exists vr, search_vector json_loads round4 db query_vec SCOPE_PREFIX MAX_RESULTS
                  = Return vr))) /\
  (forall r,
     result_of (run_test lower json_loads round4 w db q expected desc min_score)
     = Return r ->
     (exists! s, In s statuses /\ status r = s) /\
     (status r = "skip" <-> result_of (get_embedding w q) = Return [])).
Proof.
  rewrite run_test_result.
  destruct (result_of (get_embedding w q)) as [[| x xs] | e | c].
  - split.
    + split; [intros _; exists []; split; [reflexivity | intros H; now elim H] |].
      intros _. now exists (skipped q).
    + intros r [= <-]. split; [| split; reflexivity].
      exists "skip". split; [split; [now left | reflexivity] |].
      intros s [_ Hs]. exact Hs.
  - destruct (search_vector json_loads round4 db (x :: xs) SCOPE_PREFIX MAX_RESULTS)
      as [vr | e | c] eqn:Hv.
    + split.
      * split; [intros _; exists (x :: xs); split; [reflexivity |] |].
        -- intros _. now exists vr.
        -- intros _. eexists; reflexivity.
      * intros r [= <-].
        pose proof (classified_status lower db w q expected min_score vr) as Hc.
        split.
        -- exists (status (classified lower db w q expected min_score vr)).
           split; [split; [| reflexivity] | intros s [_ Hs]; exact Hs].
           right. exact Hc.
        -- split; [| discriminate].
           intros Hs. rewrite Hs in Hc. cbn [In] in Hc. intuition discriminate.
    + split; [| discriminate].
      split; [intros [r H]; discriminate |].
      intros [v [[= <-] H]]. destruct H as [vr H]; [discriminate |].
      rewrite Hv in H. discriminate.
    + split; [| discriminate].
      split; [intros [r H]; discriminate |].
      intros [v [[= <-] H]]. destruct H as [vr H]; [discriminate |].
      rewrite Hv in H. discriminate.
  - split; [| discriminate].
    split; [intros [r H]; discriminate | intros [v [H _]]; discriminate].
  - split; [| discriminate].
    split; [intros [r H]; discriminate | intros [v [H _]]; discriminate].
Qed.

Lemma classification_total_exclusive_witness :
  exists r,
    result_of (run_test ascii_lower json_loads_none py_round4 world_aligned
                        store_aligned "Can I get someone to hop on a call?"
                        "money" "Hop on a call" MIN_SCORE_DEFAULT)
    = Return r /\
    (exists! s, In s statuses /\ status r = s) /\
    (status r = "skip" <->
     result_of (get_embedding world_aligned "Can I get someone to hop on a call?")
     = Return []).
Proof.
  destruct (classification_total_exclusive ascii_lower json_loads_none py_round4
              world_aligned store_aligned "Can I get someone to hop on a call?"
              "money" "Hop on a call" MIN_SCORE_DEFAULT) as [Hreturns Hstatus].
  destruct (proj2 Hreturns) as [r Hr].
  - exists [1%float; 0%float]. split; [reflexivity |].
    intros _. eexists. vm_compute. reflexivity.
  - exists r. split; [exact Hr | exact (Hstatus r Hr)].
Defined.

(** C4, as the specification states it, fails: the classification is not
    total.  In a store with an embedding of three bytes the test case gets
    a query vector that is not empty, the vector search raises struct.error
    out of [run_test], and the test case has no status at all: no verdict
    is printed, no result is returned. *)
Lemma classification_not_total :
  get_embedding world_corrupt "Can I get someone to hop on a call?"
  = ([], Return [1%float; 0%float]) /\
  result_of (run_test ascii_lower json_loads_none py_round4 world_corrupt
                      store_corrupt "Can I get someone to hop on a call?" "money"
                      "Hop on a call → for money (trained pair #1)"
                      MIN_SCORE_DEFAULT)
  = Raise StructError /\
  existsb is_verdict
          (printed (run_test ascii_lower json_loads_none py_round4 world_corrupt
                             store_corrupt "Can I get someone to hop on a call?"
                             "money" "Hop on a call → for money (trained pair #1)"
                             MIN_SCORE_DEFAULT)) = false /\
  exit_status (result_of (main ascii_lower json_loads_none py_round4
                               float_of_str_half world_corrupt)) = 1.
Proof. repeat split; vm_compute; reflexivity. Qed.

(** ** Failures of the embedding call *)

(** X1: An endpoint that cannot be reached costs a warning and an empty vector,
    and the test case is skipped. *)
Lemma unreachable_is_skipped
      (lower : string -> string) (json_loads : string -> answer (list float))
      (round4 : float -> float)
      (w : world) (db : connection) (q expected desc : string) (min_score : float)
      (b : backend) (reason : string) :
  selected_backend (env w) = Some b ->
  urlopen w (backend_url b) (backend_key (env w) b) q = Unreachable reason ->
  get_embedding w q = ([LEmbeddingError reason], Return []) /\
  result_of (run_test lower json_loads round4 w db q expected desc min_score)
  = Return (skipped q).
Proof.
  intros Hb Hu.
  assert (get_embedding w q = ([LEmbeddingError reason], Return [])) as He.
  { unfold get_embedding. rewrite Hb. cbn. rewrite Hu. reflexivity. }
  split; [exact He |]. now rewrite run_test_result, He.
Qed.

(** Anything else that the request raises leaves [get_embedding], and with
    it [run_test]. *)
Lemma other_failures_propagate
      (lower : string -> string) (json_loads : string -> answer (list float))
      (round4 : float -> float)
      (w : world) (db : connection) (q expected desc : string) (min_score : float)
      (b : backend) :
  selected_backend (env w) = Some b ->
  forall e,
    urlopen w (backend_url b) (backend_key (env w) b) q = Malformed e \/
    (urlopen w (backend_url b) (backend_key (env w) b) q = ReadTimeout /\
     e = TimeoutError) ->
    get_embedding w q = ([], Raise e) /\
    result_of (run_test lower json_loads round4 w db q expected desc min_score)
    = Raise e.
Proof.
  intros Hb e Hu.
  assert (get_embedding w q = ([], Raise e)) as He.
  { unfold get_embedding. rewrite Hb. cbn.
    destruct Hu as [Hu | [Hu ->]]; rewrite Hu; reflexivity. }
  split; [exact He |]. now rewrite run_test_result, He.
Qed.

(** C2 at a response that is not JSON: [get_embedding] raises, no test case
    is recorded as skip, and the run ends with a traceback and status 1,
    before the summary. *)
Theorem malformed_response_ends_run :
  get_embedding world_malformed "hey can I get somebody on a call to talk about this deal?"
  = ([], Raise JSONDecodeError) /\
  result_of (main ascii_lower json_loads_none py_round4 float_of_str_half
                  world_malformed) = Raise JSONDecodeError /\
  existsb is_verdict
          (printed (main ascii_lower json_loads_none py_round4 float_of_str_half
                         world_malformed)) = false.
Proof. repeat split; vm_compute; reflexivity. Qed.

(** ** The choice of the backend *)

(** C6: the two credentials have a fixed precedence.  The key that
    [get_embedding] tests first, the one of OPENROUTER_KEY, is the primary
    one: with both keys set, the request goes to the endpoint of OpenRouter
    and carries the key of OpenRouter, and what [get_embedding] does is all
    in the reply to that request; the url and the key of OpenAI are not
    used. *)
Theorem both_keys_select_first_tested (w : world) (text : string) :
  str_truthy (OPENAI_API_KEY (env w)) = true ->
  str_truthy (OPENROUTER_API_KEY (env w)) = true ->
  selected_backend (env w) = Some OpenRouter /\
  get_embedding w text =
  match urlopen w "https://openrouter.ai/api/v1/embeddings"
                (OPENROUTER_API_KEY (env w)) text with
  | Embedding vec => ([], Return vec)
  | Unreachable reason => ([LEmbeddingError reason], Return [])
  | ReadTimeout => ([], Raise TimeoutError)
  | Malformed e => ([], Raise e)
  end.
Proof.
  intros _ Hr.
  assert (selected_backend (env w) = Some OpenRouter) as Hs
      by (unfold selected_backend; now rewrite Hr).
  split; [exact Hs |].
  unfold get_embedding. rewrite Hs, bind_ret. cbn [backend_url backend_key].
  destruct (urlopen w _ _ text); reflexivity.
Qed.

Lemma both_keys_select_first_tested_witness :
  selected_backend (env world_both_keys) = Some OpenRouter /\
  get_embedding world_both_keys "quote" = ([], Return [1%float; 0%float]).
Proof.
  exact (both_keys_select_first_tested world_both_keys "quote" eq_refl eq_refl).
Defined.

(** The other key is used only where the first is empty. *)
Lemma openai_selected_iff (e : environ) :
  selected_backend e = Some OpenAI <->
  str_truthy (OPENROUTER_API_KEY e) = false /\ str_truthy (OPENAI_API_KEY e) = true.
Proof.
  unfold selected_backend.
  destruct (str_truthy (OPENROUTER_API_KEY e)), (str_truthy (OPENAI_API_KEY e));
    split; try discriminate; try (intros [? ?]; discriminate); auto.
Qed.

(** ** A run without credentials *)

Lemma get_embedding_no_keys (w : world) (q : string) :
  OPENAI_API_KEY (env w) = EmptyString ->
  OPENROUTER_API_KEY (env w) = EmptyString ->
  get_embedding w q = ([LNoKey], Exit 1).
Proof.
  intros Ha Hr. unfold get_embedding, selected_backend. now rewrite Ha, Hr.
Qed.

Lemma run_tests_no_keys
      (lower : string -> string) (json_loads : string -> answer (list float))
      (round4 : float -> float)
      (w : world) (db : connection) (min_score : float)
      (q expected desc : string) (rest : list (string * string * string)) :
  OPENAI_API_KEY (env w) = EmptyString ->
  OPENROUTER_API_KEY (env w) = EmptyString ->
  run_tests lower json_loads round4 w db min_score ((q, expected, desc) :: rest)
  = ([LRule; LQuery q; LExpect expected; LDesc desc; LDash; LNoKey], Exit 1).
Proof.
  intros Ha Hr. cbn [run_tests]. unfold run_test.
  rewrite (get_embedding_no_keys w q Ha Hr). reflexivity.
Qed.

(** C3, as the code has it: without credentials the process ends with
    status 1 and no test case gets a verdict; when the threshold and the
    store are in order, it is the embedding call of the first test case
    that prints the configuration error and exits, after the header of the
    run, the statistics of the store and the header of that test case. *)
Theorem no_credentials_exit
        (lower : string -> string) (json_loads : string -> answer (list float))
        (round4 : float -> float) (float_of_str : string -> answer float)
        (w : world) :
  OPENAI_API_KEY (env w) = EmptyString ->
  OPENROUTER_API_KEY (env w) = EmptyString ->
  exit_status (result_of (main lower json_loads round4 float_of_str w)) = 1 /\
  existsb is_verdict (printed (main lower json_loads round4 float_of_str w)) = false /\
  forall min_score db chunk_count file_count,
    match argv w with
    | _ :: a :: _ => float_of_str a = Ok min_score
    | _ => min_score = MIN_SCORE_DEFAULT
    end ->
    path_exists w (DB_PATH (env w)) = true ->
    connect w (DB_PATH (env w)) = Ok db ->
    count_chunks db (SCOPE_PREFIX ++ "/%") = Ok chunk_count ->
    count_files db (SCOPE_PREFIX ++ "/%") = Ok file_count ->
    main lower json_loads round4 float_of_str w =
    ([LTitle; LDb (DB_PATH (env w)); LScope SCOPE_PREFIX; LMinScore min_score;
      LModel EMBEDDING_MODEL; LTests 10; LIndexed file_count chunk_count;
      LRule;
      LQuery "hey can I get somebody on a call to talk about this deal?";
      LExpect "CloudWarriors";
      LDesc "Presales call request → should ask if CW is partner";
      LDash; LNoKey],
     Exit 1).
Proof.
  intros Ha Hr.
  assert (forall ms,
           let m := main_with lower json_loads round4 w ms in
           exit_status (result_of m) = 1 /\ existsb is_verdict (printed m) = false /\
           forall db cc fc,
             path_exists w (DB_PATH (env w)) = true ->
             connect w (DB_PATH (env w)) = Ok db ->
             count_chunks db (SCOPE_PREFIX ++ "/%") = Ok cc ->
             count_files db (SCOPE_PREFIX ++ "/%") = Ok fc ->
             m = ([LTitle; LDb (DB_PATH (env w)); LScope SCOPE_PREFIX; LMinScore ms;
                   LModel EMBEDDING_MODEL; LTests 10; LIndexed fc cc;
                   LRule;
                   LQuery "hey can I get somebody on a call to talk about this deal?";
                   LExpect "CloudWarriors";
                   LDesc "Presales call request → should ask if CW is partner";
                   LDash; LNoKey],
                  Exit 1)) as Hbody.
  { intros ms m. subst m. unfold main_with.
    destruct (path_exists w (DB_PATH (env w))); cbn [negb].
    2:{ repeat split; try reflexivity. intros; discriminate. }
    destruct (connect w (DB_PATH (env w))) as [db | e].
    2:{ repeat split; try reflexivity. intros; discriminate. }
    cbn -[String.append SCOPE_PREFIX run_tests main_summary TEST_CASES DB_PATH].
    destruct (count_chunks db (SCOPE_PREFIX ++ "/%")) as [cc | e] eqn:Hcc.
    2:{ repeat split; try reflexivity.
        intros db' cc' fc' _ [= <-]. rewrite Hcc. discriminate. }
    cbn -[String.append SCOPE_PREFIX run_tests main_summary TEST_CASES DB_PATH].
    destruct (count_files db (SCOPE_PREFIX ++ "/%")) as [fc | e] eqn:Hfc.
    2:{ repeat split; try reflexivity.
        intros db' cc' fc' _ [= <-]. rewrite Hfc. discriminate. }
    unfold TEST_CASES.
    rewrite (run_tests_no_keys lower json_loads round4 w db ms _ _ _ _ Ha Hr).
    repeat split; try reflexivity.
    intros db' cc' fc' _ [= <-]. rewrite Hcc, Hfc. intros [= <-] [= <-].
    reflexivity. }
  unfold main.
  destruct (argv w) as [| a0 [| a1 args]]; rewrite ?bind_ret, ?bind_lift.
  - destruct (Hbody MIN_SCORE_DEFAULT) as [H1 [H2 H3]].
    repeat split; try assumption.
    intros ms db cc fc ->. now apply H3.
  - destruct (Hbody MIN_SCORE_DEFAULT) as [H1 [H2 H3]].
    repeat split; try assumption.
    intros ms db cc fc ->. now apply H3.
  - destruct (float_of_str a1) as [ms | e]; cbn [of_answer].
    + destruct (Hbody ms) as [H1 [H2 H3]].
      repeat split; try assumption.
      intros ms' db cc fc [= <-]. now apply H3.
    + repeat split; try reflexivity. intros; discriminate.
Qed.

Lemma no_credentials_exit_witness :
  exit_status (result_of (main ascii_lower json_loads_none py_round4
                               float_of_str_half world_no_keys)) = 1 /\
  existsb is_verdict (printed (main ascii_lower json_loads_none py_round4
                                    float_of_str_half world_no_keys)) = false.
Proof.
  pose proof (no_credentials_exit ascii_lower json_loads_none py_round4
                float_of_str_half world_no_keys eq_refl eq_refl) as [H1 [H2 _]].
  split; assumption.
Defined.

(** C3, as the specification states it, fails: the credentials are not
    checked before the work on the queries starts.  In a run without
    credentials the header of the first test case is printed, and only then
    the configuration error. *)
Lemma no_credentials_checked_in_first_test :
  OPENAI_API_KEY (env world_no_keys) = EmptyString /\
  OPENROUTER_API_KEY (env world_no_keys) = EmptyString /\
  printed (main ascii_lower json_loads_none py_round4 float_of_str_half world_no_keys)
  = ([LTitle; LDb "/root/.openclaw/memory/main.sqlite";
      LScope "memory/customers/test-customer"; LMinScore 0.35%float;
      LModel "text-embedding-3-small"; LTests 10; LIndexed 1 1]
     ++ [LRule;
         LQuery "hey can I get somebody on a call to talk about this deal?";
         LExpect "CloudWarriors";
         LDesc "Presales call request → should ask if CW is partner";
         LDash]
     ++ [LNoKey])%list.
Proof. repeat split. Qed.
(** ** The order of the floats *)

Lemma SFcompare_key (x y : spec_float) :
  match SFkey x, SFkey y with
  | Some k, Some k' =>
      match SFcompare x y with
      | Some Lt => key_lt k k'
      | Some Eq => key_le k k' /\ key_le k' k
      | Some Gt => key_lt k' k
      | None => False
      end
  | _, _ => SFcompare x y = None
  end.
Proof.
  destruct x as [sx | sx | | sx mx ex], y as [sy | sy | | sy my ey];
    cbn [SFkey SFcompare]; try reflexivity;
    try (destruct sx; cbn [key_lt key_le]; lia);
    try (destruct sy; cbn [key_lt key_le]; lia);
    try (destruct sx, sy; cbn [key_lt key_le]; lia);
    try (destruct sx; reflexivity).
  change (Pos.compare_cont Eq mx my) with (Pos.compare mx my).
  destruct sx, sy; cbn [key_lt key_le]; try lia.
  - destruct (Z.compare_spec ex ey); cbn [key_lt key_le]; try lia.
    destruct (Pos.compare_spec mx my); cbn [CompOpp key_lt key_le]; lia.
  - destruct (Z.compare_spec ex ey); cbn [key_lt key_le]; try lia.
    destruct (Pos.compare_spec mx my); cbn [key_lt key_le]; lia.
Qed.

Lemma leb_key (x y : float) :
  (x <=? y)%float = true <->
  exists k k', SFkey (Prim2SF x) = Some k /\ SFkey (Prim2SF y) = Some k' /\
               key_le k k'.
Proof.
  rewrite leb_spec. unfold SFleb.
  pose proof (SFcompare_key (Prim2SF x) (Prim2SF y)) as H.
  destruct (SFkey (Prim2SF x)) as [[[a b] c] |], (SFkey (Prim2SF y)) as [[[a' b'] c'] |];
    try (rewrite H; split; [discriminate | intros [k [k' [? [? ?]]]]; discriminate]).
  destruct (SFcompare (Prim2SF x) (Prim2SF y)) as [[| |] |]; cbn [key_lt key_le] in H.
  - split; [intros _ | reflexivity]. do 2 eexists. split; [reflexivity |].
    split; [reflexivity | apply H].
  - split; [intros _ | reflexivity]. do 2 eexists. split; [reflexivity |].
    split; [reflexivity |]. cbn [key_le]. lia.
  - split; [discriminate |]. intros [k [k' [[= <-] [[= <-] Hk]]]].
    cbn [key_le] in Hk. lia.
  - contradiction.
Qed.

Lemma ltb_key (x y : float) :
  (x <? y)%float = true <->
  exists k k', SFkey (Prim2SF x) = Some k /\ SFkey (Prim2SF y) = Some k' /\
               key_lt k k'.
Proof.
  rewrite ltb_spec. unfold SFltb.
  pose proof (SFcompare_key (Prim2SF x) (Prim2SF y)) as H.
  destruct (SFkey (Prim2SF x)) as [[[a b] c] |], (SFkey (Prim2SF y)) as [[[a' b'] c'] |];
    try (rewrite H; split; [discriminate | intros [k [k' [? [? ?]]]]; discriminate]).
  destruct (SFcompare (Prim2SF x) (Prim2SF y)) as [[| |] |]; cbn [key_lt key_le] in H.
  - split; [discriminate |]. intros [k [k' [[= <-] [[= <-] Hk]]]].
    cbn [key_lt] in Hk. lia.
  - split; [intros _ | reflexivity]. do 2 eexists. split; [reflexivity |].
    split; [reflexivity | exact H].
  - split; [discriminate |]. intros [k [k' [[= <-] [[= <-] Hk]]]].
    cbn [key_lt] in Hk. lia.
  - contradiction.
Qed.

(** A float that is no nan has a place in the order. *)
Lemma not_nan_key (x : float) :
  PrimFloat.is_nan x = false <-> exists k, SFkey (Prim2SF x) = Some k.
Proof.
  unfold PrimFloat.is_nan. rewrite negb_false_iff, eqb_spec. unfold SFeqb.
  pose proof (SFcompare_key (Prim2SF x) (Prim2SF x)) as H.
  destruct (SFkey (Prim2SF x)) as [[[a b] c] |].
  - split; [intros _; eexists; reflexivity | intros _].
    destruct (SFcompare (Prim2SF x) (Prim2SF x)) as [[| |] |];
      cbn [key_lt key_le] in H; try reflexivity; try lia.
  - rewrite H. split; [discriminate | intros [k Hk]; discriminate].
Qed.

Lemma float_leb_trans (x y z : float) :
  (x <=? y)%float = true -> (y <=? z)%float = true -> (x <=? z)%float = true.
Proof.
  rewrite !leb_key.
  intros [[[a b] c] [[[a' b'] c'] [Hx [Hy H]]]] [k [[[a2 b2] c2] [Hy' [Hz H']]]].
  rewrite Hy in Hy'. injection Hy' as <-.
  do 2 eexists. split; [exact Hx |]. split; [exact Hz |].
  cbn [key_le] in *. lia.
Qed.

Lemma float_ltb_leb (x y : float) :
  (x <? y)%float = true -> (x <=? y)%float = true.
Proof.
  rewrite ltb_key, leb_key.
  intros [[[a b] c] [[[a' b'] c'] [Hx [Hy H]]]].
  do 2 eexists. split; [exact Hx |]. split; [exact Hy |].
  cbn [key_le key_lt] in *. lia.
Qed.

Lemma float_not_ltb_leb (x y : float) :
  PrimFloat.is_nan x = false -> PrimFloat.is_nan y = false ->
  (x <? y)%float = false -> (y <=? x)%float = true.
Proof.
  rewrite !not_nan_key. intros [[[a b] c] Hx] [[[a' b'] c'] Hy] Hlt.
  apply leb_key. do 2 eexists. split; [exact Hy |]. split; [exact Hx |].
  destruct (Z_lt_le_dec a a') as [Ha | Ha]; [| destruct (Z.eq_dec a a') as [Ea | Ea]];
    try (cbn [key_le]; lia);
    try (assert ((x <? y)%float = true) as Habs
           by (apply ltb_key; do 2 eexists; split; [exact Hx |]; split; [exact Hy |];
               cbn [key_lt]; lia);
         rewrite Habs in Hlt; discriminate).
  destruct (Z_lt_le_dec b b') as [Hb | Hb]; [| destruct (Z.eq_dec b b') as [Eb | Eb]];
    try (cbn [key_le]; lia);
    try (assert ((x <? y)%float = true) as Habs
           by (apply ltb_key; do 2 eexists; split; [exact Hx |]; split; [exact Hy |];
               cbn [key_lt]; lia);
         rewrite Habs in Hlt; discriminate).
  destruct (Z_lt_le_dec c c') as [Hc | Hc];
    try (cbn [key_le]; lia).
  assert ((x <? y)%float = true) as Habs
      by (apply ltb_key; do 2 eexists; split; [exact Hx |]; split; [exact Hy |];
          cbn [key_lt]; lia).
  rewrite Habs in Hlt; discriminate.
Qed.

Lemma float_leb_not_nan (x y : float) :
  (x <=? y)%float = true ->
  PrimFloat.is_nan x = false /\ PrimFloat.is_nan y = false.
Proof.
  rewrite leb_key, !not_nan_key. intros [k [k' [Hx [Hy _]]]].
  split; eexists; eassumption.
Qed.

Lemma float_leb_refl (x : float) :
  PrimFloat.is_nan x = false -> (x <=? x)%float = true.
Proof.
  rewrite not_nan_key, leb_key. intros [[[a b] c] Hx].
  do 2 eexists. split; [exact Hx |]. split; [exact Hx |]. cbn [key_le]. lia.
Qed.




(** ** The builtins [min] and [max] *)




(** ** The summary *)

Lemma in_insert_asc (x y : result) (l : list result) :
  In y (insert_asc x l) -> y = x \/ In y l.
Proof.
  induction l as [| z t IH]; cbn [insert_asc In].
  - intros [H | []]. now left.
  - destruct (get_top_score z <? get_top_score x)%float; cbn [In].
    + intros [H | H]; [right; now left |].
      destruct (IH H) as [H' | H']; [now left | right; now right].
    + intros [H | H]; [now left | right; exact H].
Qed.

Lemma in_sorted_by_top_score (y : result) (l : list result) :
  In y (sorted_by_top_score l) -> In y l.
Proof.
  induction l as [| x t IH]; cbn [sorted_by_top_score fold_right In]; [easy |].
  intros H. destruct (in_insert_asc _ _ _ H) as [-> | H']; [now left |].
  right. now apply IH.
Qed.

Lemma flag_of_status (s : string) :
  In s statuses -> exists f, flag_of s = Return f.
Proof.
  unfold statuses. cbn [In].
  intros [<- | [<- | [<- | [<- | []]]]]; eexists; reflexivity.
Qed.

Lemma well_formed_status (r : result) : well_formed r -> In (status r) statuses.
Proof.
  unfold statuses. intros [[-> _] | [H _]]; [now left | right; exact H].
Qed.

(** [int(x)] returns on every finite float. *)
Lemma py_int_finite (x : float) :
  is_finite x = true -> exists k, py_int x = Return k.
Proof.
  unfold is_finite, py_int, Prim2SF. intros H.
  destruct (is_nan x); [discriminate |].
  destruct (is_zero x); [eexists; reflexivity |].
  destruct (is_infinity x); [discriminate |].
  destruct (Z.frexp x) as [r e].
  destruct (shr_fexp _ _ _ _ _) as [s e'].
  destruct (shr_m s); eexists; reflexivity.
Qed.

(** The top scores that the recommendation reads are there. *)
Lemma below_scores_read (rs : list result) :
  Forall well_formed rs ->
  omap item_top_score
       (filter (fun r => String.eqb (status r) "BELOW_THRESHOLD") rs)
  = Return (below_scores rs).
Proof.
  unfold below_scores.
  induction 1 as [| r rs Hr _ IH]; cbn [filter]; [reflexivity |].
  destruct (String.eqb (status r) "BELOW_THRESHOLD") eqn:Hs; [| exact IH].
  cbn [omap map]. rewrite IH.
  unfold item_top_score, get_top_score.
  destruct Hr as [[Hk _] | [_ Ht]].
  - rewrite Hk in Hs. discriminate.
  - destruct (top_score r); [reflexivity | contradiction].
Qed.

Lemma below_scores_length (rs : list result) :
  List.length (below_scores rs) = count_status "BELOW_THRESHOLD" rs.
Proof. unfold below_scores, count_status. apply length_map. Qed.

(** The recommendation block of the summary. *)
Lemma recommendation_printed (rs : list result) :
  Forall well_formed rs ->
  let block :=
    (if (0 <? count_status "BELOW_THRESHOLD" rs)%nat then
       print LRecommend ;;
       scores <- lift (omap item_top_score
                         (filter (fun r => String.eqb (status r) "BELOW_THRESHOLD")
                                 rs)) ;;
       match scores with
       | x :: xs =>
           print (LLowest (Py.min x xs)) ;;
           print (LSuggested (Py.max 0.15%float (Py.min x xs - 0.05)%float))
       | [] => ret tt
       end
     else ret tt) in
  result_of block = Return tt /\
  forall t,
    In (LSuggested t) (printed block) <->
    (0 < count_status "BELOW_THRESHOLD" rs)%nat /\
    exists x xs, below_scores rs = x :: xs /\
                 t = Py.max 0.15%float (Py.min x xs - 0.05)%float.
Proof.
  intros Hwf block. subst block.
  rewrite (below_scores_read rs Hwf).
  pose proof (below_scores_length rs) as Hlen.
  destruct (0 <? count_status "BELOW_THRESHOLD" rs)%nat eqn:Hb.
  - apply Nat.ltb_lt in Hb.
    destruct (below_scores rs) as [| x xs] eqn:Hs.
    { cbn [List.length] in Hlen. lia. }
    split; [reflexivity |].
    intros t. cbn. split.
    + intros [H | [H | [H | []]]]; try discriminate.
      injection H as <-. split; [exact Hb |]. now exists x, xs.
    + intros [_ [x' [xs' [[= <- <-] ->]]]]. right. right. now left.
  - apply Nat.ltb_ge in Hb. split; [reflexivity |].
    intros t. cbn. split; [easy |]. intros [H _]. lia.
Qed.

Lemma chart_no_suggestion (rs : list result) :
  prints_only (fun l => is_suggestion l = false)
    (for_each (fun r =>
                 flag <- lift (flag_of (status r)) ;;
                 let score := get_top_score r in
                 bar <- (if Py.truthy score
                         then k <- lift (py_int (score * 40)%float) ;; ret (Z.to_nat k)
                         else ret 0%nat) ;;
                 print (LDist flag score bar (str_take 50 (query r))))
              (sorted_by_top_score rs)).
Proof.
  apply prints_only_for_each. intros r.
  apply prints_only_bind; [apply prints_only_silent | intros flag].
  apply prints_only_bind.
  - destruct (Py.truthy _); [| constructor].
    apply prints_only_bind; [apply prints_only_silent | intros k; constructor].
  - intros bar. now apply prints_only_print.
Qed.

(** Where the summary suggests a threshold, and which. *)
Lemma main_summary_suggestion (rs : list result) (min_score t : float) :
  Forall well_formed rs ->
  In (LSuggested t) (printed (main_summary rs min_score)) <->
  (0 < count_status "BELOW_THRESHOLD" rs)%nat /\
  exists x xs, below_scores rs = x :: xs /\
               t = Py.max 0.15%float (Py.min x xs - 0.05)%float.
Proof.
  intros Hwf. destruct (recommendation_printed rs Hwf) as [Hres Hin].
  unfold main_summary.
  rewrite !in_printed_print.
  rewrite (in_printed_seq _ _ _ tt)
    by (destruct (0 <? count_status "skip" rs)%nat; reflexivity).
  rewrite (in_printed_seq _ _ _ tt) by exact Hres.
  rewrite in_printed_print, printed_bind_silent by reflexivity.
  rewrite Hin.
  pose proof (chart_no_suggestion rs) as Hc.
  unfold prints_only in Hc. rewrite Forall_forall in Hc.
  split; [| tauto].
  intros H.
  repeat match type of H with
         | _ \/ _ => destruct H as [H | H]
         | _ = LSuggested _ => discriminate
         end.
  - destruct (0 <? count_status "skip" rs)%nat;
      cbn in H; intuition discriminate.
  - exact H.
  - apply Hc in H. discriminate.
Qed.

(** A run that reaches the summary: what it has printed before is no
    suggestion, and it ends as the summary ends. *)
Lemma main_at_summary
      (lower : string -> string) (json_loads : string -> answer (list float))
      (round4 : float -> float) (float_of_str : string -> answer float)
      (w : world) (min_score : float) (rs : list result) :
  reaches_summary lower json_loads round4 float_of_str w min_score rs ->
  Forall well_formed rs /\
  exists out,
    Forall (fun l => is_suggestion l = false) out /\
    main lower json_loads round4 float_of_str w =
    ((out ++ printed (main_summary rs min_score))%list,
     result_of (main_summary rs min_score)).
Proof.
  intros [Harg [Hpath [db [cc [fc [Hdb [Hcc [Hfc Hrun]]]]]]]].
  split; [eapply run_tests_well_formed, Hrun |].
  assert (main lower json_loads round4 float_of_str w
          = main_with lower json_loads round4 w min_score) as ->.
  { unfold main. destruct (argv w) as [| a0 [| a1 args]].
    - rewrite Harg. apply bind_ret.
    - rewrite Harg. apply bind_ret.
    - rewrite Harg. apply bind_ret. }
  unfold main_with. rewrite Hpath, Hdb. cbn [negb of_answer].
  rewrite !bind_print. cbn [printed result_of fst snd].
  rewrite bind_ret, bind_lift. cbn beta iota. rewrite Hcc. cbn [of_answer].
  rewrite bind_lift. cbn beta iota. rewrite Hfc. cbn [of_answer].
  rewrite bind_lift. cbn beta iota.
  rewrite bind_print. cbn [printed result_of fst snd].
  pose proof (run_tests_no_suggestion lower json_loads round4 w db min_score
                TEST_CASES) as Hns.
  destruct (run_tests lower json_loads round4 w db min_score TEST_CASES)
    as [out o].
  cbn [result_of snd] in Hrun. subst o.
  rewrite bind_returned. cbn [printed result_of fst snd].
  eexists (_ :: _ :: _ :: _ :: _ :: _ :: _ :: out). split; [| reflexivity].
  repeat (constructor; [reflexivity |]). exact Hns.
Qed.





(** X23: In a run that reaches the summary with top scores that the chart can
    draw, the exit status is 1 with a FAIL among the verdicts and 0
    without. *)
Lemma main_exit_code
      (lower : string -> string) (json_loads : string -> answer (list float))
      (round4 : float -> float) (float_of_str : string -> answer float)
      (w : world) (min_score : float) (rs : list result) :
  reaches_summary lower json_loads round4 float_of_str w min_score rs ->
  Forall (fun r => is_finite (get_top_score r * 40)%float = true) rs ->
  result_of (main lower json_loads round4 float_of_str w)
  = Exit (if (0 <? count_status "FAIL" rs)%nat then 1 else 0).
Proof.
  intros H Hfin. destruct (main_at_summary _ _ _ _ _ _ _ H) as [Hwf [out [_ ->]]].
  cbn [result_of snd]. unfold main_summary. step_result.
  replace (result_of (if (0 <? count_status "skip" rs)%nat then _ else _))
    with (@Return unit tt)
    by (destruct (0 <? count_status "skip" rs)%nat; reflexivity).
  step_result.
  rewrite (proj1 (recommendation_printed rs Hwf)). step_result.
  rewrite for_each_returns; [now step_result |].
  intros r Hr. apply in_sorted_by_top_score in Hr.
  rewrite Forall_forall in Hwf, Hfin.
  destruct (flag_of_status _ (well_formed_status _ (Hwf r Hr))) as [f Hf].
  step_result. rewrite Hf. step_result.
  destruct (Py.truthy (get_top_score r)); step_result; [| reflexivity].
  destruct (py_int_finite _ (Hfin r Hr)) as [k Hk]. rewrite Hk. now step_result.
Qed.

(** C5 at a store with a nan in an embedding: every test case is
    classified, none FAIL, and the chart of the summary raises on the nan
    top score, so the process ends with status 1. *)
Theorem nan_top_score_exit_code :
  exists rs,
    reaches_summary ascii_lower json_loads_none py_round4 float_of_str_half
                    world_nan MIN_SCORE_DEFAULT rs /\
    count_status "FAIL" rs = 0%nat /\
    result_of (main ascii_lower json_loads_none py_round4 float_of_str_half world_nan)
    = Raise ValueError /\
    exit_status (result_of (main ascii_lower json_loads_none py_round4
                                 float_of_str_half world_nan)) = 1.
Proof.
  eexists. split.
  - split; [reflexivity |]. split; [reflexivity |].
    exists store_nan, 1, 1.
    split; [reflexivity |]. split; [reflexivity |]. split; [reflexivity |].
    vm_compute. reflexivity.
  - repeat split; vm_compute; reflexivity.
Qed.

(** ** The packed float32 codec *)

Lemma round_even_nonneg (m k : Z) : 0 <= m -> 0 <= Struct.round_even m k.
Proof.
  intros Hm. unfold Struct.round_even.
  pose proof (proj2 (Z.shiftr_nonneg m k) Hm).
  destruct (_ || _); lia.
Qed.

Lemma magnitude32_nonneg (m : positive) (e : Z) : 0 <= Struct.magnitude32 m e.
Proof.
  unfold Struct.magnitude32.
  set (e' := Z.max _ _). assert (-149 <= e') by (subst e'; lia).
  assert (0 <= if e' <=? e then Z.shiftl (Z.pos m) (e - e')
               else Struct.round_even (Z.pos m) (e' - e)).
  { destruct (e' <=? e).
    - apply Z.shiftl_nonneg. lia.
    - apply round_even_nonneg. lia. }
  nia.
Qed.

(** A packed float is a 32-bit pattern. *)
Lemma pack_f_range (x : float) (w : Z) :
  Struct.pack_f x = Return w -> 0 <= w < 2 ^ 32.
Proof.
  unfold Struct.pack_f.
  destruct (Prim2SF x) as [s | s | | s m e].
  - intros [= <-]. destruct s; cbv; split; congruence.
  - intros [= <-]. destruct s; cbv; split; congruence.
  - intros [= <-]. cbv; split; congruence.
  - pose proof (magnitude32_nonneg m e) as Hm.
    destruct (Struct.inf32 <=? Struct.magnitude32 m e) eqn:Hb; [discriminate |].
    apply Z.leb_gt in Hb. intros [= <-].
    unfold Struct.inf32 in Hb. unfold Struct.sign32. destruct s; lia.
Qed.

Lemma omap_pack_f_range (vec : list float) (ws : list Z) :
  omap Struct.pack_f vec = Return ws ->
  List.length ws = List.length vec /\ Forall (fun w => 0 <= w < 2 ^ 32) ws.
Proof.
  revert ws. induction vec as [| x t IH]; intros ws; cbn [omap].
  - intros [= <-]. split; [reflexivity | constructor].
  - destruct (Struct.pack_f x) as [w | e | c] eqn:Hx; cbn [obind]; try discriminate.
    destruct (omap Struct.pack_f t) as [ws' | e | c]; cbn [obind]; try discriminate.
    intros [= <-]. destruct (IH ws' eq_refl) as [Hl Hr].
    split; [cbn [List.length]; now rewrite Hl |].
    constructor; [eapply pack_f_range, Hx | exact Hr].
Qed.

Lemma length_flat_map_le_split (ws : list Z) :
  List.length (flat_map (le_split 4) ws) = (4 * List.length ws)%nat.
Proof.
  induction ws as [| w t IH]; [reflexivity |].
  cbn [flat_map]. rewrite length_app, length_le_split, IH. cbn [List.length]. lia.
Qed.

Lemma words_flat_map_le_split (ws : list Z) :
  Forall (fun w => 0 <= w < 2 ^ 32) ws ->
  Struct.words (List.length ws) (flat_map (le_split 4) ws) = ws.
Proof.
  induction 1 as [| w t Hw _ IH]; [reflexivity |].
  cbn [flat_map List.length Struct.words].
  rewrite firstn_app, skipn_app, length_le_split.
  replace (4 - 4)%nat with 0%nat by reflexivity.
  rewrite firstn_O, skipn_O, app_nil_r.
  rewrite firstn_all2, skipn_all2 by (rewrite length_le_split; lia).
  cbn [app]. rewrite le_combine_split, IH. f_equal.
  apply Z.mod_small. exact Hw.
Qed.

(** C8, as the specification states it, fails: a float beyond the range of
    binary32 is not serialized at all. *)
Lemma blob_overflow :
  vec_to_blob [1e39%float] = Raise OverflowError.
Proof. vm_compute. reflexivity. Qed.

(** What the codec makes of some floats: exact values, a value that is
    rounded, the largest binary32 number and the tie above it, the smallest
    subnormal and the tie below it. *)
Lemma to_float32_samples :
  map to_float32
      [1%float; 0.1%float; (-2.5)%float; 3.4028234663852886e38%float;
       3.4028235677973366e38%float; 1e-45%float; 7.006492321624085e-46%float;
       infinity; 0%float]
  = [Some 1%float; Some 0.10000000149011612%float; Some (-2.5)%float;
     Some 3.4028234663852886e38%float; None; Some 1.401298464324817e-45%float;
     Some 0%float; Some infinity; Some 0%float].
Proof. vm_compute. reflexivity. Qed.


(** ** Cosine similarity *)

(** A float that compares equal to 0 is one of the two zeros. *)
Lemma is_zero_cases (x : float) :
  PrimFloat.is_zero x = true -> x = 0%float \/ x = (-0)%float.
Proof.
  unfold PrimFloat.is_zero. rewrite eqb_spec.
  change (Prim2SF zero) with (S754_zero false).
  intros H. rewrite <- (SF2Prim_Prim2SF x).
  destruct (Prim2SF x) as [[|] | [|] | | [|] m e]; try discriminate H.
  - right. reflexivity.
  - left. reflexivity.
Qed.

Lemma sum_from_zero_of_zeros (xs : list float) :
  Forall (fun x => x = 0%float) xs -> fold_left PrimFloat.add xs 0%float = 0%float.
Proof.
  induction 1 as [| x t -> _ IH]; [reflexivity | exact IH].
Qed.

(** The sum of the squares of zeros of either sign is the positive zero. *)
Lemma sum_squares_zero (a : list float) :
  Forall (fun x => PrimFloat.is_zero x = true) a ->
  Py.sum (map (fun x => (x * x)%float) a) = 0%float.
Proof.
  intros H. apply sum_from_zero_of_zeros.
  induction H as [| x t Hx _ IH]; [constructor |].
  cbn [map]. constructor; [| exact IH].
  destruct (is_zero_cases x Hx) as [-> | ->]; reflexivity.
Qed.

(** The guard of [cosine_similarity]. *)
Lemma cosine_zero_norm (a b : list float) :
  PrimFloat.is_zero (Py.pow_half (Py.sum (map (fun x => (x * x)%float) a))) = true \/
  PrimFloat.is_zero (Py.pow_half (Py.sum (map (fun x => (x * x)%float) b))) = true ->
  cosine_similarity a b = Return 0%float.
Proof.
  unfold cosine_similarity, PrimFloat.is_zero.
  intros [H | H]; change zero with 0%float in H; rewrite H;
    [reflexivity | now rewrite orb_true_r].
Qed.

(** C9: with nothing but zeros on either side the similarity is 0.0, and
    the division is not reached. *)
Theorem cosine_zero_vector (a b : list float) :
  Forall (fun x => PrimFloat.is_zero x = true) a \/
  Forall (fun x => PrimFloat.is_zero x = true) b ->
  cosine_similarity a b = Return 0%float.
Proof.
  intros H. apply cosine_zero_norm.
  destruct H as [H | H]; [left | right]; now rewrite (sum_squares_zero _ H).
Qed.

Lemma cosine_zero_vector_witness :
  cosine_similarity [0.6%float; 0.8%float] [0%float; (-0)%float] = Return 0%float.
Proof.
  apply (cosine_zero_vector [0.6%float; 0.8%float] [0%float; (-0)%float]).
  right. repeat constructor.
Defined.

(** ** The product of two norms *)

(** The number of binary digits of a significand. *)
Lemma Zdigits2_log2 (p : positive) : Zdigits2 (Zpos p) = Z.log2 (Zpos p) + 1.
Proof.
  assert (forall q, digits2_pos q = Pos.size q) as Hsize
      by (induction q; cbn; congruence).
  destruct p; cbn [Zdigits2 digits2_pos Z.log2]; rewrite ?Hsize; lia.
Qed.

Lemma Zdigits2_bounds (m : Z) :
  0 < m -> 2 ^ (Zdigits2 m - 1) <= m < 2 ^ Zdigits2 m.
Proof.
  intros Hm. destruct m as [| p | p]; try lia.
  rewrite Zdigits2_log2.
  replace (Z.log2 (Z.pos p) + 1 - 1) with (Z.log2 (Z.pos p)) by lia.
  apply Z.log2_spec. lia.
Qed.

Lemma Zdigits2_ge (m k : Z) : 0 < m -> 2 ^ (k - 1) <= m -> k <= Zdigits2 m.
Proof.
  intros Hm Hk. destruct (Z.le_gt_cases k (Zdigits2 m)) as [H | H]; [exact H |].
  pose proof (Zdigits2_bounds m Hm) as [_ Hu].
  assert (2 ^ Zdigits2 m <= 2 ^ (k - 1)) by (apply Z.pow_le_mono_r; lia).
  lia.
Qed.

Lemma Zdigits2_pos (m : Z) : 0 < m -> 0 < Zdigits2 m.
Proof. destruct m; cbn; lia. Qed.

(** Shifting a significand to the right. *)
Lemma shr_1_m (mrs : shr_record) :
  0 <= shr_m mrs -> shr_m (shr_1 mrs) = shr_m mrs / 2.
Proof.
  destruct mrs as [m r s]. cbn [shr_m shr_1]. intros Hm.
  destruct m as [| [p | p |] | p]; cbn [shr_m]; try lia;
    rewrite <- Z.div2_div; reflexivity.
Qed.

Lemma pow2_xI (p : positive) : 2 ^ Z.pos p~1 = 2 * (2 ^ Z.pos p * 2 ^ Z.pos p).
Proof.
  replace (Z.pos p~1) with (Z.pos p + Z.pos p + 1) by lia.
  rewrite !Z.pow_add_r by lia. change (2 ^ 1) with 2. ring.
Qed.

Lemma pow2_xO (p : positive) : 2 ^ Z.pos p~0 = 2 ^ Z.pos p * 2 ^ Z.pos p.
Proof.
  replace (Z.pos p~0) with (Z.pos p + Z.pos p) by lia.
  now rewrite Z.pow_add_r by lia.
Qed.

Lemma iter_shr_1_m (p : positive) (mrs : shr_record) :
  0 <= shr_m mrs ->
  shr_m (iter_pos shr_1 p mrs) = shr_m mrs / 2 ^ Zpos p.
Proof.
  revert mrs. induction p as [p IH | p IH |]; intros mrs Hm; cbn [iter_pos].
  - assert (0 <= shr_m (shr_1 mrs)) as H1
        by (rewrite shr_1_m by exact Hm; apply Z.div_pos; lia).
    assert (0 <= shr_m (iter_pos shr_1 p (shr_1 mrs))) as H2
        by (rewrite IH by exact H1; apply Z.div_pos; lia).
    rewrite IH, IH, shr_1_m by assumption.
    rewrite !Z.div_div by lia. now rewrite pow2_xI.
  - assert (0 <= shr_m (iter_pos shr_1 p mrs)) as H2
        by (rewrite IH by exact Hm; apply Z.div_pos; lia).
    rewrite IH, IH by assumption.
    rewrite Z.div_div by lia. now rewrite pow2_xO.
  - rewrite shr_1_m by exact Hm. reflexivity.
Qed.

Lemma fexp_binary64 (x : Z) : fexp prec emax x = Z.max (x - 53) (-1074).
Proof. reflexivity. Qed.

Lemma shr_record_of_loc_m (m : Z) (l : location) :
  shr_m (shr_record_of_loc m l) = m.
Proof. destruct l as [| []]; reflexivity. Qed.

(** Bringing a significand to its place in the format keeps a number that
    is no smaller than the smallest subnormal away from zero. *)
Lemma shr_fexp_large (m e : Z) (l : location) :
  0 < m -> -1073 <= Zdigits2 m + e ->
  0 < shr_m (fst (shr_fexp prec emax m e l)) /\
  Zdigits2 m + e
  <= Zdigits2 (shr_m (fst (shr_fexp prec emax m e l))) + snd (shr_fexp prec emax m e l).
Proof.
  intros Hm Hd. unfold shr_fexp, shr. rewrite fexp_binary64.
  pose proof (Zdigits2_bounds m Hm) as [Hlo _].
  pose proof (Zdigits2_pos m Hm) as Hpos.
  destruct (Z.max (Zdigits2 m + e - 53) (-1074) - e) as [| p | p] eqn:Hn;
    cbn [fst snd]; rewrite ?shr_record_of_loc_m; try (split; [exact Hm | lia]).
  rewrite iter_shr_1_m by (rewrite shr_record_of_loc_m; lia).
  rewrite shr_record_of_loc_m.
  assert (Z.pos p <= Zdigits2 m - 1) as Hp by lia.
  assert (2 ^ (Zdigits2 m - Z.pos p - 1) <= m / 2 ^ Z.pos p) as Hq.
  { apply Z.div_le_lower_bound; [lia |].
    rewrite <- Z.pow_add_r by lia.
    replace (Z.pos p + (Zdigits2 m - Z.pos p - 1)) with (Zdigits2 m - 1) by lia.
    exact Hlo. }
  assert (0 < 2 ^ (Zdigits2 m - Z.pos p - 1)) by (apply Z.pow_pos_nonneg; lia).
  split; [lia |].
  assert (Zdigits2 m - Z.pos p <= Zdigits2 (m / 2 ^ Z.pos p))
    by (apply Zdigits2_ge; [lia | exact Hq]).
  lia.
Qed.

Lemma Zdigits2_mono (m n : Z) : 0 < m -> m <= n -> Zdigits2 m <= Zdigits2 n.
Proof.
  intros Hm Hn. apply Zdigits2_ge; [lia |].
  pose proof (Zdigits2_bounds m Hm). lia.
Qed.

Lemma round_nearest_even_ge (m : Z) (l : location) :
  m <= round_nearest_even m l <= m + 1.
Proof.
  unfold round_nearest_even. destruct l as [| []]; try lia.
  destruct (Z.even m); lia.
Qed.

Lemma SFlarge_weaken (k k' : Z) (x : spec_float) :
  k' <= k -> SFlarge k x -> SFlarge k' x.
Proof. destruct x; cbn; lia. Qed.

(** Rounding does not take such a number to zero, nor below its binade. *)
Lemma binary_round_aux_large (s : bool) (m e : Z) (l : location) :
  0 < m -> -1073 <= Zdigits2 m + e ->
  SFlarge (Zdigits2 m + e) (binary_round_aux prec emax s m e l).
Proof.
  intros Hm Hd. unfold binary_round_aux.
  pose proof (shr_fexp_large m e l Hm Hd) as [H1 H2].
  destruct (shr_fexp prec emax m e l) as [mrs' e'] eqn:E1. cbn [fst snd] in H1, H2.
  pose proof (round_nearest_even_ge (shr_m mrs') (loc_of_shr_record mrs')) as Hr.
  set (m2 := round_nearest_even (shr_m mrs') (loc_of_shr_record mrs')) in *.
  assert (0 < m2) as Hm2 by lia.
  assert (Zdigits2 (shr_m mrs') <= Zdigits2 m2) as Hmono
      by (apply Zdigits2_mono; lia).
  pose proof (shr_fexp_large m2 e' loc_Exact Hm2 ltac:(lia)) as [H3 H4].
  destruct (shr_fexp prec emax m2 e' loc_Exact) as [mrs'' e''] eqn:E2.
  cbn [fst snd] in H3, H4.
  destruct (shr_m mrs'') as [| p | p]; try lia.
  destruct (e'' <=? emax - prec); cbn [SFlarge]; [lia | exact I].
Qed.

(** The square root of a number of the format is at least [2 ^ -537]. *)
Lemma SFsqrt_core_large (m e : Z) :
  0 < m -> -1073 <= Zdigits2 m + e ->
  0 < fst (fst (SFsqrt_core_binary prec emax m e)) /\
  -536 <= Zdigits2 (fst (fst (SFsqrt_core_binary prec emax m e)))
          + snd (fst (SFsqrt_core_binary prec emax m e)).
Proof.
  intros Hm Hd. unfold SFsqrt_core_binary.
  set (d := Zdigits2 m) in *.
  set (e' := Z.min (fexp prec emax (Z.div2 (d + e + 1))) (Z.div2 e)).
  set (s := e - 2 * e').
  assert (0 <= s) as Hs.
  { subst s e'. pose proof (Z.div2_odd e) as He.
    destruct (Z.odd e); cbn [Z.b2z] in He; lia. }
  set (m' := match s with Z.pos _ => Z.shiftl m s | 0 => m | Z.neg _ => 0 end).
  assert (m' = m * 2 ^ s) as Hm'.
  { subst m'. destruct s as [| p | p] eqn:Es; try lia.
    apply Z.shiftl_mul_pow2. lia. }
  pose proof (Zdigits2_bounds m Hm) as [Hlo _]. fold d in Hlo.
  pose proof (Zdigits2_pos m Hm) as Hdpos. fold d in Hdpos.
  assert (2 ^ (d + s - 1) <= m') as Hlo'.
  { rewrite Hm'. replace (d + s - 1) with (d - 1 + s) by lia.
    rewrite Z.pow_add_r by lia.
    apply Z.mul_le_mono_nonneg_r; [apply Z.pow_nonneg; lia | exact Hlo]. }
  set (c := (d + s + 1) / 2).
  assert (1 <= c) as Hc by (subst c; apply Z.div_le_lower_bound; lia).
  assert (2 * c <= d + s + 1) as Hc2
      by (subst c; apply Z.mul_div_le; lia).
  assert (2 ^ (c - 1) <= Z.sqrt m') as Hq.
  { rewrite <- (Z.sqrt_square (2 ^ (c - 1))) by (apply Z.pow_nonneg; lia).
    apply Z.sqrt_le_mono.
    rewrite <- Z.pow_add_r by lia.
    transitivity (2 ^ (d + s - 1)); [| exact Hlo'].
    apply Z.pow_le_mono_r; lia. }
  assert (0 < 2 ^ (c - 1)) as Hpow by (apply Z.pow_pos_nonneg; lia).
  pose proof (Z.sqrtrem_sqrt m') as Hsq.
  destruct (Z.sqrtrem m') as [q r]. cbn [fst] in Hsq. subst q.
  cbn [fst snd]. split; [lia |].
  assert (c <= Zdigits2 (Z.sqrt m')) as Hdig
      by (apply Zdigits2_ge; [lia | exact Hq]).
  assert (-536 <= c + e'); [| lia].
  subst c s. replace (d + (e - 2 * e') + 1) with (d + e + 1 + (- e') * 2) by lia.
  rewrite Z.div_add by lia.
  assert (-536 <= (d + e + 1) / 2) by (apply Z.div_le_lower_bound; lia).
  lia.
Qed.

Lemma valid_binary_exponent (s : bool) (m : positive) (e : Z) :
  valid_binary (S754_finite s m e) = true -> -1073 <= Zdigits2 (Zpos m) + e.
Proof.
  cbn [SpecFloat.valid_binary]. unfold bounded, canonical_mantissa.
  rewrite fexp_binary64. intros H.
  apply andb_true_iff in H as [H _]. apply Z.eqb_eq in H.
  cbn [Zdigits2]. lia.
Qed.

Lemma SFsqrt_large (x : spec_float) :
  valid_binary x = true ->
  match x with S754_zero _ => False | _ => True end ->
  SFlarge (-536) (SFsqrt prec emax x).
Proof.
  intros Hv Hz. destruct x as [s | [|] | | [|] m e]; cbn [SFsqrt SFlarge]; auto.
  pose proof (valid_binary_exponent _ _ _ Hv) as Hd.
  pose proof (SFsqrt_core_large (Zpos m) e ltac:(lia) Hd) as [Hq He].
  destruct (SFsqrt_core_binary prec emax (Z.pos m) e) as [[q e'] l].
  cbn [fst snd] in Hq, He.
  eapply SFlarge_weaken; [| apply binary_round_aux_large]; lia.
Qed.

Lemma SFmul_large (x y : spec_float) :
  SFlarge (-536) x -> SFlarge (-536) y -> SFlarge (-1073) (SFmul prec emax x y).
Proof.
  destruct x as [sx | sx | | sx mx ex], y as [sy | sy | | sy my ey];
    cbn [SFlarge SFmul]; try tauto.
  intros Hx Hy.
  pose proof (Zdigits2_bounds (Zpos mx) ltac:(lia)) as [Hlx _].
  pose proof (Zdigits2_bounds (Zpos my) ltac:(lia)) as [Hly _].
  pose proof (Zdigits2_pos (Zpos mx) ltac:(lia)) as Hpx.
  pose proof (Zdigits2_pos (Zpos my) ltac:(lia)) as Hpy.
  assert (Zdigits2 (Z.pos mx) + Zdigits2 (Z.pos my) - 1
          <= Zdigits2 (Z.pos (mx * my))) as Hd.
  { apply Zdigits2_ge; [lia |].
    rewrite Pos2Z.inj_mul.
    replace (Zdigits2 (Z.pos mx) + Zdigits2 (Z.pos my) - 1 - 1)
      with ((Zdigits2 (Z.pos mx) - 1) + (Zdigits2 (Z.pos my) - 1)) by lia.
    rewrite Z.pow_add_r by lia.
    apply Z.mul_le_mono_nonneg; try assumption; apply Z.pow_nonneg; lia. }
  eapply SFlarge_weaken; [| apply binary_round_aux_large]; lia.
Qed.

Lemma SFlarge_not_zero (k : Z) (x : spec_float) :
  SFlarge k x -> SFeqb x (S754_zero false) = false.
Proof. destruct x as [s | [|] | | [|] m e]; cbn; tauto. Qed.

Lemma sqrt_nonzero_large (x : float) :
  (x =? 0)%float = false -> SFlarge (-536) (Prim2SF (PrimFloat.sqrt x)).
Proof.
  intros Hx. rewrite sqrt_spec. apply SFsqrt_large; [apply Prim2SF_valid |].
  rewrite eqb_spec in Hx. change (Prim2SF 0) with (S754_zero false) in Hx.
  destruct (Prim2SF x) as [[|] | | |]; try exact I; discriminate Hx.
Qed.

(** The guard of [cosine_similarity] is enough: the product of two norms
    that are not zero is not zero, since a norm is a square root and no
    square root of a float is below [2 ^ -537]. *)
Lemma norms_product_nonzero (x y : float) :
  (Py.pow_half x =? 0)%float = false ->
  (Py.pow_half y =? 0)%float = false ->
  (Py.pow_half x * Py.pow_half y =? 0)%float = false.
Proof.
  unfold Py.pow_half. intros Hx Hy.
  destruct (x =? 0)%float eqn:Ex; [discriminate Hx |].
  destruct (y =? 0)%float eqn:Ey; [discriminate Hy |].
  rewrite eqb_spec, mul_spec. change (Prim2SF 0) with (S754_zero false).
  apply (SFlarge_not_zero (-1073)), SFmul_large; now apply sqrt_nonzero_large.
Qed.

Lemma combine_truncates {A B : Type} (a : list A) (b : list B) :
  combine (firstn (Nat.min (List.length a) (List.length b)) a)
          (firstn (Nat.min (List.length a) (List.length b)) b)
  = combine a b.
Proof.
  rewrite <- combine_firstn, <- length_combine. apply firstn_all.
Qed.

(** C10: [cosine_similarity] returns on every pair of lists of floats, of
    equal length or not; the dot product is taken over the first
    min(|a|, |b|) pairs of components, each norm over its whole vector, and
    the result is 0.0 as soon as one of the norms is zero. *)
Theorem cosine_similarity_total (a b : list float) :
  let n := Nat.min (List.length a) (List.length b) in
  let dot := Py.sum (map (fun xy => (fst xy * snd xy)%float)
                         (combine (firstn n a) (firstn n b))) in
  let norm_a := Py.pow_half (Py.sum (map (fun x => (x * x)%float) a)) in
  let norm_b := Py.pow_half (Py.sum (map (fun x => (x * x)%float) b)) in
  cosine_similarity a b
  = Return (if (norm_a =? 0)%float || (norm_b =? 0)%float then 0%float
            else (dot / (norm_a * norm_b))%float).
Proof.
  intros n dot norm_a norm_b. subst n dot. rewrite combine_truncates.
  unfold cosine_similarity. fold norm_a norm_b.
  destruct (norm_a =? 0)%float eqn:Ha; [reflexivity |].
  destruct (norm_b =? 0)%float eqn:Hb; [reflexivity |].
  cbn [orb]. unfold Py.truediv.
  subst norm_a norm_b. now rewrite (norms_product_nonzero _ _ Ha Hb).
Qed.

(** A query vector of three components against stored vectors of two and
    of four. *)
Lemma cosine_similarity_unequal_lengths :
  cosine_similarity [3%float; 4%float; 12%float] [3%float; 4%float]
  = Return 0.38461538461538464%float /\
  cosine_similarity [3%float; 4%float] [3%float; 4%float; 0%float; 12%float]
  = Return 0.38461538461538464%float.
Proof. split; vm_compute; reflexivity. Qed.
(** ** Further properties of the codec *)

Lemma omap_length {A B : Type} (f : A -> outcome B) (l : list A) (l' : list B) :
  omap f l = Return l' -> List.length l' = List.length l.
Proof.
  revert l'. induction l as [| x t IH]; intros l'; cbn [omap].
  - intros [= <-]. reflexivity.
  - destruct (f x) as [y | e | c]; cbn [obind]; try discriminate.
    destruct (omap f t) as [ys | e | c]; cbn [obind]; try discriminate.
    intros [= <-]. cbn [List.length]. now rewrite (IH ys).
Qed.

(** Where [omap] raises, it raises what the first failing call raised. *)
Lemma omap_raise {A B : Type} (f : A -> outcome B) (l : list A) (e : exn) :
  omap f l = Raise e -> exists x, In x l /\ f x = Raise e.
Proof.
  induction l as [| x t IH]; cbn [omap]; [discriminate |].
  destruct (f x) as [y | e' | c] eqn:Hx; cbn [obind]; try discriminate.
  - destruct (omap f t) as [ys | e' | c]; cbn [obind]; try discriminate.
    intros [= ->]. destruct (IH eq_refl) as [x' [Hin Hx']].
    exists x'. split; [now right | exact Hx'].
  - intros [= ->]. exists x. split; [now left | exact Hx].
Qed.

Lemma omap_exit {A B : Type} (f : A -> outcome B) (l : list A) (c : Z) :
  omap f l = Exit c -> exists x, In x l /\ f x = Exit c.
Proof.
  induction l as [| x t IH]; cbn [omap]; [discriminate |].
  destruct (f x) as [y | e' | c'] eqn:Hx; cbn [obind]; try discriminate.
  - destruct (omap f t) as [ys | e' | c']; cbn [obind]; try discriminate.
    intros [= ->]. destruct (IH eq_refl) as [x' [Hin Hx']].
    exists x'. split; [now right | exact Hx'].
  - intros [= ->]. exists x. split; [now left | exact Hx].
Qed.

Lemma pack_f_outcome (x : float) :
  match Struct.pack_f x with
  | Return _ => True
  | Raise e => e = OverflowError /\ is_finite x = true
  | Exit _ => False
  end.
Proof.
  unfold Struct.pack_f, is_finite.
  pose proof (SF2Prim_Prim2SF x) as Hx.
  destruct (Prim2SF x) as [s | s | | s m e] eqn:Hsf; try exact I.
  destruct (Struct.inf32 <=? Struct.magnitude32 m e); [| exact I].
  split; [reflexivity |].
  unfold Prim2SF in Hsf.
  destruct (is_nan x); [discriminate |].
  destruct (is_zero x); [discriminate |].
  destruct (is_infinity x); [discriminate | reflexivity].
Qed.

(** X3: What [vec_to_blob] gives: four bytes for each element, and no failure
    other than the OverflowError of [struct.pack] on a finite element that
    binary32 cannot hold. *)
Theorem vec_to_blob_outcome (vec : list float) :
  match vec_to_blob vec with
  | Return blob => List.length blob = (4 * List.length vec)%nat
  | Raise e =>
      e = OverflowError /\
      exists x, In x vec /\ is_finite x = true /\ to_float32 x = None
  | Exit _ => False
  end.
Proof.
  unfold vec_to_blob, Struct.pack.
  destruct (omap Struct.pack_f vec) as [ws | e | c] eqn:Hws; cbn [obind].
  - rewrite length_flat_map_le_split. f_equal. eapply omap_length, Hws.
  - destruct (omap_raise _ _ _ Hws) as [x [Hin Hx]].
    pose proof (pack_f_outcome x) as Ho. rewrite Hx in Ho.
    destruct Ho as [-> Hfin]. split; [reflexivity |].
    exists x. split; [exact Hin |]. split; [exact Hfin |].
    unfold to_float32. now rewrite Hx.
  - destruct (omap_exit _ _ _ Hws) as [x [_ Hx]].
    pose proof (pack_f_outcome x) as Ho. now rewrite Hx in Ho.
Qed.

Lemma words_length (n : nat) (l : list byte) :
  List.length (Struct.words n l) = n.
Proof.
  revert l. induction n as [| n IH]; intros l; cbn [Struct.words List.length];
    [reflexivity | now rewrite IH].
Qed.

Lemma blob_to_vec_returned (json_loads : string -> answer (list float))
      (b : list byte) (vec : list float) :
  blob_to_vec json_loads (SqlBlob b) = Return vec ->
  List.length b = (4 * List.length vec)%nat.
Proof.
  cbn [blob_to_vec]. unfold Struct.unpack.
  destruct (Nat.eqb_spec (List.length b) (4 * (List.length b / 4))) as [Heq | Hne];
    [| discriminate].
  intros [= <-]. now rewrite length_map, words_length.
Qed.

(** X2: [blob_to_vec] on a BLOB: one float for each group of four bytes, and
    [struct.error] exactly when the bytes do not come in groups of four. *)
Theorem blob_to_vec_groups_of_four
        (json_loads : string -> answer (list float)) (b : list byte) :
  match blob_to_vec json_loads (SqlBlob b) with
  | Return vec =>
      List.length b = (4 * List.length vec)%nat /\
      vec = map Struct.unpack_f (Struct.words (List.length b / 4) b)
  | Raise e => e = StructError /\ (List.length b mod 4)%nat <> 0%nat
  | Exit _ => False
  end.
Proof.
  cbn [blob_to_vec]. unfold Struct.unpack.
  pose proof (Nat.div_mod_eq (List.length b) 4) as Hdm.
  destruct (Nat.eqb_spec (List.length b) (4 * (List.length b / 4))) as [Heq | Hne].
  - split; [| reflexivity]. now rewrite length_map, words_length.
  - split; [reflexivity | lia].
Qed.
(** ** Further properties of the similarity *)

Lemma SFmul_comm (x y : spec_float) : SFmul prec emax x y = SFmul prec emax y x.
Proof.
  destruct x as [sx | sx | | sx mx ex], y as [sy | sy | | sy my ey];
    cbn [SFmul]; rewrite ?(xorb_comm sx sy); try reflexivity.
  now rewrite (Pos.mul_comm mx my), (Z.add_comm ex ey).
Qed.

Lemma float_mul_comm (x y : float) : (x * y)%float = (y * x)%float.
Proof.
  apply Prim2SF_inj. rewrite !mul_spec. apply SFmul_comm.
Qed.

Lemma products_comm (a b : list float) :
  map (fun xy => (fst xy * snd xy)%float) (combine a b)
  = map (fun xy => (fst xy * snd xy)%float) (combine b a).
Proof.
  revert b. induction a as [| x a IH]; intros [| y b]; cbn [combine map fst snd];
    try reflexivity.
  now rewrite IH, float_mul_comm.
Qed.

(** X7: The similarity does not depend on the order of its two arguments,
    whatever their lengths and components. *)
Theorem cosine_similarity_symmetric (a b : list float) :
  cosine_similarity a b = cosine_similarity b a.
Proof.
  unfold cosine_similarity.
  rewrite (products_comm a b), orb_comm.
  now rewrite (float_mul_comm (Py.pow_half (Py.sum (map (fun x => (x * x)%float) a)))).
Qed.
(** ** Further properties of the full-text search *)

Lemma search_fts_query (db : connection) (query prefix : string) (limit : nat) :
  search_fts db query prefix limit =
  match select_fts db (fts_query query) (prefix ++ "/%") limit with
  | Ok rows =>
      map (fun r => FtsHit (str_take 200 (fts_text r)) (fts_path r)
                           (fts_start r, fts_end r) (fts_row_rank r)) rows
  | Fails e => [FtsError (exn_str e)]
  end.
Proof. reflexivity. Qed.

(** Only the empty string is found in the empty string. *)
Lemma str_in_empty (needle : string) :
  str_in needle EmptyString = true -> needle = EmptyString.
Proof.
  destruct needle as [| c t]; [reflexivity |]. cbn. discriminate.
Qed.

(** [s[:n]] has at most [n] characters and starts [s]. *)
Lemma str_take_length (n : nat) (s : string) :
  (String.length (str_take n s) <= n)%nat.
Proof.
  unfold str_take. revert s.
  induction n as [| n IH]; intros [| c t]; cbn [substring String.length]; try lia.
  specialize (IH t). lia.
Qed.

Lemma str_take_prefix (n : nat) (s : string) :
  String.prefix (str_take n s) s = true.
Proof.
  unfold str_take. revert s.
  induction n as [| n IH]; intros [| c t]; cbn [substring String.prefix];
    try reflexivity.
  destruct (ascii_dec c c) as [_ | Hc]; [apply IH | now elim Hc].
Qed.

(** [s[:n]] is all of [s] unless it is cut at [n] characters. *)
Lemma str_take_all_or_full (n : nat) (s : string) :
  str_take n s = s \/ String.length (str_take n s) = n.
Proof.
  unfold str_take. revert s.
  induction n as [| n IH]; intros [| c t]; cbn [substring String.length];
    try (now left); try (now right).
  destruct (IH t) as [H | H]; [left; now rewrite H | right; now rewrite H].
Qed.

(** X8: A statement that the full-text index refuses (a missing table, a
    match expression that is no FTS5 syntax) costs no exception:
    [search_fts] answers with one error entry, and that entry is no lexical
    match for an expected text that is not empty, whatever the message. *)
Theorem search_fts_failure_no_match
        (lower : string -> string) (db : connection)
        (query prefix expected : string) (limit : nat) (e : exn) :
  select_fts db (fts_query query) (prefix ++ "/%") limit = Fails e ->
  lower EmptyString = EmptyString ->
  lower expected <> EmptyString ->
  search_fts db query prefix limit = [FtsError (exn_str e)] /\
  fts_pass lower expected (search_fts db query prefix limit) = false.
Proof.
  intros Hdb Hl He. rewrite search_fts_query, Hdb. split; [reflexivity |].
  unfold fts_pass, found. cbn [existsb fts_get_text]. rewrite Hl, orb_false_r.
  destruct (str_in (lower expected) EmptyString) eqn:Hin; [| reflexivity].
  elim He. now apply str_in_empty.
Qed.

Lemma search_fts_failure_no_match_witness :
  search_fts store_aligned "I need a quote on CW paper" SCOPE_PREFIX MAX_RESULTS
  = [FtsError "no such table: chunks_fts"] /\
  fts_pass ascii_lower "quote"
           (search_fts store_aligned "I need a quote on CW paper" SCOPE_PREFIX
                       MAX_RESULTS) = false.
Proof.
  apply (search_fts_failure_no_match ascii_lower store_aligned
           "I need a quote on CW paper" SCOPE_PREFIX "quote" MAX_RESULTS
           (OperationalError "no such table: chunks_fts")).
  - reflexivity.
  - reflexivity.
  - discriminate.
Defined.

(** X9: When the index answers, [search_fts] gives one entry for each row, in
    the order of the rows, with the path, the lines and the rank of the row
    and the first 200 characters of its text. *)
Theorem search_fts_hits (db : connection) (query prefix : string) (limit : nat)
        (rows : list fts_row) :
  select_fts db (fts_query query) (prefix ++ "/%") limit = Ok rows ->
  Forall2 (fun row r =>
             exists t, r = FtsHit t (fts_path row) (fts_start row, fts_end row)
                                  (fts_row_rank row) /\
                       (String.length t <= 200)%nat /\
                       String.prefix t (fts_text row) = true /\
                       (t = fts_text row \/ String.length t = 200%nat))
          rows (search_fts db query prefix limit).
Proof.
  intros Hdb. rewrite search_fts_query, Hdb. clear Hdb.
  induction rows as [| row rows IH]; cbn [map]; constructor; [| exact IH].
  exists (str_take 200 (fts_text row)).
  split; [reflexivity |]. split; [apply str_take_length |].
  split; [apply str_take_prefix |].
  apply str_take_all_or_full.
Qed.
(** ** Further properties of the vector search *)

Lemma search_vector_rows
      (json_loads : string -> answer (list float)) (round4 : float -> float)
      (db : connection) (query_vec : list float) (prefix : string) (limit : nat) :
  search_vector json_loads round4 db query_vec prefix limit =
  obind (of_answer (select_chunks db EMBEDDING_MODEL (prefix ++ "/%"))) (fun rows =>
  obind (omap (score_row json_loads round4 query_vec) rows) (fun scored =>
  Return (firstn limit (sort_desc (List.concat scored))))).
Proof. reflexivity. Qed.

(** The division of [cosine_similarity] is never by zero. *)
Lemma cosine_similarity_returns (a b : list float) :
  exists s, cosine_similarity a b = Return s.
Proof.
  unfold cosine_similarity.
  destruct (Py.pow_half (Py.sum (map (fun x => (x * x)%float) a)) =? 0)%float eqn:Ha;
    [eexists; reflexivity |].
  destruct (Py.pow_half (Py.sum (map (fun x => (x * x)%float) b)) =? 0)%float eqn:Hb;
    [eexists; reflexivity |].
  cbn [orb]. unfold Py.truediv. rewrite (norms_product_nonzero _ _ Ha Hb).
  eexists; reflexivity.
Qed.

(** What a row adds to [scored]: nothing without an embedding, one result
    with one. *)
Lemma score_row_returned
      (json_loads : string -> answer (list float)) (round4 : float -> float)
      (query_vec : list float) (row : chunk_row) (l : list vec_result) :
  score_row json_loads round4 query_vec row = Return l ->
  (sql_truthy (chunk_embedding row) = false /\ l = []) \/
  (sql_truthy (chunk_embedding row) = true /\
   exists chunk_vec s,
     blob_to_vec json_loads (chunk_embedding row) = Return chunk_vec /\
     cosine_similarity query_vec chunk_vec = Return s /\
     l = [ {| score := round4 s; path := chunk_path row;
              lines := (chunk_start row, chunk_end row);
              text := str_take 200 (chunk_text row) |} ]).
Proof.
  unfold score_row.
  destruct (sql_truthy (chunk_embedding row)); cbn [negb].
  - destruct (blob_to_vec json_loads (chunk_embedding row)) as [v | e | c];
      cbn [obind]; try discriminate.
    destruct (cosine_similarity query_vec v) as [s | e | c] eqn:Hs;
      cbn [obind]; try discriminate.
    intros [= <-]. right. split; [reflexivity |]. now exists v, s.
  - intros [= <-]. now left.
Qed.

Lemma score_row_returns
      (json_loads : string -> answer (list float)) (round4 : float -> float)
      (query_vec : list float) (row : chunk_row) :
  (exists l, score_row json_loads round4 query_vec row = Return l) <->
  (sql_truthy (chunk_embedding row) = true ->
   exists v, blob_to_vec json_loads (chunk_embedding row) = Return v).
Proof.
  unfold score_row.
  destruct (sql_truthy (chunk_embedding row)); cbn [negb].
  - destruct (blob_to_vec json_loads (chunk_embedding row)) as [v | e | c];
      cbn [obind].
    + destruct (cosine_similarity_returns query_vec v) as [s ->]. cbn [obind].
      split; [intros _ _; now exists v | intros _; eexists; reflexivity].
    + split; [intros [l H]; discriminate | intros H].
      destruct (H eq_refl) as [v Hv]. discriminate.
    + split; [intros [l H]; discriminate | intros H].
      destruct (H eq_refl) as [v Hv]. discriminate.
  - split; [intros _ H; discriminate | intros _; eexists; reflexivity].
Qed.

Lemma blob_to_vec_no_exit (json_loads : string -> answer (list float))
      (blob : sqlval) (c : Z) :
  blob_to_vec json_loads blob <> Exit c.
Proof.
  destruct blob as [| z | x | s | b]; cbn [blob_to_vec]; try discriminate.
  - now destruct (json_loads s).
  - unfold Struct.unpack. now destruct (Nat.eqb _ _).
Qed.

Lemma score_row_no_exit
      (json_loads : string -> answer (list float)) (round4 : float -> float)
      (query_vec : list float) (row : chunk_row) (c : Z) :
  score_row json_loads round4 query_vec row <> Exit c.
Proof.
  unfold score_row. destruct (negb _); [discriminate |].
  pose proof (blob_to_vec_no_exit json_loads (chunk_embedding row)) as Hb.
  destruct (blob_to_vec json_loads (chunk_embedding row)) as [v | e | c'];
    cbn [obind]; [| discriminate | now elim (Hb c')].
  destruct (cosine_similarity_returns query_vec v) as [s ->]. discriminate.
Qed.

Lemma omap_returns {A B : Type} (f : A -> outcome B) (l : list A) :
  (exists l', omap f l = Return l') <-> Forall (fun x => exists y, f x = Return y) l.
Proof.
  induction l as [| x t IH]; cbn [omap].
  - split; [constructor | intros _; eexists; reflexivity].
  - split.
    + intros [l' H].
      destruct (f x) as [y | e | c] eqn:Hx; cbn [obind] in H; try discriminate.
      destruct (omap f t) as [ys | e | c]; cbn [obind] in H; try discriminate.
      constructor; [now exists y | apply IH; now exists ys].
    + intros H. inversion H as [| ? ? [y Hy] Ht]; subst.
      apply IH in Ht. destruct Ht as [ys Hys].
      rewrite Hy, Hys. eexists; reflexivity.
Qed.

Lemma omap_in {A B : Type} (f : A -> outcome B) (l : list A) (l' : list B) (y : B) :
  omap f l = Return l' -> In y l' -> exists x, In x l /\ f x = Return y.
Proof.
  revert l'. induction l as [| x t IH]; intros l'; cbn [omap].
  - intros [= <-] [].
  - destruct (f x) as [y' | e | c] eqn:Hx; cbn [obind]; try discriminate.
    destruct (omap f t) as [ys | e | c]; cbn [obind]; try discriminate.
    intros [= <-] [<- | Hin].
    + exists x. split; [now left | exact Hx].
    + destruct (IH ys eq_refl Hin) as [x' [Hx' Hf]].
      exists x'. split; [now right | exact Hf].
Qed.

Lemma in_insert_desc (x y : vec_result) (l : list vec_result) :
  In y (insert_desc x l) <-> y = x \/ In y l.
Proof.
  induction l as [| z t IH]; cbn [insert_desc In].
  - intuition.
  - destruct (score x <? score z)%float; cbn [In]; rewrite ?IH; intuition.
Qed.

Lemma in_sort_desc (y : vec_result) (l : list vec_result) :
  In y (sort_desc l) <-> In y l.
Proof.
  induction l as [| x t IH]; cbn [sort_desc fold_right In]; [reflexivity |].
  fold (sort_desc t). rewrite in_insert_desc, IH. intuition.
Qed.

Lemma insert_desc_perm (x : vec_result) (l : list vec_result) :
  Permutation (x :: l) (insert_desc x l).
Proof.
  induction l as [| z t IH]; cbn [insert_desc]; [reflexivity |].
  destruct (score x <? score z)%float; [| reflexivity].
  rewrite perm_swap. now constructor.
Qed.

Lemma sort_desc_perm (l : list vec_result) : Permutation l (sort_desc l).
Proof.
  induction l as [| x t IH]; cbn [sort_desc fold_right]; [constructor |].
  fold (sort_desc t). rewrite <- insert_desc_perm. now constructor.
Qed.

Lemma length_sort_desc (l : list vec_result) :
  List.length (sort_desc l) = List.length l.
Proof. symmetry. apply Permutation_length, sort_desc_perm. Qed.

(** The results that the rows add, one for each row with an embedding. *)
Lemma scored_length
      (json_loads : string -> answer (list float)) (round4 : float -> float)
      (query_vec : list float) (rows : list chunk_row)
      (scored : list (list vec_result)) :
  omap (score_row json_loads round4 query_vec) rows = Return scored ->
  List.length (List.concat scored) = List.length (with_embedding rows).
Proof.
  revert scored. induction rows as [| row rows IH]; intros scored; cbn [omap].
  - intros [= <-]. reflexivity.
  - destruct (score_row json_loads round4 query_vec row) as [l | e | c] eqn:Hrow;
      cbn [obind]; try discriminate.
    destruct (omap _ rows) as [ls | e | c]; cbn [obind]; try discriminate.
    intros [= <-]. cbn [List.concat]. rewrite length_app, (IH ls eq_refl).
    unfold with_embedding. cbn [filter].
    destruct (score_row_returned _ _ _ _ _ Hrow) as [[-> ->] | [-> [v [s [_ [_ ->]]]]]];
      reflexivity.
Qed.

(** X10: [search_vector] answers with one result for each row that has an
    embedding, up to [limit] of them. *)
Theorem search_vector_count
        (json_loads : string -> answer (list float)) (round4 : float -> float)
        (db : connection) (query_vec : list float) (prefix : string) (limit : nat)
        (rows : list chunk_row) (vec_results : list vec_result) :
  select_chunks db EMBEDDING_MODEL (prefix ++ "/%") = Ok rows ->
  search_vector json_loads round4 db query_vec prefix limit = Return vec_results ->
  List.length vec_results
  = Nat.min limit (List.length (with_embedding rows)).
Proof.
  intros Hdb. rewrite search_vector_rows, Hdb. cbn [of_answer obind].
  destruct (omap _ rows) as [scored | e | c] eqn:Hs; cbn [obind]; try discriminate.
  intros [= <-].
  now rewrite length_firstn, length_sort_desc, (scored_length _ _ _ _ _ Hs).
Qed.

(** X11: [search_vector] invents nothing: each of its results stems from a row
    of the store with an embedding, has the path and the lines of that row
    and the first 200 characters of its text, and scores the rounded
    similarity of the query vector and the embedding of the row. *)
Theorem search_vector_sound
        (json_loads : string -> answer (list float)) (round4 : float -> float)
        (db : connection) (query_vec : list float) (prefix : string) (limit : nat)
        (rows : list chunk_row) (vec_results : list vec_result) (r : vec_result) :
  select_chunks db EMBEDDING_MODEL (prefix ++ "/%") = Ok rows ->
  search_vector json_loads round4 db query_vec prefix limit = Return vec_results ->
  In r vec_results ->
  exists row chunk_vec s,
    In row rows /\
    sql_truthy (chunk_embedding row) = true /\
    blob_to_vec json_loads (chunk_embedding row) = Return chunk_vec /\
    cosine_similarity query_vec chunk_vec = Return s /\
    score r = round4 s /\
    path r = chunk_path row /\
    lines r = (chunk_start row, chunk_end row) /\
    text r = str_take 200 (chunk_text row) /\
    (String.length (text r) <= 200)%nat.
Proof.
  intros Hdb. rewrite search_vector_rows, Hdb. cbn [of_answer obind].
  destruct (omap _ rows) as [scored | e | c] eqn:Hs; cbn [obind]; try discriminate.
  intros [= <-] Hin.
  apply List.In_firstn_to_In, in_sort_desc, in_concat in Hin.
  destruct Hin as [l [Hl Hr]].
  destruct (omap_in _ _ _ _ Hs Hl) as [row [Hrow Hscore]].
  destruct (score_row_returned _ _ _ _ _ Hscore)
    as [[_ ->] | [Ht [v [s [Hv [Hc ->]]]]]]; [destruct Hr |].
  destruct Hr as [<- | []].
  exists row, v, s. cbn [score path lines text].
  repeat (split; [first [assumption | reflexivity] |]).
  apply str_take_length.
Qed.

(** X12: One embedding that [blob_to_vec] cannot decode, in any row that
    the statement selects, makes [search_vector] raise, whatever the query
    vector, the limit and the other rows hold: no row is skipped for a bad
    embedding, and nothing of the other rows is returned. *)
Theorem search_vector_undecodable_row
        (json_loads : string -> answer (list float)) (round4 : float -> float)
        (db : connection) (query_vec : list float) (prefix : string) (limit : nat)
        (rows : list chunk_row) (row : chunk_row) :
  select_chunks db EMBEDDING_MODEL (prefix ++ "/%") = Ok rows ->
  In row rows ->
  sql_truthy (chunk_embedding row) = true ->
  (forall chunk_vec,
     blob_to_vec json_loads (chunk_embedding row) <> Return chunk_vec) ->
  exists e, search_vector json_loads round4 db query_vec prefix limit = Raise e.
Proof.
  intros Hdb Hin Ht Hbad. rewrite search_vector_rows, Hdb. cbn [of_answer obind].
  destruct (omap (score_row json_loads round4 query_vec) rows)
    as [scored | e | c] eqn:Hs; cbn [obind].
  - exfalso.
    assert (exists l, omap (score_row json_loads round4 query_vec) rows = Return l)
      as Hret by now exists scored.
    apply omap_returns in Hret. rewrite Forall_forall in Hret.
    destruct (proj1 (score_row_returns json_loads round4 query_vec row)
                    (Hret row Hin) Ht) as [v Hv].
    exact (Hbad v Hv).
  - now exists e.
  - destruct (omap_exit _ _ _ Hs) as [row' [_ Hrow]].
    now apply score_row_no_exit in Hrow.
Qed.
(** ** The ranking of the vector results *)

Lemma insert_desc_sorted (x : vec_result) (l : list vec_result) :
  PrimFloat.is_nan (score x) = false ->
  Forall (fun r => PrimFloat.is_nan (score r) = false) l ->
  StronglySorted score_ge l ->
  StronglySorted score_ge (insert_desc x l).
Proof.
  intros Hx Hl Hs. induction Hs as [| y t Ht IH Hy]; cbn [insert_desc].
  - repeat constructor.
  - inversion Hl as [| ? ? Hny Hnt]; subst.
    destruct (score x <? score y)%float eqn:Hlt.
    + constructor; [now apply IH |].
      rewrite Forall_forall. intros z Hz. apply in_insert_desc in Hz.
      destruct Hz as [-> | Hz].
      * now apply float_ltb_leb.
      * rewrite Forall_forall in Hy. now apply Hy.
    + assert (score_ge x y) as Hxy by now apply float_not_ltb_leb.
      constructor; [now constructor |].
      constructor; [exact Hxy |].
      rewrite Forall_forall in Hy |- *. intros z Hz.
      unfold score_ge in *. eapply float_leb_trans; [now apply Hy | exact Hxy].
Qed.

Lemma sort_desc_sorted (l : list vec_result) :
  Forall (fun r => PrimFloat.is_nan (score r) = false) l ->
  StronglySorted score_ge (sort_desc l).
Proof.
  induction 1 as [| x t Hx Ht IH]; cbn [sort_desc fold_right]; [constructor |].
  fold (sort_desc t). apply insert_desc_sorted; [exact Hx | | exact IH].
  rewrite Forall_forall in Ht |- *. intros z Hz. now apply Ht, in_sort_desc.
Qed.

(** X13: With no nan among the scores, [search_vector] answers with the
    [limit] best results: the results of all the rows with an embedding,
    put in descending order of score and cut after [limit]. *)
Theorem search_vector_ranked
        (json_loads : string -> answer (list float)) (round4 : float -> float)
        (db : connection) (query_vec : list float) (prefix : string) (limit : nat)
        (rows : list chunk_row) (scored : list (list vec_result)) :
  select_chunks db EMBEDDING_MODEL (prefix ++ "/%") = Ok rows ->
  omap (score_row json_loads round4 query_vec) rows = Return scored ->
  Forall (fun r => PrimFloat.is_nan (score r) = false) (List.concat scored) ->
  exists ranked,
    Permutation (List.concat scored) ranked /\
    StronglySorted score_ge ranked /\
    search_vector json_loads round4 db query_vec prefix limit
    = Return (firstn limit ranked).
Proof.
  intros Hdb Hs Hn. exists (sort_desc (List.concat scored)).
  split; [apply sort_desc_perm |]. split; [now apply sort_desc_sorted |].
  rewrite search_vector_rows, Hdb. cbn [of_answer obind]. now rewrite Hs.
Qed.
(** ** Further properties of the evaluator *)

Lemma filter_printed_bind {A B : Type} (p : line -> bool) (m : io A) (f : A -> io B) :
  filter p (printed (bind m f)) =
  (filter p (printed m) ++ match result_of m with
                           | Return a => filter p (printed (f a))
                           | _ => []
                           end)%list.
Proof.
  rewrite printed_bind, filter_app. now destruct (result_of m).
Qed.

Lemma filter_printed_print {B : Type} (p : line -> bool) (l : line) (k : unit -> io B) :
  filter p (printed (bind (print l) k)) =
  ((if p l then [l] else []) ++ filter p (printed (k tt)))%list.
Proof. rewrite filter_printed_bind. reflexivity. Qed.

Lemma filter_printed_one (p : line -> bool) (l : line) :
  filter p (printed (print l)) = if p l then [l] else [].
Proof. reflexivity. Qed.

Lemma filter_printed_lift {A B : Type} (p : line -> bool) (o : outcome A) (f : A -> io B) :
  filter p (printed (bind (lift o) f)) =
  match o with
  | Return a => filter p (printed (f a))
  | _ => []
  end.
Proof. rewrite bind_lift. now destruct o. Qed.

Lemma filter_printed_for_each {A : Type} (p : line -> bool) (body : A -> io unit)
      (xs : list A) :
  (forall x, filter p (printed (body x)) = []) ->
  filter p (printed (for_each body xs)) = [].
Proof.
  intros H. induction xs as [| x t IH]; cbn [for_each]; [reflexivity |].
  rewrite filter_printed_bind, H, IH. now destruct (result_of (body x)).
Qed.

(** [get_embedding] prints its two messages only. *)
Lemma get_embedding_printed (p : line -> bool) (w : world) (q : string) :
  p LNoKey = false -> (forall reason, p (LEmbeddingError reason) = false) ->
  filter p (printed (get_embedding w q)) = [].
Proof.
  intros H1 H2. unfold get_embedding.
  destruct (selected_backend (env w)) as [b |].
  - rewrite bind_ret.
    destruct (urlopen w (backend_url b) (backend_key (env w) b) q);
      cbn; rewrite ?H2; reflexivity.
  - cbn. now rewrite H1.
Qed.

(** The lines of [run_test] that a test [p] on lines keeps, when [p] keeps
    none of the lines of the header and of the two listings. *)
Lemma run_test_filtered
      (lower : string -> string) (json_loads : string -> answer (list float))
      (round4 : float -> float) (p : line -> bool)
      (w : world) (db : connection) (q expected desc : string) (min_score : float) :
  (forall l, p l = true ->
             match l with
             | LSkip _ | LResult _ | LFoundBelow _ _ => True
             | _ => False
             end) ->
  filter p (printed (run_test lower json_loads round4 w db q expected desc min_score))
  = match result_of (get_embedding w q) with
    | Return [] => filter p [LSkip (elapsed_ms w q)]
    | Return (x :: xs) =>
        match search_vector json_loads round4 db (x :: xs) SCOPE_PREFIX MAX_RESULTS with
        | Return vr =>
            let r := classified lower db w q expected min_score vr in
            filter p
              (LResult (status r)
               :: if String.eqb (status r) "BELOW_THRESHOLD"
                  then [LFoundBelow
                          match filter (fun r => found lower expected (text r)) vr with
                          | r :: _ => score r
                          | [] => 0%float
                          end min_score]
                  else [])
        | _ => []
        end
    | _ => []
    end.
Proof.
  intros Hp.
  assert (forall l, (match l with
                     | LSkip _ | LResult _ | LFoundBelow _ _ => False
                     | _ => True
                     end) -> p l = false) as Hn.
  { intros l Hl. destruct (p l) eqn:E; [| reflexivity].
    apply Hp in E. destruct l; tauto. }
  unfold run_test.
  rewrite !filter_printed_print, !Hn by exact I. cbn [app].
  rewrite filter_printed_bind, get_embedding_printed
    by (intros; apply Hn; exact I).
  cbn [app].
  destruct (result_of (get_embedding w q)) as [[| x xs] | e | c]; try reflexivity.
  - rewrite filter_printed_lift.
    destruct (search_vector _ _ _ _ _ _) as [vr | e | c]; try reflexivity.
    cbn beta iota.
    rewrite filter_printed_print, Hn by exact I. cbn [app].
    rewrite filter_printed_bind, filter_printed_for_each.
    2:{ intros ir.
        rewrite filter_printed_print, filter_printed_one, !Hn by exact I.
        reflexivity. }
    rewrite for_each_returns by (intros ir _; now step_result).
    cbn [app].
    rewrite filter_printed_print, Hn by exact I. cbn [app].
    rewrite filter_printed_bind, filter_printed_for_each.
    2:{ intros ir. destruct (snd ir);
          rewrite filter_printed_print, filter_printed_one, !Hn by exact I;
          reflexivity. }
    rewrite for_each_returns
      by (intros ir _; destruct (snd ir); now step_result).
    cbn [app].
    rewrite filter_printed_print.
    rewrite filter_printed_print, (Hn (LTopScore _ _)) by exact I. cbn [app].
    rewrite filter_printed_print, (Hn (LAbove _ _)) by exact I. cbn [app].
    rewrite filter_printed_bind.
    cbn zeta. unfold classified; cbn [status].
    set (vp := vec_pass lower expected min_score vr).
    set (va := vec_any lower expected vr).
    set (fp := fts_pass lower expected _).
    destruct vp, va, fp; cbn [negb andb orb String.eqb Ascii.eqb Bool.eqb];
      cbn [filter printed print ret fst snd result_of app];
      repeat match goal with
             | |- context [p ?l] => destruct (p l)
             end;
      reflexivity.
Qed.

Lemma classified_not_skip (lower : string -> string) db w q expected min_score vr :
  String.eqb (status (classified lower db w q expected min_score vr)) "skip" = false.
Proof.
  unfold classified; cbn [status].
  destruct (negb _ && _); [reflexivity |]. now destruct (_ || _).
Qed.

(** X14: [run_test] reports what it returns: a test case that returns has
    printed one verdict line, SKIP for the skip dict and RESULT with the
    status of the dict otherwise; a test case that raises or exits has
    printed no verdict. *)
Theorem run_test_one_verdict
        (lower : string -> string) (json_loads : string -> answer (list float))
        (round4 : float -> float)
        (w : world) (db : connection) (q expected desc : string) (min_score : float) :
  filter is_verdict
         (printed (run_test lower json_loads round4 w db q expected desc min_score))
  = match result_of (run_test lower json_loads round4 w db q expected desc min_score)
    with
    | Return r => [verdict_line w r]
    | _ => []
    end.
Proof.
  rewrite run_test_filtered, run_test_result
    by (intros [] Hl; try discriminate Hl; exact I).
  destruct (result_of (get_embedding w q)) as [[| x xs] | e | c]; try reflexivity.
  destruct (search_vector _ _ _ _ _ _) as [vr | e | c]; try reflexivity.
  cbn zeta. unfold verdict_line. rewrite classified_not_skip.
  cbn [filter is_verdict]. now destruct (String.eqb _ "BELOW_THRESHOLD").
Qed.

Lemma existsb_filter_head {A : Type} (p : A -> bool) (l : list A) :
  existsb p l = true -> exists x t, filter p l = x :: t.
Proof.
  induction l as [| y l IH]; cbn [existsb filter]; [discriminate |].
  destruct (p y); [intros _; now exists y, (filter p l) | exact IH].
Qed.

Lemma filter_head_in {A : Type} (p : A -> bool) (l : list A) (x : A) (t : list A) :
  filter p l = x :: t -> In x l /\ p x = true.
Proof.
  intros H. apply filter_In. rewrite H. now left.
Qed.

(** X15: The message that the expected answer was found below the threshold
    is accurate: where [run_test] prints it, the test case is classified
    BELOW_THRESHOLD, the score shown is that of a vector result with the
    expected answer, and this score does not reach the threshold shown,
    which is the threshold of the run. *)
Theorem found_below_is_accurate
        (lower : string -> string) (json_loads : string -> answer (list float))
        (round4 : float -> float)
        (w : world) (db : connection) (q expected desc : string) (min_score : float)
        (match_score threshold : float) :
  In (LFoundBelow match_score threshold)
     (printed (run_test lower json_loads round4 w db q expected desc min_score)) ->
  threshold = min_score /\
  (min_score <=? match_score)%float = false /\
  exists r query_vec vec_results hit,
    result_of (run_test lower json_loads round4 w db q expected desc min_score)
    = Return r /\
    status r = "BELOW_THRESHOLD" /\
    result_of (get_embedding w q) = Return query_vec /\
    search_vector json_loads round4 db query_vec SCOPE_PREFIX MAX_RESULTS
    = Return vec_results /\
    In hit vec_results /\
    found lower expected (text hit) = true /\
    score hit = match_score.
Proof.
  intros Hin.
  assert (In (LFoundBelow match_score threshold)
             (filter is_found_below
                (printed (run_test lower json_loads round4 w db q expected desc
                                   min_score)))) as Hf
      by (apply filter_In; now split).
  clear Hin. revert Hf.
  rewrite run_test_filtered, run_test_result
    by (intros [] Hl; try discriminate Hl; exact I).
  destruct (result_of (get_embedding w q)) as [[| x xs] | e | c];
    try (intros []).
  destruct (search_vector _ _ _ _ _ _) as [vr | e | c] eqn:Hvr; try (intros []).
  cbn zeta. cbn [filter is_found_below].
  unfold classified at 1 2; cbn [status].
  destruct (negb (vec_pass lower expected min_score vr) && vec_any lower expected vr)
    eqn:Hb.
  2:{ destruct (_ || _); intros []. }
  cbn [String.eqb Ascii.eqb Bool.eqb filter is_found_below].
  intros [[= <- <-] | []].
  apply andb_true_iff in Hb. destruct Hb as [Hvp Hva].
  apply negb_true_iff in Hvp.
  destruct (existsb_filter_head _ _ Hva) as [hit [t Hhit]].
  rewrite Hhit. destruct (filter_head_in _ _ _ _ Hhit) as [Hin Hfound].
  split; [reflexivity |]. split.
  - destruct (min_score <=? score hit)%float eqn:Hle; [| reflexivity].
    revert Hvp. unfold vec_pass.
    assert (existsb (fun r => found lower expected (text r))
                    (filter (fun r => (min_score <=? score r)%float) vr) = true)
      as Habs
        by (apply existsb_exists; exists hit; split;
            [apply filter_In; now split | exact Hfound]).
    rewrite Habs. discriminate.
  - eexists _, (x :: xs), vr, hit.
    split; [reflexivity |].
    split; [reflexivity |].
    repeat split; assumption.
Qed.

Lemma vec_pass_any (lower : string -> string) (expected : string)
      (min_score : float) (vr : list vec_result) :
  vec_pass lower expected min_score vr = true -> vec_any lower expected vr = true.
Proof.
  unfold vec_pass, vec_any. rewrite !existsb_exists.
  intros [r [Hin Hf]]. apply filter_In in Hin. exists r. tauto.
Qed.

Lemma vec_pass_lower_threshold (lower : string -> string) (expected : string)
      (min_score min_score' : float) (vr : list vec_result) :
  (min_score' <=? min_score)%float = true ->
  vec_pass lower expected min_score vr = true ->
  vec_pass lower expected min_score' vr = true.
Proof.
  intros Hle. unfold vec_pass. rewrite !existsb_exists.
  intros [r [Hin Hf]]. apply filter_In in Hin. destruct Hin as [Hin Hs].
  exists r. split; [| exact Hf]. apply filter_In. split; [exact Hin |].
  eapply float_leb_trans; eassumption.
Qed.

(** X17: What the threshold can change in a verdict: nothing for a test case
    that is skipped or FAIL, which is so at every threshold, and a PASS
    stays a PASS under every lower threshold. *)
Theorem verdict_and_threshold
        (lower : string -> string) (json_loads : string -> answer (list float))
        (round4 : float -> float)
        (w : world) (db : connection) (q expected desc : string)
        (min_score min_score' : float) (r : result) :
  result_of (run_test lower json_loads round4 w db q expected desc min_score)
  = Return r ->
  exists r',
    result_of (run_test lower json_loads round4 w db q expected desc min_score')
    = Return r' /\
    (status r' = "skip" <-> status r = "skip") /\
    (status r' = "FAIL" <-> status r = "FAIL") /\
    ((min_score' <=? min_score)%float = true ->
     status r = "PASS" -> status r' = "PASS").
Proof.
  rewrite !run_test_result.
  destruct (result_of (get_embedding w q)) as [[| x xs] | e | c]; try discriminate.
  - intros [= <-]. exists (skipped q). split; [reflexivity |].
    split; [reflexivity |]. split; [reflexivity |]. discriminate.
  - destruct (search_vector _ _ _ _ _ _) as [vr | e | c]; try discriminate.
    intros [= <-]. eexists. split; [reflexivity |].
    unfold classified; cbn [status].
    pose proof (vec_pass_any lower expected min_score vr) as Ha.
    pose proof (vec_pass_any lower expected min_score' vr) as Ha'.
    pose proof (vec_pass_lower_threshold lower expected min_score min_score' vr)
      as Hm.
    destruct (vec_pass lower expected min_score vr),
             (vec_pass lower expected min_score' vr),
             (vec_any lower expected vr),
             (fts_pass lower expected _);
      cbn [negb andb orb];
      try (specialize (Ha eq_refl); discriminate Ha);
      try (specialize (Ha' eq_refl); discriminate Ha');
      (split; [split; discriminate |]);
      (split; [split; first [discriminate | reflexivity | intros _; reflexivity] |]);
      intros Hle Hp; try reflexivity; try discriminate Hp;
      specialize (Hm Hle eq_refl); discriminate Hm.
Qed.

(** X18: The top score of a test case is the best score in scope: with no
    nan among the scores, the top vector score that [run_test] reports and
    returns is the score of a row with an embedding, and no such row
    scores higher; it is 0 where no row has an embedding. *)
Theorem top_score_is_best
        (lower : string -> string) (json_loads : string -> answer (list float))
        (round4 : float -> float)
        (w : world) (db : connection) (q expected desc : string) (min_score : float)
        (out : list line) (x : float) (xs : list float)
        (rows : list chunk_row) (scored : list (list vec_result)) :
  get_embedding w q = (out, Return (x :: xs)) ->
  select_chunks db EMBEDDING_MODEL (SCOPE_PREFIX ++ "/%") = Ok rows ->
  omap (score_row json_loads round4 (x :: xs)) rows = Return scored ->
  Forall (fun r => PrimFloat.is_nan (score r) = false) (List.concat scored) ->
  exists r top,
    result_of (run_test lower json_loads round4 w db q expected desc min_score)
    = Return r /\
    top_score r = Some top /\
    Forall (fun s => (score s <=? top)%float = true) (List.concat scored) /\
    match List.concat scored with
    | [] => top = 0%float
    | _ :: _ => exists best, In best (List.concat scored) /\ score best = top
    end.
Proof.
  intros He Hdb Hs Hn.
  rewrite run_test_result, He. cbn [result_of snd].
  rewrite search_vector_rows, Hdb. cbn [of_answer obind]. rewrite Hs. cbn [obind].
  eexists _, _. split; [reflexivity |]. cbn [classified top_score].
  split; [reflexivity |].
  pose proof (sort_desc_sorted _ Hn) as Hsorted.
  pose proof (sort_desc_perm (List.concat scored)) as Hperm.
  assert (forall s, In s (sort_desc (List.concat scored)) <-> In s (List.concat scored))
    as Hin by (intros s; apply in_sort_desc).
  destruct (sort_desc (List.concat scored)) as [| best ranked].
  - apply Permutation_sym, Permutation_nil in Hperm. rewrite Hperm.
    split; [constructor | reflexivity].
  - cbn [MAX_RESULTS firstn]. split.
    + rewrite Forall_forall. intros s Hs'. apply Hin in Hs'.
      inversion Hsorted as [| ? ? _ Hbest]; subst.
      destruct Hs' as [<- | Hs'].
      * apply float_leb_refl. rewrite Forall_forall in Hn.
        apply Hn, Hin. now left.
      * rewrite Forall_forall in Hbest. now apply Hbest.
    + destruct (List.concat scored) as [| s0 rest] eqn:Hc.
      * apply Permutation_nil in Hperm. discriminate.
      * exists best. split; [apply Hin; now left | reflexivity].
Qed.

(** X19: One embedding BLOB in scope whose bytes do not come in groups of four
    costs every test case its verdict: [run_test] raises as soon as the
    query has an embedding. *)
Theorem undecodable_embedding_raises
        (lower : string -> string) (json_loads : string -> answer (list float))
        (round4 : float -> float)
        (w : world) (db : connection) (q expected desc : string) (min_score : float)
        (out : list line) (x : float) (xs : list float)
        (rows : list chunk_row) (row : chunk_row) (b : list byte) :
  get_embedding w q = (out, Return (x :: xs)) ->
  select_chunks db EMBEDDING_MODEL (SCOPE_PREFIX ++ "/%") = Ok rows ->
  In row rows ->
  chunk_embedding row = SqlBlob b ->
  (List.length b mod 4)%nat <> 0%nat ->
  exists e,
    result_of (run_test lower json_loads round4 w db q expected desc min_score)
    = Raise e.
Proof.
  intros He Hdb Hin Hb Hlen.
  rewrite run_test_result, He. cbn [result_of snd].
  rewrite search_vector_rows, Hdb. cbn [of_answer obind].
  destruct (omap _ rows) as [scored | e | c] eqn:Hs; cbn [obind].
  - pose proof (proj1 (omap_returns _ _) (ex_intro _ scored Hs)) as Hret.
    rewrite Forall_forall in Hret.
    destruct (proj1 (score_row_returns _ _ _ _) (Hret row Hin)) as [v Hv].
    { rewrite Hb. destruct b; [now elim Hlen | reflexivity]. }
    rewrite Hb in Hv. apply blob_to_vec_returned in Hv.
    elim Hlen. now rewrite Hv, Nat.mul_comm, Nat.Div0.mod_mul.
  - now exists e.
  - destruct (omap_exit _ _ _ Hs) as [row' [_ Hrow']].
    now apply score_row_no_exit in Hrow'.
Qed.
(** ** Further properties of the run *)

(** The one exit of [get_embedding] is the exit with status 1. *)
Lemma get_embedding_exit (w : world) (q : string) (c : Z) :
  result_of (get_embedding w q) = Exit c -> c = 1.
Proof.
  unfold get_embedding.
  destruct (selected_backend (env w)) as [b |].
  - rewrite bind_ret.
    destruct (urlopen w (backend_url b) (backend_key (env w) b) q);
      cbn; discriminate.
  - cbn. now intros [= <-].
Qed.

Lemma run_test_exit
      (lower : string -> string) (json_loads : string -> answer (list float))
      (round4 : float -> float)
      (w : world) (db : connection) (q expected desc : string) (min_score : float)
      (c : Z) :
  result_of (run_test lower json_loads round4 w db q expected desc min_score)
  = Exit c -> c = 1.
Proof.
  rewrite run_test_result.
  pose proof (get_embedding_exit w q) as He.
  destruct (result_of (get_embedding w q)) as [[| x xs] | e | c'];
    try discriminate.
  - rewrite search_vector_rows.
    destruct (select_chunks db EMBEDDING_MODEL (SCOPE_PREFIX ++ "/%")) as [rows | e];
      cbn [of_answer obind]; [| discriminate].
    destruct (omap _ rows) as [scored | e | c'] eqn:Hs; cbn [obind];
      try discriminate.
    destruct (omap_exit _ _ _ Hs) as [row [_ Hrow]].
    now apply score_row_no_exit in Hrow.
  - intros [= <-]. now apply He.
Qed.

Lemma run_tests_exit
      (lower : string -> string) (json_loads : string -> answer (list float))
      (round4 : float -> float)
      (w : world) (db : connection) (min_score : float)
      (cases : list (string * string * string)) (c : Z) :
  result_of (run_tests lower json_loads round4 w db min_score cases) = Exit c ->
  c = 1.
Proof.
  induction cases as [| [[q expected] desc] rest IH]; cbn [run_tests].
  - discriminate.
  - step_result.
    destruct (result_of (run_test _ _ _ _ _ _ _ _ _)) as [r | e | c'] eqn:Hr;
      cbn [obind]; try discriminate.
    + step_result.
      destruct (result_of (run_tests _ _ _ _ _ _ _)) as [rs | e | c'];
        cbn [obind]; try discriminate.
      intros [= <-]. now apply IH.
    + intros [= <-]. eapply run_test_exit, Hr.
Qed.

(** The loop over the test cases gives one dict for each test case. *)
Lemma run_tests_length
      (lower : string -> string) (json_loads : string -> answer (list float))
      (round4 : float -> float)
      (w : world) (db : connection) (min_score : float)
      (cases : list (string * string * string)) (rs : list result) :
  result_of (run_tests lower json_loads round4 w db min_score cases) = Return rs ->
  List.length rs = List.length cases.
Proof.
  revert rs. induction cases as [| [[q expected] desc] rest IH]; intros rs;
    cbn [run_tests].
  - intros [= <-]. reflexivity.
  - step_result.
    destruct (result_of (run_test _ _ _ _ _ _ _ _ _)) as [r | e | c];
      cbn [obind]; try discriminate.
    step_result.
    destruct (result_of (run_tests _ _ _ _ _ _ _)) as [rs' | e | c];
      cbn [obind]; try discriminate.
    step_result. intros [= <-]. cbn [List.length]. now rewrite (IH rs').
Qed.

Lemma for_each_no_exit {A : Type} (body : A -> io unit) (xs : list A) (c : Z) :
  (forall x c', result_of (body x) <> Exit c') ->
  result_of (for_each body xs) <> Exit c.
Proof.
  intros H. induction xs as [| x t IH]; cbn [for_each]; [discriminate |].
  rewrite result_bind. specialize (H x).
  destruct (result_of (body x)) as [[] | e | c']; cbn [obind];
    [exact IH | discriminate | now elim (H c')].
Qed.

(** The summary ends the process: with an exception of the chart or of
    the recommendation, or with the exit of its last statement. *)
Lemma main_summary_result (rs : list result) (min_score : float) :
  (exists e, result_of (main_summary rs min_score) = Raise e) \/
  result_of (main_summary rs min_score)
  = Exit (if (0 <? count_status "FAIL" rs)%nat then 1 else 0).
Proof.
  unfold main_summary. step_result.
  replace (result_of (if (0 <? count_status "skip" rs)%nat then _ else _))
    with (@Return unit tt)
    by (destruct (0 <? count_status "skip" rs)%nat; reflexivity).
  step_result.
  match goal with
  | |- context [obind (result_of ?block) _] =>
      assert ((exists e, result_of block = Raise e) \/ result_of block = Return tt)
        as [[e ->] | ->]
  end.
  { destruct (0 <? count_status "BELOW_THRESHOLD" rs)%nat; [| now right].
    step_result.
    destruct (omap item_top_score _) as [[| x xs] | e | c] eqn:Ho; cbn [obind];
      step_result; try (now right); [left; now exists e |].
    destruct (omap_exit _ _ _ Ho) as [r [_ Hr]].
    unfold item_top_score in Hr. destruct (top_score r); discriminate. }
  - left. now exists e.
  - step_result.
    match goal with
    | |- context [obind (result_of (for_each ?body ?xs)) _] =>
        pose proof (for_each_no_exit body xs) as Hne;
        destruct (result_of (for_each body xs)) as [[] | e | c]
    end; cbn [obind].
    + right. reflexivity.
    + left. now exists e.
    + elim (Hne c); [| reflexivity].
      intros r c'. step_result.
      destruct (flag_of (status r)) as [f | e | c''] eqn:Hf; cbn [obind].
      * destruct (Py.truthy (get_top_score r)); step_result; [| discriminate].
        destruct (py_int _) as [k | e | c''] eqn:Hk; cbn [obind]; try discriminate.
        unfold py_int in Hk. destruct (Prim2SF _); discriminate.
      * discriminate.
      * unfold flag_of in Hf.
        repeat match type of Hf with
               | (if ?b then _ else _) = _ => destruct b
               end; discriminate.
Qed.

(** A run either gets to the summary, or ends before it with an exception
    or with the exit status 1, and then without a suggestion. *)
Lemma main_with_before_summary
      (lower : string -> string) (json_loads : string -> answer (list float))
      (round4 : float -> float) (w : world) (min_score : float) :
  (path_exists w (DB_PATH (env w)) = true /\
   exists db chunk_count file_count rs,
     connect w (DB_PATH (env w)) = Ok db /\
     count_chunks db (SCOPE_PREFIX ++ "/%") = Ok chunk_count /\
     count_files db (SCOPE_PREFIX ++ "/%") = Ok file_count /\
     result_of (run_tests lower json_loads round4 w db min_score TEST_CASES)
     = Return rs) \/
  (Forall (fun l => is_suggestion l = false)
          (printed (main_with lower json_loads round4 w min_score)) /\
   ((exists e, result_of (main_with lower json_loads round4 w min_score) = Raise e) \/
    result_of (main_with lower json_loads round4 w min_score) = Exit 1)).
Proof.
  unfold main_with.
  destruct (path_exists w (DB_PATH (env w))); cbn [negb].
  2:{ right. split; [repeat constructor | right; reflexivity]. }
  destruct (connect w (DB_PATH (env w))) as [db | e].
  2:{ right. split; [repeat constructor | left; now exists e]. }
  cbn [of_answer].
  rewrite !bind_print. cbn [printed result_of fst snd].
  rewrite bind_ret, bind_lift. cbn beta iota.
  destruct (count_chunks db (SCOPE_PREFIX ++ "/%")) as [cc | e] eqn:Hcc;
    cbn [of_answer].
  2:{ right. split; [repeat constructor | left; now exists e]. }
  rewrite bind_lift. cbn beta iota.
  destruct (count_files db (SCOPE_PREFIX ++ "/%")) as [fc | e] eqn:Hfc;
    cbn [of_answer].
  2:{ right. split; [repeat constructor | left; now exists e]. }
  rewrite bind_lift. cbn beta iota.
  rewrite bind_print. cbn [printed result_of fst snd].
  pose proof (run_tests_no_suggestion lower json_loads round4 w db min_score
                TEST_CASES) as Hns.
  pose proof (run_tests_exit lower json_loads round4 w db min_score TEST_CASES)
    as Hex.
  destruct (run_tests lower json_loads round4 w db min_score TEST_CASES)
    as [out [rs | e | c]] eqn:Hrun.
  - left. split; [reflexivity |]. exists db, cc, fc, rs.
    repeat (split; [first [assumption | reflexivity] |]). now rewrite Hrun.
  - right. cbn [bind printed result_of fst snd]. split; [| left; now exists e].
    repeat (constructor; [reflexivity |]). exact Hns.
  - right. cbn [bind printed result_of fst snd].
    rewrite (Hex c eq_refl). split; [| right; reflexivity].
    repeat (constructor; [reflexivity |]). exact Hns.
Qed.

Lemma main_before_summary
      (lower : string -> string) (json_loads : string -> answer (list float))
      (round4 : float -> float) (float_of_str : string -> answer float)
      (w : world) :
  (exists min_score rs,
     reaches_summary lower json_loads round4 float_of_str w min_score rs) \/
  (Forall (fun l => is_suggestion l = false)
          (printed (main lower json_loads round4 float_of_str w)) /\
   ((exists e, result_of (main lower json_loads round4 float_of_str w) = Raise e) \/
    result_of (main lower json_loads round4 float_of_str w) = Exit 1)).
Proof.
  assert (forall min_score,
             match argv w with
             | _ :: a :: _ => float_of_str a = Ok min_score
             | _ => min_score = MIN_SCORE_DEFAULT
             end ->
             main lower json_loads round4 float_of_str w
             = main_with lower json_loads round4 w min_score) as Heq.
  { intros ms Harg. unfold main.
    destruct (argv w) as [| a0 [| a1 args]]; rewrite Harg; apply bind_ret. }
  assert (forall min_score,
             match argv w with
             | _ :: a :: _ => float_of_str a = Ok min_score
             | _ => min_score = MIN_SCORE_DEFAULT
             end ->
             (exists min_score rs,
                 reaches_summary lower json_loads round4 float_of_str w min_score rs) \/
             (Forall (fun l => is_suggestion l = false)
                     (printed (main lower json_loads round4 float_of_str w)) /\
              ((exists e, result_of (main lower json_loads round4 float_of_str w)
                          = Raise e) \/
               result_of (main lower json_loads round4 float_of_str w) = Exit 1)))
    as Hbody.
  { intros ms Harg. rewrite (Heq ms Harg).
    destruct (main_with_before_summary lower json_loads round4 w ms)
      as [[Hp [db [cc [fc [rs H]]]]] | H]; [left | right; exact H].
    exists ms, rs. split; [exact Harg |]. split; [exact Hp |].
    now exists db, cc, fc. }
  destruct (argv w) as [| a0 [| a1 args]] eqn:Hargv.
  - apply (Hbody MIN_SCORE_DEFAULT). reflexivity.
  - apply (Hbody MIN_SCORE_DEFAULT). reflexivity.
  - destruct (float_of_str a1) as [ms | e] eqn:Hf.
    + apply (Hbody ms). reflexivity.
    + right. unfold main. rewrite Hargv, Hf. cbn.
      split; [constructor | left; now exists e].
Qed.
(** ** How a run ends *)

(** X21: [main] does not fall off its end: the process ends by an exception or
    by [sys.exit], and its exit status is 0 or 1. *)
Theorem main_exit_status_0_or_1
        (lower : string -> string) (json_loads : string -> answer (list float))
        (round4 : float -> float) (float_of_str : string -> answer float)
        (w : world) :
  (forall u, result_of (main lower json_loads round4 float_of_str w) <> Return u) /\
  (exit_status (result_of (main lower json_loads round4 float_of_str w)) = 0 \/
   exit_status (result_of (main lower json_loads round4 float_of_str w)) = 1).
Proof.
  destruct (main_before_summary lower json_loads round4 float_of_str w)
    as [[ms [rs Hr]] | [_ [[e ->] | ->]]].
  - destruct (main_at_summary _ _ _ _ _ _ _ Hr) as [_ [out [_ ->]]].
    cbn [result_of snd].
    destruct (main_summary_result rs ms) as [[e ->] | ->].
    + split; [discriminate | now right].
    + split; [discriminate |].
      destruct (0 <? count_status "FAIL" rs)%nat; [now right | now left].
  - split; [discriminate | now right].
  - split; [discriminate | now right].
Qed.

(** X22: The exit status 0 is earned: a process that ends with status 0 has
    run every test case, through the summary, and none of them is FAIL. *)
Theorem exit_zero_means_no_fail
        (lower : string -> string) (json_loads : string -> answer (list float))
        (round4 : float -> float) (float_of_str : string -> answer float)
        (w : world) :
  exit_status (result_of (main lower json_loads round4 float_of_str w)) = 0 ->
  exists min_score rs,
    reaches_summary lower json_loads round4 float_of_str w min_score rs /\
    List.length rs = List.length TEST_CASES /\
    count_status "FAIL" rs = 0%nat /\
    result_of (main lower json_loads round4 float_of_str w) = Exit 0.
Proof.
  destruct (main_before_summary lower json_loads round4 float_of_str w)
    as [[ms [rs Hr]] | [_ [[e ->] | ->]]]; try discriminate.
  destruct (main_at_summary _ _ _ _ _ _ _ Hr) as [_ [out [_ Hm]]].
  rewrite Hm. cbn [result_of snd].
  destruct (main_summary_result rs ms) as [[e ->] | ->]; [discriminate |].
  intros Hs. exists ms, rs. split; [exact Hr |]. split.
  - destruct Hr as [_ [_ [db [cc [fc [_ [_ [_ Hrun]]]]]]]].
    eapply run_tests_length, Hrun.
  - destruct (0 <? count_status "FAIL" rs)%nat eqn:Hf; [discriminate Hs |].
    apply Nat.ltb_ge in Hf. split; [lia | reflexivity].
Qed.

Lemma exit_zero_means_no_fail_witness :
  exists min_score rs,
    reaches_summary ascii_lower json_loads_none py_round4 float_of_str_half
                    world_aligned min_score rs /\
    List.length rs = List.length TEST_CASES /\
    count_status "FAIL" rs = 0%nat /\
    result_of (main ascii_lower json_loads_none py_round4 float_of_str_half
                    world_aligned) = Exit 0.
Proof.
  apply (exit_zero_means_no_fail ascii_lower json_loads_none py_round4
           float_of_str_half world_aligned).
  vm_compute. reflexivity.
Defined.

(** X27: A threshold that the summary suggests is never below 0.15, and never
    a nan. *)
Theorem suggested_threshold_at_least
        (lower : string -> string) (json_loads : string -> answer (list float))
        (round4 : float -> float) (float_of_str : string -> answer float)
        (w : world) (t : float) :
  In (LSuggested t) (printed (main lower json_loads round4 float_of_str w)) ->
  (0.15 <=? t)%float = true.
Proof.
  destruct (main_before_summary lower json_loads round4 float_of_str w)
    as [[ms [rs Hr]] | [Hns _]].
  - destruct (main_at_summary _ _ _ _ _ _ _ Hr) as [Hwf [out [Hout ->]]].
    cbn [printed fst]. rewrite in_app_iff. intros [Hin | Hin].
    + rewrite Forall_forall in Hout. apply Hout in Hin. discriminate.
    + apply (main_summary_suggestion rs ms t Hwf) in Hin.
      destruct Hin as [_ [x [xs [_ ->]]]]. unfold Py.max.
      destruct (0.15 <? Py.min x xs - 0.05)%float eqn:Hlt.
      * now apply float_ltb_leb.
      * reflexivity.
  - intros Hin. rewrite Forall_forall in Hns. apply Hns in Hin. discriminate.
Qed.

Lemma suggested_threshold_at_least_witness :
  In (LSuggested 0.15%float)
     (printed (main ascii_lower json_loads_none py_round4 float_of_str_half
                    world_orthogonal)) /\
  (0.15 <=? 0.15)%float = true.
Proof.
  assert (In (LSuggested 0.15%float)
             (printed (main ascii_lower json_loads_none py_round4 float_of_str_half
                            world_orthogonal))) as Hin.
  { vm_compute. repeat (first [left; reflexivity | right]). }
  split; [exact Hin |].
  exact (suggested_threshold_at_least ascii_lower json_loads_none py_round4
           float_of_str_half world_orthogonal 0.15%float Hin).
Defined.

Lemma count_partition (rs : list result) :
  Forall well_formed rs ->
  (count_status "PASS" rs + count_status "FAIL" rs
   + count_status "BELOW_THRESHOLD" rs + count_status "skip" rs)%nat
  = List.length rs.
Proof.
  unfold count_status.
  induction 1 as [| r rs Hr _ IH]; [reflexivity |].
  cbn [filter List.length]. rewrite <- IH. clear IH.
  destruct Hr as [[-> _] | [Hs _]].
  - cbn [String.eqb Ascii.eqb Bool.eqb List.length]. lia.
  - cbn [In] in Hs. destruct Hs as [<- | [<- | [<- | []]]];
      cbn [String.eqb Ascii.eqb Bool.eqb List.length]; lia.
Qed.

(** X26: The four counts of the summary leave no test case out and count none
    twice: in a run that reaches the summary they add up to the number of
    test cases, one dict for each. *)
Theorem summary_counts_add_up
        (lower : string -> string) (json_loads : string -> answer (list float))
        (round4 : float -> float) (float_of_str : string -> answer float)
        (w : world) (min_score : float) (rs : list result) :
  reaches_summary lower json_loads round4 float_of_str w min_score rs ->
  List.length rs = List.length TEST_CASES /\
  (count_status "PASS" rs + count_status "FAIL" rs
   + count_status "BELOW_THRESHOLD" rs + count_status "skip" rs)%nat
  = List.length TEST_CASES /\
  In (LPass (count_status "PASS" rs) (List.length TEST_CASES))
     (printed (main lower json_loads round4 float_of_str w)) /\
  In (LFail (count_status "FAIL" rs) (List.length TEST_CASES))
     (printed (main lower json_loads round4 float_of_str w)) /\
  In (LBelow (count_status "BELOW_THRESHOLD" rs) (List.length TEST_CASES) min_score)
     (printed (main lower json_loads round4 float_of_str w)).
Proof.
  intros Hr.
  destruct (main_at_summary _ _ _ _ _ _ _ Hr) as [Hwf [out [_ ->]]].
  assert (List.length rs = List.length TEST_CASES) as Hlen.
  { destruct Hr as [_ [_ [db [cc [fc [_ [_ [_ Hrun]]]]]]]].
    eapply run_tests_length, Hrun. }
  split; [exact Hlen |]. split; [now rewrite count_partition |].
  cbn [printed fst]. rewrite <- Hlen. unfold main_summary.
  rewrite !bind_print. cbn [printed fst].
  repeat split; apply in_or_app; right; cbn [In]; tauto.
Qed.

Lemma summary_counts_add_up_witness :
  List.length results_orthogonal = List.length TEST_CASES /\
  (count_status "PASS" results_orthogonal + count_status "FAIL" results_orthogonal
   + count_status "BELOW_THRESHOLD" results_orthogonal
   + count_status "skip" results_orthogonal)%nat
  = List.length TEST_CASES.
Proof.
  assert (reaches_summary ascii_lower json_loads_none py_round4 float_of_str_half
                          world_orthogonal MIN_SCORE_DEFAULT results_orthogonal)
    as Hr.
  { split; [reflexivity |]. split; [reflexivity |].
    exists store_orthogonal, 1, 1.
    split; [reflexivity |]. split; [reflexivity |]. split; [reflexivity |].
    vm_compute. reflexivity. }
  destruct (summary_counts_add_up ascii_lower json_loads_none py_round4
              float_of_str_half world_orthogonal MIN_SCORE_DEFAULT
              results_orthogonal Hr) as [H1 [H2 _]].
  split; assumption.
Defined.
(** ** Runs that test nothing *)

Lemma run_tests_all_skipped
      (lower : string -> string) (json_loads : string -> answer (list float))
      (round4 : float -> float)
      (w : world) (db : connection) (min_score : float) (b : backend)
      (cases : list (string * string * string)) :
  selected_backend (env w) = Some b ->
  (forall q, exists reason,
      urlopen w (backend_url b) (backend_key (env w) b) q = Unreachable reason) ->
  result_of (run_tests lower json_loads round4 w db min_score cases)
  = Return (map (fun c => skipped (fst (fst c))) cases).
Proof.
  intros Hb Hu.
  induction cases as [| [[q expected] desc] rest IH]; cbn [run_tests map fst].
  - reflexivity.
  - step_result. rewrite run_test_result.
    assert (result_of (get_embedding w q) = Return []) as ->.
    { unfold get_embedding. rewrite Hb, bind_ret.
      destruct (Hu q) as [reason ->]. reflexivity. }
    cbn [obind]. step_result. rewrite IH. cbn [obind]. now step_result.
Qed.

(** X25: The exit status 0 does not tell that anything was tested: when the
    endpoint cannot be reached for any query, every test case is skipped,
    none is FAIL, and the process ends with status 0. *)
Theorem all_skipped_exit_zero
        (lower : string -> string) (json_loads : string -> answer (list float))
        (round4 : float -> float) (float_of_str : string -> answer float)
        (w : world) (min_score : float) (db : connection)
        (chunk_count file_count : Z) (b : backend) :
  match argv w with
  | _ :: a :: _ => float_of_str a = Ok min_score
  | _ => min_score = MIN_SCORE_DEFAULT
  end ->
  path_exists w (DB_PATH (env w)) = true ->
  connect w (DB_PATH (env w)) = Ok db ->
  count_chunks db (SCOPE_PREFIX ++ "/%") = Ok chunk_count ->
  count_files db (SCOPE_PREFIX ++ "/%") = Ok file_count ->
  selected_backend (env w) = Some b ->
  (forall q, exists reason,
      urlopen w (backend_url b) (backend_key (env w) b) q = Unreachable reason) ->
  reaches_summary lower json_loads round4 float_of_str w min_score
                  (map (fun c => skipped (fst (fst c))) TEST_CASES) /\
  In (LPass 0 10) (printed (main lower json_loads round4 float_of_str w)) /\
  In (LSkipped 10 10) (printed (main lower json_loads round4 float_of_str w)) /\
  result_of (main lower json_loads round4 float_of_str w) = Exit 0.
Proof.
  intros Harg Hp Hdb Hcc Hfc Hb Hu.
  assert (reaches_summary lower json_loads round4 float_of_str w min_score
                          (map (fun c => skipped (fst (fst c))) TEST_CASES)) as Hr.
  { split; [exact Harg |]. split; [exact Hp |].
    exists db, chunk_count, file_count.
    repeat (split; [assumption |]).
    now apply (run_tests_all_skipped lower json_loads round4 w db min_score b). }
  split; [exact Hr |].
  destruct (main_at_summary _ _ _ _ _ _ _ Hr) as [_ [out [_ ->]]].
  cbn [printed result_of fst snd].
  split; [| split].
  - apply in_or_app. right. vm_compute.
    repeat (first [left; reflexivity | right]).
  - apply in_or_app. right. vm_compute.
    repeat (first [left; reflexivity | right]).
  - vm_compute. reflexivity.
Qed.

Lemma all_skipped_exit_zero_witness :
  In (LSkipped 10 10)
     (printed (main ascii_lower json_loads_none py_round4 float_of_str_half
                    world_unreachable)) /\
  result_of (main ascii_lower json_loads_none py_round4 float_of_str_half
                  world_unreachable) = Exit 0.
Proof.
  destruct (all_skipped_exit_zero ascii_lower json_loads_none py_round4
              float_of_str_half world_unreachable MIN_SCORE_DEFAULT store_aligned
              1 1 OpenAI eq_refl eq_refl eq_refl eq_refl eq_refl eq_refl
              (fun q => ex_intro _ "[Errno 111] Connection refused" eq_refl))
    as [_ [_ [H1 H2]]].
  split; assumption.
Defined.

(** X20: Without the file of the store the run ends at once: after the header
    and the error line the process exits with status 1, before the store,
    the credentials or the endpoint are looked at. *)
Theorem missing_store_exit
        (lower : string -> string) (json_loads : string -> answer (list float))
        (round4 : float -> float) (float_of_str : string -> answer float)
        (w : world) (min_score : float) :
  match argv w with
  | _ :: a :: _ => float_of_str a = Ok min_score
  | _ => min_score = MIN_SCORE_DEFAULT
  end ->
  path_exists w (DB_PATH (env w)) = false ->
  main lower json_loads round4 float_of_str w
  = ([LTitle; LDb (DB_PATH (env w)); LScope SCOPE_PREFIX; LMinScore min_score;
      LModel EMBEDDING_MODEL; LTests 10; LDbMissing (DB_PATH (env w))],
     Exit 1).
Proof.
  intros Harg Hp.
  assert (main lower json_loads round4 float_of_str w
          = main_with lower json_loads round4 w min_score) as ->.
  { unfold main. destruct (argv w) as [| a0 [| a1 args]]; rewrite Harg;
      apply bind_ret. }
  unfold main_with. rewrite Hp. reflexivity.
Qed.

Lemma missing_store_exit_witness :
  main ascii_lower json_loads_none py_round4 float_of_str_half world_no_db
  = ([LTitle; LDb "/tmp/none.sqlite"; LScope SCOPE_PREFIX; LMinScore 0.5%float;
      LModel EMBEDDING_MODEL; LTests 10; LDbMissing "/tmp/none.sqlite"],
     Exit 1).
Proof.
  exact (missing_store_exit ascii_lower json_loads_none py_round4 float_of_str_half
           world_no_db 0.5%float eq_refl eq_refl).
Defined.
(** ** Sample runs of the searches and of the evaluator *)

Lemma search_fts_hits_witness :
  Forall2 (fun row r =>
             exists t, r = FtsHit t (fts_path row) (fts_start row, fts_end row)
                                  (fts_row_rank row) /\
                       (String.length t <= 200)%nat /\
                       String.prefix t (fts_text row) = true /\
                       (t = fts_text row \/ String.length t = 200%nat))
          fts_rows_ranked
          (search_fts store_ranked "I need a quote on CW paper" SCOPE_PREFIX MAX_RESULTS).
Proof.
  apply (search_fts_hits store_ranked "I need a quote on CW paper" SCOPE_PREFIX
           MAX_RESULTS fts_rows_ranked).
  reflexivity.
Defined.

Lemma search_vector_count_witness :
  List.length top2_ranked = Nat.min 2 (List.length (with_embedding chunks_ranked)).
Proof.
  apply (search_vector_count json_loads_none py_round4 store_ranked
           [1%float; 0%float] SCOPE_PREFIX 2 chunks_ranked top2_ranked).
  - reflexivity.
  - vm_compute. reflexivity.
Defined.

Lemma search_vector_sound_witness :
  exists row chunk_vec s,
    In row chunks_ranked /\
    sql_truthy (chunk_embedding row) = true /\
    blob_to_vec json_loads_none (chunk_embedding row) = Return chunk_vec /\
    cosine_similarity [1%float; 0%float] chunk_vec = Return s /\
    0.7071%float = py_round4 s /\
    "memory/customers/test-customer/training.md" = chunk_path row /\
    (3, 4) = (chunk_start row, chunk_end row) /\
    "Q: quote on CW paper? A: a quote takes two days"
    = str_take 200 (chunk_text row) /\
    (String.length "Q: quote on CW paper? A: a quote takes two days" <= 200)%nat.
Proof.
  apply (search_vector_sound json_loads_none py_round4 store_ranked
           [1%float; 0%float] SCOPE_PREFIX 2 chunks_ranked top2_ranked
           {| score := 0.7071%float;
              path := "memory/customers/test-customer/training.md";
              lines := (3, 4);
              text := "Q: quote on CW paper? A: a quote takes two days" |}).
  - reflexivity.
  - vm_compute. reflexivity.
  - right. left. reflexivity.
Defined.

Lemma search_vector_undecodable_row_witness :
  exists e,
    search_vector json_loads_none py_round4 store_corrupt [1%float; 0%float]
                  SCOPE_PREFIX MAX_RESULTS = Raise e.
Proof.
  apply (search_vector_undecodable_row json_loads_none py_round4 store_corrupt
           [1%float; 0%float] SCOPE_PREFIX MAX_RESULTS
           [chunk_at "Q: hop on a call? A: for money" 1 2
                     (SqlBlob [Byte.x00; Byte.x00; Byte.x80])]
           (chunk_at "Q: hop on a call? A: for money" 1 2
                     (SqlBlob [Byte.x00; Byte.x00; Byte.x80]))).
  - reflexivity.
  - now left.
  - reflexivity.
  - intros chunk_vec H. discriminate H.
Defined.

Lemma search_vector_ranked_witness :
  exists ranked,
    Permutation (List.concat scored_ranked) ranked /\
    StronglySorted score_ge ranked /\
    search_vector json_loads_none py_round4 store_ranked [1%float; 0%float]
                  SCOPE_PREFIX 2
    = Return (firstn 2 ranked).
Proof.
  apply (search_vector_ranked json_loads_none py_round4 store_ranked
           [1%float; 0%float] SCOPE_PREFIX 2 chunks_ranked scored_ranked).
  - reflexivity.
  - vm_compute. reflexivity.
  - repeat constructor.
Defined.

Lemma found_below_is_accurate_witness :
  0.35%float = MIN_SCORE_DEFAULT /\
  (MIN_SCORE_DEFAULT <=? 0)%float = false.
Proof.
  destruct (found_below_is_accurate ascii_lower json_loads_none py_round4
              world_orthogonal store_orthogonal
              "Can I get someone to hop on a call?" "money"
              "Hop on a call → for money (trained pair #1)" MIN_SCORE_DEFAULT
              0%float 0.35%float) as [H1 [H2 _]].
  - vm_compute. repeat (first [left; reflexivity | right]).
  - split; assumption.
Defined.

Lemma verdict_and_threshold_witness :
  exists r',
    result_of (run_test ascii_lower json_loads_none py_round4 world_ranked
                        store_ranked "I need a quote on CW paper" "quote"
                        "Quote request" 0.5%float)
    = Return r' /\
    (status r' = "skip" <->
     status {| status := "PASS"; query := "I need a quote on CW paper";
               top_score := Some 1%float; above_threshold := Some 2%nat;
               embed_ms := Some 120 |} = "skip") /\
    (status r' = "FAIL" <->
     status {| status := "PASS"; query := "I need a quote on CW paper";
               top_score := Some 1%float; above_threshold := Some 2%nat;
               embed_ms := Some 120 |} = "FAIL") /\
    ((0.5 <=? 0.7)%float = true ->
     status {| status := "PASS"; query := "I need a quote on CW paper";
               top_score := Some 1%float; above_threshold := Some 2%nat;
               embed_ms := Some 120 |} = "PASS" ->
     status r' = "PASS").
Proof.
  apply (verdict_and_threshold ascii_lower json_loads_none py_round4 world_ranked
           store_ranked "I need a quote on CW paper" "quote" "Quote request"
           0.7%float 0.5%float).
  vm_compute. reflexivity.
Defined.

Lemma top_score_is_best_witness :
  exists r top,
    result_of (run_test ascii_lower json_loads_none py_round4 world_ranked
                        store_ranked "I need a quote on CW paper" "quote"
                        "Quote request" MIN_SCORE_DEFAULT)
    = Return r /\
    top_score r = Some top /\
    Forall (fun s => (score s <=? top)%float = true) (List.concat scored_ranked) /\
    match List.concat scored_ranked with
    | [] => top = 0%float
    | _ :: _ => exists best, In best (List.concat scored_ranked) /\ score best = top
    end.
Proof.
  apply (top_score_is_best ascii_lower json_loads_none py_round4 world_ranked
           store_ranked "I need a quote on CW paper" "quote" "Quote request"
           MIN_SCORE_DEFAULT [] 1%float [0%float] chunks_ranked scored_ranked).
  - reflexivity.
  - reflexivity.
  - vm_compute. reflexivity.
  - repeat constructor.
Defined.

Lemma undecodable_embedding_raises_witness :
  exists e,
    result_of (run_test ascii_lower json_loads_none py_round4 world_aligned
                        store_corrupt "I need a quote on CW paper" "quote"
                        "Quote request" MIN_SCORE_DEFAULT)
    = Raise e.
Proof.
  apply (undecodable_embedding_raises ascii_lower json_loads_none py_round4
           world_aligned store_corrupt "I need a quote on CW paper" "quote"
           "Quote request" MIN_SCORE_DEFAULT [] 1%float [0%float]
           [chunk_at "Q: hop on a call? A: for money" 1 2
                     (SqlBlob [Byte.x00; Byte.x00; Byte.x80])]
           (chunk_at "Q: hop on a call? A: for money" 1 2
                     (SqlBlob [Byte.x00; Byte.x00; Byte.x80]))
           [Byte.x00; Byte.x00; Byte.x80]).
  - reflexivity.
  - reflexivity.
  - left. reflexivity.
  - reflexivity.
  - discriminate.
Defined.

Lemma unreachable_is_skipped_witness :
  get_embedding world_unreachable "I need a quote on CW paper"
  = ([LEmbeddingError "[Errno 111] Connection refused"], Return []) /\
  result_of (run_test ascii_lower json_loads_none py_round4 world_unreachable
                      store_aligned "I need a quote on CW paper" "quote"
                      "Quote request" MIN_SCORE_DEFAULT)
  = Return (skipped "I need a quote on CW paper").
Proof.
  apply (unreachable_is_skipped ascii_lower json_loads_none py_round4
           world_unreachable store_aligned "I need a quote on CW paper" "quote"
           "Quote request" MIN_SCORE_DEFAULT OpenAI
           "[Errno 111] Connection refused").
  - reflexivity.
  - reflexivity.
Defined.

Lemma main_exit_code_witness :
  result_of (main ascii_lower json_loads_none py_round4 float_of_str_half
                  world_aligned)
  = Exit (if (0 <? count_status "FAIL" results_aligned)%nat then 1 else 0).
Proof.
  apply (main_exit_code ascii_lower json_loads_none py_round4 float_of_str_half
           world_aligned MIN_SCORE_DEFAULT results_aligned).
  - split; [reflexivity |]. split; [reflexivity |].
    exists store_aligned, 1, 1.
    split; [reflexivity |]. split; [reflexivity |]. split; [reflexivity |].
    vm_compute. reflexivity.
  - repeat constructor.
Defined.
(** ** Reading a buffer and writing it back *)

(** Rounding leaves a significand and an exponent in canonical form as they
    are. *)
Lemma binary_round_aux_bounded (s : bool) (m : positive) (e : Z) :
  bounded prec emax m e = true ->
  binary_round_aux prec emax s (Zpos m) e loc_Exact = S754_finite s m e.
Proof.
  unfold bounded, canonical_mantissa. rewrite andb_true_iff, Z.eqb_eq, Z.leb_le.
  intros [Hc He].
  unfold binary_round_aux, shr_fexp.
  change (Zdigits2 (Z.pos m)) with (Z.pos (digits2_pos m)).
  rewrite Hc, Z.sub_diag. cbn [shr shr_record_of_loc shr_m loc_of_shr_record
                               round_nearest_even].
  change (Zdigits2 (Z.pos m)) with (Z.pos (digits2_pos m)).
  rewrite Hc, Z.sub_diag. cbn [shr shr_record_of_loc shr_m].
  apply Z.leb_le in He. now rewrite He.
Qed.

Lemma binary_round_bounded (s : bool) (m : positive) (e : Z) :
  bounded prec emax m e = true ->
  binary_round prec emax s m e = S754_finite s m e.
Proof.
  intros Hb. unfold binary_round, shl_align.
  pose proof Hb as Hb'. unfold bounded, canonical_mantissa in Hb'.
  rewrite andb_true_iff, Z.eqb_eq in Hb'. destruct Hb' as [Hc _].
  rewrite Hc, Z.sub_diag. now apply binary_round_aux_bounded.
Qed.

Lemma bounded_53 (m : positive) (e : Z) :
  Z.log2 (Zpos m) = 52 -> -1074 <= e <= 971 -> bounded prec emax m e = true.
Proof.
  intros Hd He. unfold bounded, canonical_mantissa.
  change (Z.pos (digits2_pos m)) with (Zdigits2 (Z.pos m)).
  rewrite Zdigits2_log2, Hd, fexp_binary64.
  apply andb_true_iff. split; [apply Z.eqb_eq; lia | apply Z.leb_le].
  change (emax - prec) with 971. lia.
Qed.

(** A significand of at most 53 bits is shifted to 53 bits. *)
Lemma binary_round_shift (s : bool) (m : positive) (e : Z) :
  let d := Z.log2 (Zpos m) + 1 in
  d <= 53 -> -1074 <= e + d - 53 <= 971 ->
  exists m', Zpos m' = Zpos m * 2 ^ (53 - d) /\
             binary_round prec emax s m e = S754_finite s m' (e + d - 53).
Proof.
  intros d Hd He.
  destruct (Z.eq_dec d 53) as [E | Hne].
  - exists m. rewrite E, Z.sub_diag, Z.mul_1_r. split; [reflexivity |].
    replace (e + 53 - 53) with e by lia.
    apply binary_round_bounded, bounded_53; subst d; lia.
  - unfold binary_round, shl_align.
    change (Z.pos (digits2_pos m)) with (Zdigits2 (Z.pos m)).
    rewrite Zdigits2_log2, fexp_binary64. fold d.
    replace (Z.max (d + e - 53) (-1074) - e) with (d - 53) by lia.
    destruct (d - 53) as [| p | p] eqn:Hp; try lia.
    fold (shift_pos p m).
    assert (Z.pos (shift_pos p m) = Z.pos m * 2 ^ (53 - d)) as Hm.
    { rewrite shift_pos_correct, Z.pow_pos_fold.
      replace (53 - d) with (Z.pos p) by lia. lia. }
    exists (shift_pos p m). split; [exact Hm |].
    replace (Z.max (d + e - 53) (-1074)) with (e + d - 53) by lia.
    apply binary_round_aux_bounded, bounded_53; [| lia].
    rewrite Hm, Z.log2_mul_pow2 by lia. subst d. lia.
Qed.

(** The float of a significand of at most 53 bits and an exponent in
    range, in canonical form. *)
Lemma Prim2SF_SF2Prim_finite (s : bool) (m : positive) (e : Z) :
  let d := Z.log2 (Zpos m) + 1 in
  d <= 53 -> -1074 <= e + d - 53 <= 971 ->
  exists m', Zpos m' = Zpos m * 2 ^ (53 - d) /\
             Prim2SF (SF2Prim (S754_finite s m e)) = S754_finite s m' (e + d - 53).
Proof.
  intros d Hd He.
  assert (0 <= Z.log2 (Z.pos m)) as Hlog0 by apply Z.log2_nonneg.
  assert (Z.pos m < 2 ^ 53) as Hm.
  { pose proof (Z.log2_spec (Z.pos m) ltac:(lia)) as [_ H].
    eapply Z.lt_le_trans; [exact H |]. apply Z.pow_le_mono_r; lia. }
  destruct (binary_round_shift false m 0 Hd ltac:(fold d; lia)) as [m1 [Hm1 Hr1]].
  fold d in Hm1, Hr1.
  assert (Z.log2 (Z.pos m1) = 52) as Hlog
      by (rewrite Hm1, Z.log2_mul_pow2 by lia; subst d; lia).
  assert (Prim2SF (Z.ldexp (of_uint63 (Uint63Axioms.of_Z (Z.pos m))) e)
          = S754_finite false m1 (e + d - 53)) as Hpos.
  { rewrite Z_ldexp_spec, of_uint63_spec, Uint63.of_Z_spec.
    rewrite Z.mod_small
      by (split; [lia |]; eapply Z.lt_trans; [exact Hm |]; reflexivity).
    cbn [binary_normalize]. rewrite Hr1. cbn [SFldexp].
    replace (0 + d - 53 + e) with (e + d - 53) by lia.
    apply binary_round_bounded, bounded_53; [exact Hlog | lia]. }
  exists m1. split; [exact Hm1 |].
  cbn [SF2Prim]. destruct s; [| exact Hpos].
  rewrite opp_spec, Hpos. reflexivity.
Qed.
Lemma round_even_exact (m k : Z) :
  0 <= m -> 0 < k -> Struct.round_even (m * 2 ^ k) k = m.
Proof.
  intros Hm Hk. unfold Struct.round_even.
  rewrite Z.shiftr_div_pow2, Z.div_mul by lia.
  rewrite !Z.shiftl_mul_pow2 by lia. rewrite Z.sub_diag, Z.mul_1_l.
  assert (0 < 2 ^ (k - 1)) as Hh by (apply Z.pow_pos_nonneg; lia).
  destruct (Z.ltb_spec (2 ^ (k - 1)) 0) as [H | _]; [lia |].
  destruct (Z.eqb_spec (2 ^ (k - 1)) 0) as [H | _]; [lia | reflexivity].
Qed.

(** The pattern of a number that binary32 holds exactly: [m] has at most
    24 bits, and exactly 24 unless [e] is the exponent of the subnormals. *)
Lemma magnitude32_exact (m' : positive) (m e k : Z) :
  Zpos m' = m * 2 ^ k -> 0 < m -> 29 <= k ->
  Z.log2 m + 1 + k = 53 ->
  -149 <= e -> (Z.log2 m + 1 = 24 \/ e = -149) ->
  Struct.magnitude32 m' (e - k) = (e + 149) * 2 ^ 23 + m.
Proof.
  intros Hm' Hm Hk Hd He Hcase. unfold Struct.magnitude32.
  rewrite Hm', Z.log2_mul_pow2 by lia.
  replace (Z.max (k + Z.log2 m + 1 + (e - k) - 24) (-149)) with e by lia.
  destruct (Z.leb_spec e (e - k)) as [H | _]; [lia |].
  replace (e - (e - k)) with k by lia.
  now rewrite round_even_exact by lia.
Qed.

(** The three fields of a pattern. *)
Lemma fields32 (w : Z) :
  0 <= w < 2 ^ 32 ->
  let E := Z.land (Z.shiftr w 23) 255 in
  let M := Z.land w (2 ^ 23 - 1) in
  w = Struct.sign32 (Z.testbit w 31) + E * 2 ^ 23 + M /\
  0 <= E <= 255 /\ 0 <= M < 2 ^ 23.
Proof.
  intros Hw E M. subst E M.
  change 255 with (Z.ones 8). change (2 ^ 23 - 1) with (Z.ones 23).
  rewrite !Z.land_ones, Z.shiftr_div_pow2 by lia.
  rewrite Z.testbit_eqb by lia. unfold Struct.sign32.
  replace (w / 2 ^ 31) with (w / 2 ^ 23 / 2 ^ 8)
    by (rewrite Z.div_div by lia; reflexivity).
  change (2 ^ 32) with 4294967296 in Hw.
  change (2 ^ 31) with 2147483648. change (2 ^ 23) with 8388608.
  change (2 ^ 8) with 256.
  pose proof (Z.div_mod w 8388608 ltac:(lia)) as H1.
  pose proof (Z.mod_pos_bound w 8388608 ltac:(lia)) as H2.
  set (q := w / 8388608) in *. set (r := w mod 8388608) in *.
  assert (0 <= q < 512) as Hq by lia.
  pose proof (Z.div_mod q 256 ltac:(lia)) as H3.
  pose proof (Z.mod_pos_bound q 256 ltac:(lia)) as H4.
  set (q' := q / 256) in *. set (r' := q mod 256) in *.
  assert (q' = 0 \/ q' = 1) as [Hq' | Hq'] by lia; rewrite Hq' in *.
  - change (0 mod 2 =? 1) with false. change (Z.ones 8) with 255.
    cbv iota. clearbody q r q' r'. lia.
  - change (1 mod 2 =? 1) with true. change (Z.ones 8) with 255.
    cbv iota. clearbody q r q' r'. lia.
Qed.

Lemma log2_24 (M : Z) : 0 <= M < 2 ^ 23 -> Z.log2 (2 ^ 23 + M) = 23.
Proof.
  intros HM. apply Z.log2_unique; [lia |].
  change (2 ^ 23) with 8388608 in *. change (2 ^ (23 + 1)) with 16777216. lia.
Qed.

(** A pattern that is read and written back is the same pattern. *)
Lemma pack_unpack_f (w : Z) :
  stable_pattern w -> Struct.pack_f (Struct.unpack_f w) = Return w.
Proof.
  intros [Hw Hnan].
  destruct (fields32 w Hw) as [Hfields [HE HM]].
  revert Hnan Hfields HE HM. unfold Struct.unpack_f, nan_pattern.
  set (E := Z.land (Z.shiftr w 23) 255). set (M := Z.land w (2 ^ 23 - 1)).
  set (s := Z.testbit w 31).
  intros Hnan Hfields HE HM.
  destruct (Z.eqb_spec E 255) as [E255 | E255].
  - destruct (Z.eqb_spec M 0) as [M0 | M0]; cbn [andb negb] in Hnan.
    + unfold Struct.pack_f. rewrite Prim2SF_SF2Prim by reflexivity.
      rewrite Hfields, E255, M0. unfold Struct.inf32. f_equal. lia.
    + rewrite (Hnan eq_refl). reflexivity.
  - destruct (Z.eqb_spec E 0) as [E0 | E0].
    + destruct M as [| p | p] eqn:HMp; try lia.
      * unfold Struct.pack_f. rewrite Prim2SF_SF2Prim by reflexivity.
        rewrite Hfields, E0. f_equal. lia.
      * assert (Z.log2 (Z.pos p) < 23) as Hlog
            by (apply Z.log2_lt_pow2; lia).
        pose proof (Z.log2_nonneg (Z.pos p)) as Hlog0.
        destruct (Prim2SF_SF2Prim_finite s p (-149)) as [m' [Hm' Hsf]];
          [lia | lia |].
        unfold Struct.pack_f. rewrite Hsf.
        replace (-149 + (Z.log2 (Z.pos p) + 1) - 53)
          with (-149 - (53 - (Z.log2 (Z.pos p) + 1))) by lia.
        rewrite (magnitude32_exact m' (Z.pos p) (-149)
                   (53 - (Z.log2 (Z.pos p) + 1)) Hm')
          by lia.
        unfold Struct.inf32.
        destruct (Z.leb_spec (255 * 2 ^ 23) ((-149 + 149) * 2 ^ 23 + Z.pos p))
          as [H | _]; [lia |].
        rewrite Hfields, E0. f_equal. lia.
    + destruct (2 ^ 23 + M) as [| p | p] eqn:Hp; try lia.
      assert (Z.log2 (Z.pos p) = 23) as Hlog
          by (rewrite <- Hp; now apply log2_24).
      destruct (Prim2SF_SF2Prim_finite s p (E - 150)) as [m' [Hm' Hsf]];
        [lia | lia |].
      unfold Struct.pack_f. rewrite Hsf, Hlog.
      replace (E - 150 + (23 + 1) - 53) with (E - 150 - 29) by lia.
      rewrite Hlog in Hm'.
      rewrite (magnitude32_exact m' (Z.pos p) (E - 150) 29 Hm') by lia.
      unfold Struct.inf32.
      destruct (Z.leb_spec (255 * 2 ^ 23) ((E - 150 + 149) * 2 ^ 23 + Z.pos p))
        as [H | _]; [lia |].
      rewrite Hfields. f_equal. lia.
Qed.

(** A value that [struct] has written is read and written back the same. *)
Lemma pack_f_stable (x : float) (w : Z) :
  Struct.pack_f x = Return w -> stable_pattern w.
Proof.
  intros Hx. split; [eapply pack_f_range, Hx |].
  pose proof (pack_f_range x w Hx) as Hw.
  revert Hx. unfold Struct.pack_f.
  destruct (Prim2SF x) as [s | s | | s m e].
  - intros [= <-]. destruct s; vm_compute; discriminate.
  - intros [= <-]. destruct s; vm_compute; discriminate.
  - intros [= <-]. reflexivity.
  - pose proof (magnitude32_nonneg m e) as Hb.
    destruct (Z.leb_spec Struct.inf32 (Struct.magnitude32 m e)) as [H | Hlt];
      [discriminate |].
    intros [= Hw']. unfold nan_pattern. intros Hn.
    apply andb_true_iff in Hn. destruct Hn as [Hn _]. apply Z.eqb_eq in Hn.
    destruct (fields32 w Hw) as [Hf [_ HM]]. rewrite Hn in Hf.
    exfalso. revert Hf Hw' Hlt Hb HM.
    generalize (Z.land w (2 ^ 23 - 1)) (Struct.magnitude32 m e).
    unfold Struct.sign32, Struct.inf32.
    change (2 ^ 31) with 2147483648. change (2 ^ 23) with 8388608.
    intros M b. destruct s, (Z.testbit w 31); lia.
Qed.

Lemma omap_pack_unpack (ws : list Z) :
  Forall stable_pattern ws ->
  omap Struct.pack_f (map Struct.unpack_f ws) = Return ws.
Proof.
  induction 1 as [| w ws Hw _ IH]; [reflexivity |].
  cbn [map omap]. now rewrite (pack_unpack_f w Hw), IH.
Qed.

Lemma flat_map_words (n : nat) (b : list byte) :
  List.length b = (4 * n)%nat ->
  flat_map (le_split 4) (Struct.words n b) = b /\
  Forall (fun w => 0 <= w < 2 ^ 32) (Struct.words n b).
Proof.
  revert b. induction n as [| n IH]; intros b Hlen; cbn [Struct.words flat_map].
  - destruct b; [split; [reflexivity | constructor] | discriminate].
  - assert (List.length (firstn 4 b) = 4%nat) as H4
        by (rewrite length_firstn; lia).
    destruct (IH (skipn 4 b)) as [Hflat Hrange]; [rewrite length_skipn; lia |].
    split.
    + rewrite Hflat, (split_le_combine' _ 4 H4). apply firstn_skipn.
    + constructor; [| exact Hrange].
      pose proof (le_combine_bound (firstn 4 b)) as Hb. rewrite H4 in Hb.
      exact Hb.
Qed.

(** X5: Every buffer of whole floats without nan payloads is a fixed point of
    the codec: [blob_to_vec] decodes it, and [vec_to_blob] of the decoded
    vector gives the bytes of the buffer again. *)
Theorem blob_decode_encode
        (json_loads : string -> answer (list float)) (b : list byte) :
  (List.length b mod 4)%nat = 0%nat ->
  Forall (fun w => nan_pattern w = true -> w = Struct.nan32)
         (Struct.words (List.length b / 4) b) ->
  exists vec,
    blob_to_vec json_loads (SqlBlob b) = Return vec /\
    List.length vec = (List.length b / 4)%nat /\
    vec_to_blob vec = Return b.
Proof.
  intros Hmod Hnan.
  assert (List.length b = (4 * (List.length b / 4))%nat) as Hlen
      by (pose proof (Nat.div_mod_eq (List.length b) 4); lia).
  destruct (flat_map_words _ _ Hlen) as [Hflat Hrange].
  exists (map Struct.unpack_f (Struct.words (List.length b / 4) b)).
  split; [| split].
  - cbn [blob_to_vec]. unfold Struct.unpack.
    now rewrite <- Hlen, Nat.eqb_refl.
  - now rewrite length_map, words_length.
  - unfold vec_to_blob, Struct.pack. rewrite omap_pack_unpack.
    + cbn [obind]. now rewrite Hflat.
    + rewrite Forall_forall in *. intros w Hw. split; auto.
Qed.

(** X6: What [vec_to_blob] has written is stable: reading the buffer and
    writing the vector read gives the same bytes again. *)
Theorem blob_encode_stable
        (json_loads : string -> answer (list float))
        (vec : list float) (blob : list byte) :
  vec_to_blob vec = Return blob ->
  exists vec',
    blob_to_vec json_loads (SqlBlob blob) = Return vec' /\
    vec_to_blob vec' = Return blob.
Proof.
  unfold vec_to_blob at 1. unfold Struct.pack.
  destruct (omap Struct.pack_f vec) as [ws | e | c] eqn:Hws; cbn [obind];
    try discriminate.
  intros [= <-].
  assert (Forall stable_pattern ws) as Hst.
  { rewrite Forall_forall. intros w Hw.
    destruct (omap_in _ _ _ _ Hws Hw) as [x [_ Hx]].
    eapply pack_f_stable, Hx. }
  assert (Forall (fun w => 0 <= w < 2 ^ 32) ws) as Hrange
      by (eapply Forall_impl; [| exact Hst]; now intros w [Hw _]).
  exists (map Struct.unpack_f ws). split.
  - cbn [blob_to_vec]. unfold Struct.unpack.
    rewrite length_flat_map_le_split.
    replace (4 * List.length ws / 4)%nat with (List.length ws)
      by (rewrite Nat.mul_comm, Nat.div_mul; lia).
    now rewrite Nat.eqb_refl, words_flat_map_le_split.
  - unfold vec_to_blob, Struct.pack. now rewrite omap_pack_unpack.
Qed.
(** ** The floats that [struct] refuses *)

Lemma round_even_spec (m k : Z) :
  0 <= m -> 0 < k ->
  let q := m / 2 ^ k in
  let r := m mod 2 ^ k in
  (r < 2 ^ (k - 1) -> Struct.round_even m k = q) /\
  (2 ^ (k - 1) < r -> Struct.round_even m k = q + 1) /\
  (r = 2 ^ (k - 1) -> Struct.round_even m k = if Z.odd q then q + 1 else q).
Proof.
  intros Hm Hk q r. unfold Struct.round_even.
  rewrite Z.shiftr_div_pow2, !Z.shiftl_mul_pow2 by lia. rewrite Z.mul_1_l.
  fold q.
  assert (m - q * 2 ^ k = r) as ->.
  { subst q r. rewrite Z.mod_eq by (apply Z.pow_nonzero; lia). lia. }
  repeat split; intros Hr.
  - destruct (Z.ltb_spec (2 ^ (k - 1)) r) as [H | _]; [lia |].
    destruct (Z.eqb_spec (2 ^ (k - 1)) r) as [H | _]; [lia | reflexivity].
  - destruct (Z.ltb_spec (2 ^ (k - 1)) r) as [_ | H]; [reflexivity | lia].
  - destruct (Z.ltb_spec (2 ^ (k - 1)) r) as [H | _]; [lia |].
    destruct (Z.eqb_spec (2 ^ (k - 1)) r) as [_ | H]; [| lia].
    cbn [orb andb]. reflexivity.
Qed.

Lemma round_even_bounds (m k : Z) :
  0 <= m -> 0 < k ->
  m / 2 ^ k <= Struct.round_even m k <= m / 2 ^ k + 1.
Proof.
  intros Hm Hk. unfold Struct.round_even.
  rewrite Z.shiftr_div_pow2 by lia. destruct (_ || _); lia.
Qed.

(** The significand and the exponent of a float: 53 bits, or fewer with
    the least exponent. *)
Lemma bounded_canonical (m : positive) (e : Z) :
  bounded prec emax m e = true ->
  Z.log2 (Zpos m) + 1 <= 53 /\ (Z.log2 (Zpos m) + 1 = 53 \/ e = -1074) /\ e <= 971.
Proof.
  unfold bounded, canonical_mantissa.
  change (Z.pos (digits2_pos m)) with (Zdigits2 (Z.pos m)).
  rewrite Zdigits2_log2, fexp_binary64, andb_true_iff, Z.eqb_eq, Z.leb_le.
  change (emax - prec) with 971. lia.
Qed.

(** Where the rounding to binary32 leaves the range. *)
Lemma magnitude32_overflow (m : positive) (e : Z) :
  bounded prec emax m e = true ->
  Struct.inf32 <= Struct.magnitude32 m e <->
  75 < e \/ (e = 75 /\ 2 ^ 53 - 2 ^ 28 <= Zpos m).
Proof.
  intros Hb. destruct (bounded_canonical m e Hb) as [Hd [Hcase He]].
  pose proof (Z.log2_spec (Z.pos m) ltac:(lia)) as [Hlo Hhi].
  pose proof (Z.log2_nonneg (Z.pos m)) as Hlog0.
  unfold Struct.magnitude32, Struct.inf32.
  set (d := Z.log2 (Z.pos m) + 1) in *.
  replace (Z.succ (Z.log2 (Z.pos m))) with d in Hhi by (subst d; lia).
  assert (Z.pos m < 2 ^ 53) as Hm53
      by (eapply Z.lt_le_trans; [exact Hhi | apply Z.pow_le_mono_r; lia]).
  destruct (Z.leb_spec (Z.max (d + e - 24) (-149)) e) as [Hle | Hgt]; [lia |].
  destruct (Z.le_gt_cases (d + e - 24) (-149)) as [Hsmall | Hbig].
  - (* below the normal numbers of binary32 *)
    replace (Z.max (d + e - 24) (-149)) with (-149) by lia.
    assert (29 <= -149 - e) as Hk by lia.
    pose proof (round_even_bounds (Z.pos m) (-149 - e) ltac:(lia) ltac:(lia))
      as [_ Hq].
    assert (Z.pos m / 2 ^ (-149 - e) < 2 ^ 24) as Hq0.
    { apply Z.div_lt_upper_bound; [apply Z.pow_pos_nonneg; lia |].
      eapply Z.lt_le_trans; [exact Hm53 |].
      rewrite <- Z.pow_add_r by lia. apply Z.pow_le_mono_r; lia. }
    change (2 ^ 24) with 16777216 in Hq0. change (2 ^ 23) with 8388608.
    split; [lia |]. intros [H | [H _]]; lia.
  - (* a normal number of binary32 *)
    assert (d = 53) as Hd53 by lia.
    replace (Z.max (d + e - 24) (-149)) with (e + 29) by lia.
    replace (e + 29 - e) with 29 by lia.
    rewrite Hd53 in Hhi. subst d.
    assert (2 ^ 52 <= Z.pos m) as Hm52
        by (replace 52 with (Z.log2 (Z.pos m)) by lia; exact Hlo).
    destruct (round_even_spec (Z.pos m) 29 ltac:(lia) ltac:(lia))
      as [Hdown [Hup Htie]].
    pose proof (round_even_bounds (Z.pos m) 29 ltac:(lia) ltac:(lia)) as Hq.
    pose proof (Z.div_mod (Z.pos m) (2 ^ 29) ltac:(lia)) as Hdm.
    pose proof (Z.mod_pos_bound (Z.pos m) (2 ^ 29) ltac:(lia)) as Hr.
    revert Hdown Hup Htie Hq Hdm Hr.
    generalize (Struct.round_even (Z.pos m) 29).
    generalize (Z.pos m / 2 ^ 29) (Z.pos m mod 2 ^ 29).
    change (2 ^ (29 - 1)) with 268435456. change (2 ^ 29) with 536870912.
    change (2 ^ 23) with 8388608. change (2 ^ 28) with 268435456.
    change (2 ^ 53) with 9007199254740992 in *.
    change (2 ^ 52) with 4503599627370496 in *.
    intros q r q' Hdown Hup Htie Hq Hdm Hr.
    destruct (Z.lt_trichotomy e 75) as [H75 | [H75 | H75]].
    + split; [lia | intros [H | [H _]]; lia].
    + subst e.
      destruct (Z.lt_trichotomy r 268435456) as [Hlt | [Heq | Hgt']].
      * rewrite (Hdown Hlt) in *. split; [lia | intros [H | [_ H]]; lia].
      * assert (q = 16777215 \/ q < 16777215) as [Hq1 | Hq1] by lia.
        -- rewrite (Htie Heq), Hq1. change (Z.odd 16777215) with true.
           cbv iota. split; [intros _; right; lia | lia].
        -- split; [lia | intros [H | [_ H]]; lia].
      * rewrite (Hup Hgt') in *. split; [intros H; right; lia |].
        intros [H | [_ H]]; lia.
    + split; [intros _; now left | lia].
Qed.

Lemma overflows_finite (x : float) (s : bool) (m : positive) (e : Z) :
  Prim2SF x = S754_finite s m e ->
  overflows x = true <-> 75 < e \/ (e = 75 /\ 2 ^ 53 - 2 ^ 28 <= Zpos m).
Proof.
  intros Hx. unfold overflows.
  rewrite andb_true_iff, leb_key, ltb_key, abs_spec, Hx.
  cbn [SFabs SFkey].
  change (SFkey (Prim2SF overflow32)) with (Some (1, 75, 9007198986305536)).
  change (SFkey (Prim2SF infinity)) with (Some (2, 0, 0)).
  change (2 ^ 53 - 2 ^ 28) with 9007198986305536.
  split.
  - intros [[k [k' [[= <-] [[= <-] Hk]]]] _]. cbn [key_le] in Hk. lia.
  - intros H. split; do 2 eexists; (split; [reflexivity |]);
      (split; [reflexivity |]); cbn [key_le key_lt]; lia.
Qed.

Lemma overflows_not_finite (x : float) :
  match Prim2SF x with S754_finite _ _ _ => False | _ => True end ->
  overflows x = false.
Proof.
  intros Hx. unfold overflows.
  destruct ((overflow32 <=? abs x)%float && (abs x <? infinity)%float) eqn:Ho;
    [| reflexivity].
  exfalso. revert Ho.
  rewrite andb_true_iff, leb_key, ltb_key, abs_spec.
  change (SFkey (Prim2SF overflow32)) with (Some (1, 75, 9007198986305536)).
  change (SFkey (Prim2SF infinity)) with (Some (2, 0, 0)).
  destruct (Prim2SF x) as [s | s | | s m e]; cbn [SFabs SFkey];
    try contradiction.
  - intros [[k [k' [[= <-] [[= <-] Hk]]]] _]. cbn [key_le] in Hk. lia.
  - intros [_ [k [k' [[= <-] [[= <-] Hk]]]]]. cbn [key_lt] in Hk. lia.
  - intros [[k [k' [_ [H _]]]] _]. discriminate H.
Qed.

(** The floats that [struct.pack] refuses with the format f are the finite
    floats of magnitude [2^128 - 2^103] at least; every other float, nan
    and the infinities included, is packed. *)
Lemma pack_f_overflow_iff (x : float) :
  Struct.pack_f x = Raise OverflowError <-> overflows x = true.
Proof.
  pose proof (Prim2SF_valid x) as Hv.
  destruct (Prim2SF x) as [s | s | | s m e] eqn:Hx.
  - rewrite overflows_not_finite by now rewrite Hx.
    unfold Struct.pack_f. rewrite Hx. split; discriminate.
  - rewrite overflows_not_finite by now rewrite Hx.
    unfold Struct.pack_f. rewrite Hx. split; discriminate.
  - rewrite overflows_not_finite by now rewrite Hx.
    unfold Struct.pack_f. rewrite Hx. split; discriminate.
  - rewrite (overflows_finite x s m e Hx), <- (magnitude32_overflow m e Hv).
    unfold Struct.pack_f. rewrite Hx.
    destruct (Z.leb_spec Struct.inf32 (Struct.magnitude32 m e)) as [H | H].
    + split; [intros _; exact H | reflexivity].
    + split; [discriminate | lia].
Qed.

(** X4: [vec_to_blob] serializes a vector exactly when none of its elements
    is a finite float of magnitude [2^128 - 2^103] (about 3.4028235678e38)
    or more: up to there a float is rounded to binary32, from there on
    [struct.pack] raises OverflowError. *)
Theorem vec_to_blob_returns_iff (vec : list float) :
  (exists blob, vec_to_blob vec = Return blob) <->
  Forall (fun x => overflows x = false) vec.
Proof.
  unfold vec_to_blob, Struct.pack. split.
  - intros [blob H].
    destruct (omap Struct.pack_f vec) as [ws | e | c] eqn:Hws; cbn [obind] in H;
      try discriminate.
    assert (exists ws, omap Struct.pack_f vec = Return ws) as Hret by now exists ws.
    apply omap_returns in Hret. eapply Forall_impl; [| exact Hret].
    intros x [w Hw]. destruct (overflows x) eqn:Ho; [| reflexivity].
    apply pack_f_overflow_iff in Ho. rewrite Ho in Hw. discriminate.
  - intros Hall.
    assert (exists ws, omap Struct.pack_f vec = Return ws) as [ws ->].
    { apply omap_returns. eapply Forall_impl; [| exact Hall].
      intros x Ho. pose proof (pack_f_outcome x) as Hout.
      destruct (Struct.pack_f x) as [w | e | c] eqn:Hp;
        [now exists w | | contradiction].
      destruct Hout as [-> _]. apply pack_f_overflow_iff in Hp.
      cbv beta in Ho. congruence. }
    cbn [obind]. eexists; reflexivity.
Qed.
(** ** Where the summary can fail *)

Lemma for_each_raise {A : Type} (body : A -> io unit) (xs : list A) (e : exn) :
  result_of (for_each body xs) = Raise e ->
  exists x, In x xs /\ result_of (body x) = Raise e.
Proof.
  induction xs as [| x t IH]; cbn [for_each]; [discriminate |].
  rewrite result_bind.
  destruct (result_of (body x)) as [[] | e' | c] eqn:Hx; cbn [obind];
    try discriminate.
  - intros H. destruct (IH H) as [y [Hy Hb]]. exists y. split; [now right | exact Hb].
  - intros [= ->]. exists x. split; [now left | exact Hx].
Qed.

Lemma py_int_raise (x : float) (e : exn) :
  py_int x = Raise e ->
  (e = ValueError /\ PrimFloat.is_nan x = true) \/
  (e = OverflowError /\ PrimFloat.is_infinity x = true).
Proof.
  unfold py_int, Prim2SF.
  destruct (PrimFloat.is_nan x); [intros [= <-]; now left |].
  destruct (PrimFloat.is_zero x); [discriminate |].
  destruct (PrimFloat.is_infinity x); [intros [= <-]; now right |].
  destruct (Z.frexp x) as [r ex].
  destruct (shr_fexp _ _ _ _ _) as [s e'].
  destruct (shr_m s); discriminate.
Qed.

(** X24: Once the summary is reached, the one thing that keeps the process
    from its [sys.exit] is a top score that the chart cannot draw: the run
    raises only if 40 times the top score of some test case is a nan
    (ValueError) or an infinity (OverflowError). *)
Theorem summary_raises_on_chart
        (lower : string -> string) (json_loads : string -> answer (list float))
        (round4 : float -> float) (float_of_str : string -> answer float)
        (w : world) (min_score : float) (rs : list result) (e : exn) :
  reaches_summary lower json_loads round4 float_of_str w min_score rs ->
  result_of (main lower json_loads round4 float_of_str w) = Raise e ->
  exists r x,
    In r rs /\ top_score r = Some x /\
    ((e = ValueError /\ PrimFloat.is_nan (x * 40)%float = true) \/
     (e = OverflowError /\ PrimFloat.is_infinity (x * 40)%float = true)).
Proof.
  intros Hr. destruct (main_at_summary _ _ _ _ _ _ _ Hr) as [Hwf [out [_ ->]]].
  cbn [result_of snd]. unfold main_summary. step_result.
  replace (result_of (if (0 <? count_status "skip" rs)%nat then _ else _))
    with (@Return unit tt)
    by (destruct (0 <? count_status "skip" rs)%nat; reflexivity).
  step_result.
  rewrite (proj1 (recommendation_printed rs Hwf)). step_result.
  match goal with
  | |- obind (result_of (for_each ?body ?xs)) _ = _ -> _ =>
      destruct (result_of (for_each body xs)) as [[] | e' | c] eqn:Hchart
  end; cbn [obind]; try discriminate.
  intros [= ->].
  destruct (for_each_raise _ _ _ Hchart) as [r [Hin Hbody]].
  apply in_sorted_by_top_score in Hin.
  rewrite Forall_forall in Hwf.
  destruct (flag_of_status _ (well_formed_status _ (Hwf r Hin))) as [f Hf].
  revert Hbody. step_result. rewrite Hf. step_result.
  unfold get_top_score.
  destruct (top_score r) as [x |] eqn:Hx.
  - destruct (Py.truthy x); step_result; [| discriminate].
    destruct (py_int (x * 40)%float) as [k | e' | c] eqn:Hk; cbn [obind];
      try discriminate.
    intros [= ->]. exists r, x. split; [exact Hin |]. split; [exact Hx |].
    now apply py_int_raise.
  - cbn. discriminate.
Qed.

Lemma summary_raises_on_chart_witness :
  exists r x,
    In r results_nan /\ top_score r = Some x /\
    ((ValueError = ValueError /\ PrimFloat.is_nan (x * 40)%float = true) \/
     (ValueError = OverflowError /\ PrimFloat.is_infinity (x * 40)%float = true)).
Proof.
  apply (summary_raises_on_chart ascii_lower json_loads_none py_round4
           float_of_str_half world_nan MIN_SCORE_DEFAULT results_nan ValueError).
  - split; [reflexivity |]. split; [reflexivity |].
    exists store_nan, 1, 1.
    split; [reflexivity |]. split; [reflexivity |]. split; [reflexivity |].
    vm_compute. reflexivity.
  - vm_compute. reflexivity.
Defined.

Lemma blob_decode_encode_witness :
  exists vec,
    blob_to_vec json_loads_none (SqlBlob sample_blob) = Return vec /\
    List.length vec = (List.length sample_blob / 4)%nat /\
    vec_to_blob vec = Return sample_blob.
Proof.
  apply (blob_decode_encode json_loads_none sample_blob).
  - reflexivity.
  - replace (Struct.words (List.length sample_blob / 4) sample_blob)
      with [1065353216; 3223322624; 1; 2139095040]
      by (vm_compute; reflexivity).
    repeat constructor; intros H; vm_compute in H; discriminate H.
Defined.

Lemma blob_encode_stable_witness :
  exists vec',
    blob_to_vec json_loads_none
                (SqlBlob (flat_map (le_split 4) [1065353216; 1036831949; 3223322624]))
    = Return vec' /\
    vec_to_blob vec'
    = Return (flat_map (le_split 4) [1065353216; 1036831949; 3223322624]).
Proof.
  apply (blob_encode_stable json_loads_none [1%float; 0.1%float; (-2.5)%float]).
  vm_compute. reflexivity.
Defined.
(** ** The threshold that rescues a test case *)

(** X16: The score shown with BELOW_THRESHOLD is the threshold to go to: under
    every threshold that is not above that score, the test case is PASS. *)
Theorem below_threshold_passes_at_match_score
        (lower : string -> string) (json_loads : string -> answer (list float))
        (round4 : float -> float)
        (w : world) (db : connection) (q expected desc : string)
        (min_score min_score' match_score threshold : float) :
  In (LFoundBelow match_score threshold)
     (printed (run_test lower json_loads round4 w db q expected desc min_score)) ->
  (min_score' <=? match_score)%float = true ->
  exists r',
    result_of (run_test lower json_loads round4 w db q expected desc min_score')
    = Return r' /\
    status r' = "PASS".
Proof.
  intros Hin Hle.
  assert (In (LFoundBelow match_score threshold)
             (filter is_found_below
                (printed (run_test lower json_loads round4 w db q expected desc
                                   min_score)))) as Hf
      by (apply filter_In; now split).
  clear Hin. revert Hf.
  rewrite run_test_filtered, run_test_result
    by (intros [] Hl; try discriminate Hl; exact I).
  destruct (result_of (get_embedding w q)) as [[| x xs] | e | c];
    try (intros []).
  destruct (search_vector _ _ _ _ _ _) as [vr | e | c] eqn:Hvr; try (intros []).
  cbn zeta. cbn [filter is_found_below].
  unfold classified at 1 2; cbn [status].
  destruct (negb (vec_pass lower expected min_score vr) && vec_any lower expected vr)
    eqn:Hb.
  2:{ destruct (_ || _); intros []. }
  cbn [String.eqb Ascii.eqb Bool.eqb filter is_found_below].
  intros [[= <- <-] | []].
  apply andb_true_iff in Hb. destruct Hb as [_ Hva].
  destruct (existsb_filter_head _ _ Hva) as [hit [t Hhit]].
  rewrite Hhit in Hle. destruct (filter_head_in _ _ _ _ Hhit) as [Hin Hfound].
  eexists. split; [reflexivity |].
  unfold classified; cbn [status].
  assert (vec_pass lower expected min_score' vr = true) as ->.
  { unfold vec_pass. apply existsb_exists. exists hit.
    split; [apply filter_In; now split | exact Hfound]. }
  reflexivity.
Qed.

Lemma below_threshold_passes_at_match_score_witness :
  exists r',
    result_of (run_test ascii_lower json_loads_none py_round4 world_orthogonal
                        store_orthogonal "Can I get someone to hop on a call?"
                        "money" "Hop on a call → for money (trained pair #1)"
                        0%float)
    = Return r' /\
    status r' = "PASS".
Proof.
  apply (below_threshold_passes_at_match_score ascii_lower json_loads_none
           py_round4 world_orthogonal store_orthogonal
           "Can I get someone to hop on a call?" "money"
           "Hop on a call → for money (trained pair #1)"
           MIN_SCORE_DEFAULT 0%float 0%float 0.35%float).
  - vm_compute. repeat (first [left; reflexivity | right]).
  - reflexivity.
Defined.

(** ** The score chart *)

Lemma run_test_no_dist
      (lower : string -> string) (json_loads : string -> answer (list float))
      (round4 : float -> float)
      (w : world) (db : connection) (q expected desc : string) (min_score : float) :
  prints_only (fun l => is_dist l = false)
              (run_test lower json_loads round4 w db q expected desc min_score).
Proof.
  unfold run_test. prints_tac; reflexivity.
Qed.

Lemma run_tests_no_dist
      (lower : string -> string) (json_loads : string -> answer (list float))
      (round4 : float -> float)
      (w : world) (db : connection) (min_score : float)
      (cases : list (string * string * string)) :
  prints_only (fun l => is_dist l = false)
              (run_tests lower json_loads round4 w db min_score cases).
Proof.
  induction cases as [| [[q expected] desc] rest IH]; cbn [run_tests].
  - constructor.
  - apply prints_only_bind; [apply run_test_no_dist | intros r].
    apply prints_only_bind; [exact IH | intros rs; constructor].
Qed.

Lemma filter_none (p : line -> bool) (l : list line) :
  Forall (fun x => p x = false) l -> filter p l = [].
Proof.
  induction 1 as [| x l Hx _ IH]; cbn [filter]; [reflexivity |].
  now rewrite Hx.
Qed.

(** The chart lines of a loop that runs to its end. *)
Lemma chart_lines (body : result -> io unit) (xs : list result) :
  result_of (for_each body xs) = Return tt ->
  (forall r, result_of (body r) = Return tt ->
             exists l, filter is_dist (printed (body r)) = [l] /\ charted r l) ->
  Forall2 charted xs (filter is_dist (printed (for_each body xs))).
Proof.
  intros Hret Hbody. induction xs as [| x t IH]; cbn [for_each] in *.
  - constructor.
  - revert Hret. rewrite result_bind, filter_printed_bind.
    destruct (result_of (body x)) as [[] | e | c] eqn:Hx; cbn [obind];
      try discriminate.
    intros Ht. destruct (Hbody x Hx) as [l [-> Hl]].
    cbn [app]. constructor; [exact Hl | now apply IH].
Qed.

Lemma insert_asc_perm (x : result) (l : list result) :
  Permutation (x :: l) (insert_asc x l).
Proof.
  induction l as [| z t IH]; cbn [insert_asc]; [reflexivity |].
  destruct (get_top_score z <? get_top_score x)%float; [| reflexivity].
  rewrite perm_swap. now constructor.
Qed.

Lemma sorted_by_top_score_perm (l : list result) :
  Permutation l (sorted_by_top_score l).
Proof.
  induction l as [| x t IH]; cbn [sorted_by_top_score fold_right]; [constructor |].
  fold (sorted_by_top_score t). rewrite <- insert_asc_perm. now constructor.
Qed.

Lemma insert_asc_sorted (x : result) (l : list result) :
  PrimFloat.is_nan (get_top_score x) = false ->
  Forall (fun r => PrimFloat.is_nan (get_top_score r) = false) l ->
  StronglySorted top_score_le l ->
  StronglySorted top_score_le (insert_asc x l).
Proof.
  intros Hx Hl Hs. induction Hs as [| y t Ht IH Hy]; cbn [insert_asc].
  - repeat constructor.
  - inversion Hl as [| ? ? Hny Hnt]; subst.
    destruct (get_top_score y <? get_top_score x)%float eqn:Hlt.
    + constructor; [now apply IH |].
      rewrite Forall_forall. intros z Hz. apply in_insert_asc in Hz.
      destruct Hz as [-> | Hz].
      * now apply float_ltb_leb.
      * rewrite Forall_forall in Hy. now apply Hy.
    + assert (top_score_le x y) as Hxy by now apply float_not_ltb_leb.
      constructor; [now constructor |].
      constructor; [exact Hxy |].
      rewrite Forall_forall in Hy |- *. intros z Hz.
      unfold top_score_le in *. eapply float_leb_trans; [exact Hxy | now apply Hy].
Qed.

Lemma sorted_by_top_score_sorted (l : list result) :
  Forall (fun r => PrimFloat.is_nan (get_top_score r) = false) l ->
  StronglySorted top_score_le (sorted_by_top_score l).
Proof.
  induction 1 as [| x t Hx Ht IH]; cbn [sorted_by_top_score fold_right];
    [constructor |].
  fold (sorted_by_top_score t). apply insert_asc_sorted; [exact Hx | | exact IH].
  rewrite Forall_forall in Ht |- *. intros z Hz.
  now apply Ht, in_sorted_by_top_score.
Qed.

Lemma run_tests_queries
      (lower : string -> string) (json_loads : string -> answer (list float))
      (round4 : float -> float)
      (w : world) (db : connection) (min_score : float)
      (cases : list (string * string * string)) (rs : list result) :
  result_of (run_tests lower json_loads round4 w db min_score cases) = Return rs ->
  map query rs = map (fun c => fst (fst c)) cases.
Proof.
  revert rs. induction cases as [| [[q expected] desc] rest IH]; intros rs;
    cbn [run_tests].
  - intros [= <-]. reflexivity.
  - step_result. rewrite run_test_result.
    assert (forall r, match result_of (get_embedding w q) with
                      | Return [] => Return (skipped q)
                      | Return (x :: xs) =>
                          match search_vector json_loads round4 db (x :: xs)
                                              SCOPE_PREFIX MAX_RESULTS with
                          | Return vr =>
                              Return (classified lower db w q expected min_score vr)
                          | Raise e => Raise e
                          | Exit c => Exit c
                          end
                      | Raise e => Raise e
                      | Exit c => Exit c
                      end = Return r -> query r = q) as Hq.
    { intros r. destruct (result_of (get_embedding w q)) as [[| x xs] | e | c];
        try discriminate.
      - now intros [= <-].
      - destruct (search_vector _ _ _ _ _ _); try discriminate. now intros [= <-]. }
    destruct (match result_of (get_embedding w q) with
              | Return [] => _ | Return (x :: xs) => _
              | Raise e => _ | Exit c => _ end) as [r | e | c];
      cbn [obind]; try discriminate.
    step_result.
    destruct (result_of (run_tests _ _ _ _ _ _ _)) as [rs' | e | c];
      cbn [obind]; try discriminate.
    step_result. intros [= <-]. cbn [map fst]. now rewrite (Hq r eq_refl), (IH rs').
Qed.

(** X28: A run that ends by the [sys.exit] of its last statement has printed
    a chart with one line for each test case: the lines are those of the
    results of the run, each with the flag of its status, its top score and
    the head of its query, the results being taken in the order of
    [sorted] by top score, which reorders them and drops none, and puts
    them in ascending order of top score when no top score is a nan. *)
Theorem chart_lists_every_test
        (lower : string -> string) (json_loads : string -> answer (list float))
        (round4 : float -> float) (float_of_str : string -> answer float)
        (w : world) (min_score : float) (rs : list result) (c : Z) :
  reaches_summary lower json_loads round4 float_of_str w min_score rs ->
  result_of (main lower json_loads round4 float_of_str w) = Exit c ->
  Forall2 charted (sorted_by_top_score rs)
          (filter is_dist (printed (main lower json_loads round4 float_of_str w))) /\
  Permutation rs (sorted_by_top_score rs) /\
  (Forall (fun r => PrimFloat.is_nan (get_top_score r) = false) rs ->
   StronglySorted top_score_le (sorted_by_top_score rs)) /\
  map query rs = map (fun c => fst (fst c)) TEST_CASES.
Proof.
  intros Hr Hexit.
  assert (Forall well_formed rs) as Hwf.
  { destruct Hr as [_ [_ [db [cc [fc [_ [_ [_ Hrun]]]]]]]].
    eapply run_tests_well_formed, Hrun. }
  assert (map query rs = map (fun c => fst (fst c)) TEST_CASES) as Hq.
  { destruct Hr as [_ [_ [db [cc [fc [_ [_ [_ Hrun]]]]]]]].
    eapply run_tests_queries, Hrun. }
  split; [| split; [apply sorted_by_top_score_perm |];
            split; [apply sorted_by_top_score_sorted | exact Hq]].
  assert (exists db, Forall (fun l => is_dist l = false)
                            (printed (run_tests lower json_loads round4 w db
                                                min_score TEST_CASES)) /\
                     exists cc fc,
                       main lower json_loads round4 float_of_str w
                       = (([LTitle; LDb (DB_PATH (env w)); LScope SCOPE_PREFIX;
                            LMinScore min_score; LModel EMBEDDING_MODEL;
                            LTests (List.length TEST_CASES); LIndexed fc cc]
                           ++ printed (run_tests lower json_loads round4 w db
                                                 min_score TEST_CASES))
                          ++ printed (main_summary rs min_score),
                          result_of (main_summary rs min_score))%list)
    as [db [Hnd [cc [fc Hmain]]]].
  { destruct Hr as [Harg [Hpath [db [cc [fc [Hdb [Hcc [Hfc Hrun]]]]]]]].
    exists db. split; [apply run_tests_no_dist |]. exists cc, fc.
    assert (main lower json_loads round4 float_of_str w
            = main_with lower json_loads round4 w min_score) as ->.
    { unfold main. destruct (argv w) as [| a0 [| a1 args]]; rewrite Harg;
        apply bind_ret. }
    unfold main_with. rewrite Hpath, Hdb. cbn [negb of_answer].
    rewrite !bind_print. cbn [printed result_of fst snd].
    rewrite bind_ret, bind_lift. cbn beta iota. rewrite Hcc. cbn [of_answer].
    rewrite bind_lift. cbn beta iota. rewrite Hfc. cbn [of_answer].
    rewrite bind_lift. cbn beta iota.
    rewrite bind_print. cbn [printed result_of fst snd].
    destruct (run_tests lower json_loads round4 w db min_score TEST_CASES)
      as [out o].
    cbn [result_of snd] in Hrun. subst o.
    rewrite bind_returned. cbn [printed result_of fst snd app]. reflexivity. }
  rewrite Hmain in Hexit |- *. cbn [printed result_of fst snd] in Hexit |- *.
  rewrite !filter_app, (filter_none _ _ Hnd). cbn [filter is_dist app].
  revert Hexit. unfold main_summary.
  rewrite !filter_printed_print. cbn [is_dist app].
  step_result.
  rewrite filter_printed_bind.
  assert (result_of (if (0 <? count_status "skip" rs)%nat
                     then print (LSkipped (count_status "skip" rs) (List.length rs))
                     else ret tt) = Return tt) as Hskip
      by (destruct (0 <? count_status "skip" rs)%nat; reflexivity).
  assert (filter is_dist
            (printed (if (0 <? count_status "skip" rs)%nat
                      then print (LSkipped (count_status "skip" rs) (List.length rs))
                      else ret tt)) = []) as Hskip'
      by (destruct (0 <? count_status "skip" rs)%nat; reflexivity).
  rewrite Hskip, Hskip'. cbn [obind app].
  rewrite filter_printed_bind.
  match goal with
  | |- obind (result_of ?block) _ = _ -> _ =>
      assert (filter is_dist (printed block) = []) as Hrec
  end.
  { destruct (0 <? count_status "BELOW_THRESHOLD" rs)%nat; [| reflexivity].
    rewrite filter_printed_print. cbn [is_dist app].
    rewrite filter_printed_lift.
    destruct (omap item_top_score _) as [[| x xs] | e | c']; reflexivity. }
  rewrite Hrec, (proj1 (recommendation_printed rs Hwf)). cbn [app obind].
  rewrite filter_printed_print. cbn [is_dist app].
  rewrite filter_printed_bind.
  match goal with
  | |- obind (result_of (for_each ?body ?xs)) _ = _ -> _ =>
      destruct (result_of (for_each body xs)) as [[] | e | c'] eqn:Hchart
  end; cbn [obind]; try discriminate.
  - intros _. cbn [printed sys_exit fst filter]. rewrite app_nil_r.
    apply chart_lines; [exact Hchart |].
    intros r. step_result.
    destruct (flag_of (status r)) as [f | e | c'] eqn:Hf; cbn [obind];
      try discriminate.
    rewrite filter_printed_lift. unfold charted.
    destruct (Py.truthy (get_top_score r)) eqn:Ht; step_result.
    + destruct (py_int (get_top_score r * 40)%float) as [k | e | c'] eqn:Hk;
        cbn [obind]; try discriminate.
      intros _. rewrite filter_printed_bind, bind_lift.
      cbn [ret printed result_of fst snd filter app print is_dist].
      eexists. split; [reflexivity |].
      exists f, (Z.to_nat k). split; [exact Hf |]. split; [reflexivity |].
      right. split; [reflexivity |]. now exists k.
    + intros _. rewrite bind_ret.
      cbn [filter printed print fst is_dist].
      eexists. split; [reflexivity |].
      exists f, 0%nat. split; [exact Hf |]. split; [reflexivity |].
      left. split; reflexivity.
  - intros _. exfalso. revert Hchart. apply for_each_no_exit.
    intros r c''. step_result.
    destruct (flag_of (status r)) as [f | e | c3] eqn:Hf; cbn [obind].
    + destruct (Py.truthy (get_top_score r)); step_result; [| discriminate].
      destruct (py_int _) as [k | e | c3] eqn:Hk; cbn [obind]; try discriminate.
      unfold py_int in Hk. destruct (Prim2SF _); discriminate.
    + discriminate.
    + unfold flag_of in Hf.
      repeat match type of Hf with
             | (if ?b then _ else _) = _ => destruct b
             end; discriminate.
Qed.

Lemma chart_lists_every_test_witness :
  Forall2 charted (sorted_by_top_score results_aligned)
          (filter is_dist
                  (printed (main ascii_lower json_loads_none py_round4
                                 float_of_str_half world_aligned))) /\
  Permutation results_aligned (sorted_by_top_score results_aligned) /\
  (Forall (fun r => PrimFloat.is_nan (get_top_score r) = false) results_aligned ->
   StronglySorted top_score_le (sorted_by_top_score results_aligned)) /\
  map query results_aligned = map (fun c => fst (fst c)) TEST_CASES.
Proof.
  apply (chart_lists_every_test ascii_lower json_loads_none py_round4
           float_of_str_half world_aligned MIN_SCORE_DEFAULT results_aligned 0).
  - split; [reflexivity |]. split; [reflexivity |].
    exists store_aligned, 1, 1.
    split; [reflexivity |]. split; [reflexivity |]. split; [reflexivity |].
    vm_compute. reflexivity.
  - vm_compute. reflexivity.
Defined.
(** ** The rounding to binary32 *)

(** One step of the shift to the right of a significand that is not
    negative: the quotient by 2, the bit that leaves as round bit, and the
    bits that left before in the sticky bit. *)
Lemma shr_1_spec (m : Z) (r s : bool) :
  0 <= m ->
  shr_1 {| shr_m := m; shr_r := r; shr_s := s |}
  = {| shr_m := m / 2; shr_r := Z.odd m; shr_s := r || s |}.
Proof.
  intros Hm. destruct m as [| [p | p |] | p]; try lia; cbn [shr_1 Z.odd].
  - reflexivity.
  - rewrite Pos2Z.inj_xI. replace (2 * Z.pos p + 1) with (1 + Z.pos p * 2) by lia.
    rewrite Z.div_add by lia. reflexivity.
  - rewrite Pos2Z.inj_xO. replace (2 * Z.pos p) with (Z.pos p * 2) by lia.
    rewrite Z.div_mul by lia. reflexivity.
  - reflexivity.
Qed.

Lemma iter_pos_nat {A : Type} (f : A -> A) (p : positive) (x : A) :
  iter_pos f p x = Nat.iter (Pos.to_nat p) f x.
Proof.
  revert x. induction p as [p IH | p IH |]; intros x; cbn [iter_pos].
  - rewrite !IH, Pos2Nat.inj_xI.
    replace (S (2 * Pos.to_nat p)) with (Pos.to_nat p + Pos.to_nat p + 1)%nat by lia.
    rewrite !Nat.iter_add. reflexivity.
  - rewrite !IH, Pos2Nat.inj_xO.
    replace (2 * Pos.to_nat p)%nat with (Pos.to_nat p + Pos.to_nat p)%nat by lia.
    rewrite Nat.iter_add. reflexivity.
  - reflexivity.
Qed.

(** The shift by [S n] places of an exact significand. *)
Lemma shr_iter_spec (m : Z) (n : nat) :
  0 <= m ->
  Nat.iter (S n) shr_1 {| shr_m := m; shr_r := false; shr_s := false |}
  = {| shr_m := m / 2 ^ Z.of_nat (S n);
       shr_r := Z.testbit m (Z.of_nat n);
       shr_s := negb (m mod 2 ^ Z.of_nat n =? 0) |}.
Proof.
  intros Hm. induction n as [| n IH].
  - cbn [Nat.iter]. rewrite shr_1_spec by exact Hm.
    change (2 ^ Z.of_nat 1) with 2. change (Z.of_nat 0) with 0.
    rewrite Z.bit0_odd, Z.pow_0_r, Z.mod_1_r. reflexivity.
  - change (Nat.iter (S (S n)) shr_1 ?x) with (shr_1 (Nat.iter (S n) shr_1 x)).
    rewrite IH, shr_1_spec by (apply Z.div_pos; lia).
    assert (0 < 2 ^ Z.of_nat n) as Hp by (apply Z.pow_pos_nonneg; lia).
    f_equal.
    + rewrite Z.div_div by lia. f_equal.
      rewrite (Nat2Z.inj_succ (S n)), Z.pow_succ_r by lia. lia.
    + rewrite Z.testbit_odd, Z.shiftr_div_pow2 by lia. reflexivity.
    + rewrite (Nat2Z.inj_succ n), Z.pow_succ_r by lia.
      rewrite Z.testbit_odd, Z.shiftr_div_pow2 by lia.
      rewrite (Z.mul_comm 2), Z.rem_mul_r by lia.
      pose proof (Z.mod_pos_bound m (2 ^ Z.of_nat n) Hp) as Hr.
      pose proof (Z.mod_pos_bound (m / 2 ^ Z.of_nat n) 2 ltac:(lia)) as Hb.
      rewrite (Zodd_mod (m / 2 ^ Z.of_nat n)).
      destruct (Z.eqb_spec (m mod 2 ^ Z.of_nat n) 0) as [E | E];
        destruct (Z.eqb_spec ((m / 2 ^ Z.of_nat n) mod 2) 1) as [E1 | E1];
        cbn [negb orb];
        match goal with
        | |- _ = negb (?a =? 0) => destruct (Z.eqb_spec a 0) as [E2 | E2]
        end; cbn [negb]; try reflexivity; nia.
Qed.

(** Rounding to nearest, ties to even, after the shift is [round_even]. *)
Lemma round_shr (m k : positive) :
  round_nearest_even
    (shr_m (iter_pos shr_1 k {| shr_m := Zpos m; shr_r := false; shr_s := false |}))
    (loc_of_shr_record
       (iter_pos shr_1 k {| shr_m := Zpos m; shr_r := false; shr_s := false |}))
  = Struct.round_even (Zpos m) (Zpos k).
Proof.
  rewrite iter_pos_nat.
  destruct (Pos2Nat.is_succ k) as [n Hn]. rewrite Hn, shr_iter_spec by lia.
  assert (Z.pos k = Z.of_nat n + 1) as Hk by lia.
  cbn [shr_m loc_of_shr_record].
  replace (Z.of_nat (S n)) with (Z.pos k) by lia.
  unfold Struct.round_even.
  rewrite Z.shiftr_div_pow2, !Z.shiftl_mul_pow2 by lia. rewrite Z.mul_1_l.
  replace (Z.pos k - 1) with (Z.of_nat n) by lia.
  set (j := Z.of_nat n) in *. assert (0 <= j) as Hj by (subst j; lia).
  assert (0 < 2 ^ j) as Hp by (apply Z.pow_pos_nonneg; lia).
  assert (2 ^ Z.pos k = 2 ^ j * 2) as Hpk
      by (rewrite Hk, Z.pow_add_r by lia; reflexivity).
  rewrite Hpk.
  set (q := Z.pos m / (2 ^ j * 2)).
  assert (Z.pos m - q * (2 ^ j * 2)
          = Z.pos m mod 2 ^ j + 2 ^ j * ((Z.pos m / 2 ^ j) mod 2)) as Hr.
  { subst q. rewrite <- Z.rem_mul_r by lia.
    rewrite Z.mod_eq by lia. lia. }
  rewrite Hr.
  rewrite Z.testbit_odd, Z.shiftr_div_pow2, Zodd_mod by lia.
  pose proof (Z.mod_pos_bound (Z.pos m) (2 ^ j) Hp) as Hlow.
  pose proof (Z.mod_pos_bound (Z.pos m / 2 ^ j) 2 ltac:(lia)) as Hbit.
  set (low := Z.pos m mod 2 ^ j) in *. set (bit := (Z.pos m / 2 ^ j) mod 2) in *.
  set (half := 2 ^ j) in *. clearbody q low bit half.
  destruct (Z.eqb_spec bit 1) as [B | B];
    destruct (Z.eqb_spec low 0) as [L | L]; cbn [negb];
    destruct (Z.ltb_spec half (low + half * bit)) as [H1 | H1];
    destruct (Z.eqb_spec half (low + half * bit)) as [H2 | H2];
    cbn [orb andb round_nearest_even]; try nia; try reflexivity;
    rewrite <- ?Z.negb_odd; destruct (Z.odd q); reflexivity.
Qed.

(** The exponent and the size of the significand of a float. *)
Lemma bounded_range (m : positive) (e : Z) :
  bounded prec emax m e = true ->
  let d := Z.log2 (Zpos m) + 1 in
  1 <= d <= 53 /\ -1074 <= e <= 971 /\ (d = 53 \/ e = -1074) /\
  2 ^ (d - 1) <= Zpos m < 2 ^ d.
Proof.
  intros Hb d. pose proof (Z.log2_nonneg (Z.pos m)) as H0.
  pose proof (Z.log2_spec (Z.pos m) ltac:(lia)) as Hs.
  replace (Z.succ (Z.log2 (Z.pos m))) with d in Hs by (subst d; lia).
  replace (Z.log2 (Z.pos m)) with (d - 1) in Hs by (subst d; lia).
  revert Hb. unfold bounded, canonical_mantissa.
  change (Z.pos (digits2_pos m)) with (Zdigits2 (Z.pos m)).
  rewrite Zdigits2_log2, fexp_binary64, andb_true_iff, Z.eqb_eq, Z.leb_le.
  fold d. change (emax - prec) with 971. lia.
Qed.

Lemma fexp_binary32 (x : Z) : fexp 24 128 x = Z.max (x - 24) (-149).
Proof. reflexivity. Qed.

(** The second shift of [binary_round_aux], after the rounding: by one
    place when the rounding has carried into a 25th bit, by none
    otherwise. *)
Lemma shr_fexp32_rounded (q e : Z) :
  -149 <= e -> 0 <= q <= 2 ^ 24 -> (2 ^ 23 <= q \/ e = -149) ->
  shr_fexp 24 128 q e loc_Exact
  = if q =? 2 ^ 24
    then ({| shr_m := 2 ^ 23; shr_r := false; shr_s := false |}, e + 1)
    else ({| shr_m := q; shr_r := false; shr_s := false |}, e).
Proof.
  intros He Hq Hcase. unfold shr_fexp. rewrite fexp_binary32.
  cbn [shr_record_of_loc].
  destruct (Z.eqb_spec q (2 ^ 24)) as [E | E].
  - subst q. change (Zdigits2 (2 ^ 24)) with 25.
    replace (Z.max (25 + e - 24) (-149) - e) with 1 by lia. reflexivity.
  - destruct q as [| p | p]; try lia.
    + change (Zdigits2 0) with 0.
      destruct (Z.max (0 + e - 24) (-149) - e) eqn:En; try reflexivity; lia.
    + rewrite Zdigits2_log2.
      assert (Z.log2 (Z.pos p) < 24) as Hl
          by (apply Z.log2_lt_pow2; [lia |]; change (2 ^ 24) with 16777216 in *; lia).
      assert (2 ^ 23 <= Z.pos p -> 23 <= Z.log2 (Z.pos p)) as Hl'
          by (intros H; apply Z.log2_le_pow2; [lia | exact H]).
      pose proof (Z.log2_nonneg (Z.pos p)) as H0.
      destruct (Z.max (Z.log2 (Z.pos p) + 1 + e - 24) (-149) - e) eqn:En;
        try reflexivity; lia.
Qed.

(** The pattern that [pack_f] computes holds the binary32 rounding of the
    standard library. *)
Lemma binary_round_magnitude32 (s : bool) (m : positive) (e : Z) :
  bounded prec emax m e = true ->
  binary_round 24 128 s m e =
  if Struct.inf32 <=? Struct.magnitude32 m e then S754_infinity s
  else if Struct.magnitude32 m e / 2 ^ 23 =? 0 then
    match Struct.magnitude32 m e mod 2 ^ 23 with
    | Zpos p => S754_finite s p (-149)
    | _ => S754_zero s
    end
  else
    match 2 ^ 23 + Struct.magnitude32 m e mod 2 ^ 23 with
    | Zpos p => S754_finite s p (Struct.magnitude32 m e / 2 ^ 23 - 150)
    | _ => S754_zero s
    end.
Proof.
  intros Hb. destruct (bounded_range m e Hb) as [Hd [He [Hcase Hm]]].
  unfold Struct.magnitude32, binary_round, shl_align.
  change (Z.pos (digits2_pos m)) with (Zdigits2 (Z.pos m)).
  rewrite Zdigits2_log2, fexp_binary32.
  set (d := Z.log2 (Z.pos m) + 1) in *.
  set (e' := Z.max (d + e - 24) (-149)).
  assert (29 <= e' - e) as Hk by (subst e'; lia).
  destruct (Z.leb_spec e' e) as [H | _]; [lia |].
  destruct (e' - e) as [| k | k] eqn:Ek; try lia.
  unfold binary_round_aux. unfold shr_fexp at 1.
  rewrite Zdigits2_log2, fexp_binary32. fold d. fold e'. rewrite Ek.
  cbn [shr shr_record_of_loc]. rewrite round_shr.
  replace (e + Z.pos k) with e' by lia.
  pose proof (round_even_bounds (Z.pos m) (Z.pos k) ltac:(lia) ltac:(lia)) as Hq1.
  set (q1 := Struct.round_even (Z.pos m) (Z.pos k)) in *.
  assert (0 < 2 ^ Z.pos k) as Hpk by (apply Z.pow_pos_nonneg; lia).
  assert (0 <= Z.pos m / 2 ^ Z.pos k) as Hq0 by (apply Z.div_pos; lia).
  assert (-149 <= e') as He' by (subst e'; lia).
  assert ((2 ^ 23 <= q1 <= 2 ^ 24 /\ e' = d + e - 24) \/
          (0 <= q1 <= 2 ^ 23 /\ e' = -149)) as Hq.
  { destruct (Z_le_gt_dec (-149) (d + e - 24)) as [Hn | Hs].
    - left. assert (d = 53) as Hd53 by (subst e'; lia).
      assert (Z.pos k = 29) as Hk29 by (subst e'; lia).
      rewrite Hk29 in *. rewrite Hd53 in Hm.
      assert (2 ^ 23 <= Z.pos m / 2 ^ 29 < 2 ^ 24); [| subst e'; lia].
      split.
      + apply Z.div_le_lower_bound; [lia |].
        change (2 ^ 29 * 2 ^ 23) with (2 ^ (53 - 1)). lia.
      + apply Z.div_lt_upper_bound; [lia |].
        change (2 ^ 29 * 2 ^ 24) with (2 ^ 53). lia.
    - right. assert (e' = -149) as E by (subst e'; lia).
      split; [| exact E].
      assert (Z.pos m / 2 ^ Z.pos k < 2 ^ 23); [| lia].
      apply Z.div_lt_upper_bound; [lia |].
      rewrite <- Z.pow_add_r by lia.
      eapply Z.lt_le_trans; [apply Hm |]. apply Z.pow_le_mono_r; lia. }
  rewrite shr_fexp32_rounded by (change (2 ^ 24) with 16777216;
                                 change (2 ^ 23) with 8388608 in *; lia).
  change (128 - 24) with 104. unfold Struct.inf32.
  clearbody q1 e'. clear Ek Hq1 Hq0 Hpk Hk Hb Hm Hcase.
  change (2 ^ 24) with 16777216 in *. change (2 ^ 23) with 8388608 in *.
  destruct (Z.eqb_spec q1 16777216) as [E24 | E24].
  - (* the rounding has carried *)
    subst q1. cbn [shr_m]. destruct Hq as [[_ E] | [H _]]; [| lia].
    assert (((e' + 149) * 8388608 + 16777216) / 8388608 = e' + 151) as Hdiv
        by (symmetry; apply (Z.div_unique _ 8388608 _ 0); lia).
    assert (((e' + 149) * 8388608 + 16777216) mod 8388608 = 0) as Hmod
        by (symmetry; apply (Z.mod_unique _ 8388608 (e' + 151) 0); lia).
    rewrite Hdiv, Hmod.
    destruct (Z.leb_spec (e' + 1) 104) as [Hle | Hgt];
      destruct (Z.leb_spec (255 * 8388608) ((e' + 149) * 8388608 + 16777216))
        as [Hov | Hin]; try lia; [| reflexivity].
    destruct (Z.eqb_spec (e' + 151) 0) as [H0 | _]; [lia |].
    change (8388608 + 0) with (Z.pos 8388608). cbv iota. f_equal. lia.
  - cbn [shr_m]. destruct q1 as [| p | p]; try lia.
    + (* the float is rounded to zero *)
      destruct Hq as [[H _] | [_ E]]; [lia |]. subst e'. reflexivity.
    + destruct Hq as [[Hn E] | [Hs E]].
      * (* a normal number of binary32 *)
        assert (((e' + 149) * 8388608 + Z.pos p) / 8388608 = e' + 150) as Hdiv
            by (symmetry; apply (Z.div_unique _ 8388608 _ (Z.pos p - 8388608)); lia).
        assert (((e' + 149) * 8388608 + Z.pos p) mod 8388608 = Z.pos p - 8388608)
          as Hmod
            by (symmetry; apply (Z.mod_unique _ 8388608 (e' + 150)); lia).
        rewrite Hdiv, Hmod.
        replace (8388608 + (Z.pos p - 8388608)) with (Z.pos p) by lia.
        destruct (Z.leb_spec e' 104) as [Hle | Hgt];
          destruct (Z.leb_spec (255 * 8388608) ((e' + 149) * 8388608 + Z.pos p))
            as [Hov | Hin]; try lia; [| reflexivity].
        destruct (Z.eqb_spec (e' + 150) 0) as [H0 | _]; [lia |].
        cbv iota. f_equal. lia.
      * (* a subnormal number, or the least normal number by a carry *)
        subst e'. change ((-149 + 149) * 8388608 + Z.pos p) with (Z.pos p).
        change (-149 <=? 104) with true. cbv iota.
        destruct (Z.leb_spec (255 * 8388608) (Z.pos p)) as [Hov | _]; [lia |].
        destruct (Z.eq_dec (Z.pos p) 8388608) as [E23 | N23].
        -- injection E23 as ->. reflexivity.
        -- rewrite Z.div_small, Z.mod_small by lia. reflexivity.
Qed.

(** What [struct.unpack] reads from the pattern that [struct.pack] writes
    for a float is the binary32 rounding of the float. *)
Lemma unpack_pack_f (x : float) (w : Z) :
  Struct.pack_f x = Return w -> Struct.unpack_f w = SF2Prim (round32 x).
Proof.
  pose proof (Prim2SF_valid x) as Hv.
  unfold Struct.pack_f, round32.
  destruct (Prim2SF x) as [s | s | | s m e].
  - intros [= <-]. destruct s; reflexivity.
  - intros [= <-]. destruct s; reflexivity.
  - intros [= <-]. reflexivity.
  - cbn [valid_binary] in Hv. rewrite (binary_round_magnitude32 s m e Hv).
    pose proof (magnitude32_nonneg m e) as Hb0.
    destruct (Z.leb_spec Struct.inf32 (Struct.magnitude32 m e)) as [H | Hlt];
      [discriminate |].
    intros [= <-].
    set (b := Struct.magnitude32 m e) in *.
    unfold Struct.inf32 in Hlt. change (2 ^ 23) with 8388608 in *.
    assert (0 <= Struct.sign32 s + b < 2 ^ 32) as Hw
        by (unfold Struct.sign32; change (2 ^ 31) with 2147483648;
            change (2 ^ 32) with 4294967296; destruct s; lia).
    destruct (fields32 _ Hw) as [Hf [HE HM]].
    pose proof (Z.div_mod b 8388608 ltac:(lia)) as Hdm.
    pose proof (Z.mod_pos_bound b 8388608 ltac:(lia)) as Hr.
    unfold Struct.unpack_f.
    revert Hf HE HM.
    change (2 ^ 23) with 8388608.
    generalize (Z.land (Z.shiftr (Struct.sign32 s + b) 23) 255).
    generalize (Z.land (Struct.sign32 s + b) (8388608 - 1)).
    generalize (Z.testbit (Struct.sign32 s + b) 31).
    intros s' M E Hf HE HM.
    assert (0 <= b / 8388608 < 255) as Hq
        by (split; [apply Z.div_pos; lia | apply Z.div_lt_upper_bound; lia]).
    assert (s' = s /\ E = b / 8388608 /\ M = b mod 8388608) as [-> [-> ->]].
    { revert Hf. unfold Struct.sign32. change (2 ^ 31) with 2147483648.
      generalize dependent (b / 8388608). generalize dependent (b mod 8388608).
      intros r Hr q Hdm Hq Hf. destruct s, s'; try lia; repeat split; nia. }
    destruct (Z.eqb_spec (b / 8388608) 255) as [E255 | _]; [lia |].
    destruct (b / 8388608 =? 0).
    + destruct (b mod 8388608); reflexivity.
    + destruct (8388608 + b mod 8388608); reflexivity.
Qed.

(** [struct.pack] refuses a float exactly when the float is finite and its
    binary32 rounding is not. *)
Lemma pack_f_refuses (x : float) :
  Struct.pack_f x = Raise OverflowError <-> overflows32 x.
Proof.
  pose proof (Prim2SF_valid x) as Hv.
  unfold overflows32, Struct.pack_f, round32.
  destruct (Prim2SF x) as [s | s | | s m e].
  - split; [discriminate | intros [s' [m [e [H _]]]]; discriminate].
  - split; [discriminate | intros [s' [m [e [H _]]]]; discriminate].
  - split; [discriminate | intros [s' [m [e [H _]]]]; discriminate].
  - cbn [valid_binary] in Hv. rewrite (binary_round_magnitude32 s m e Hv).
    destruct (Struct.inf32 <=? Struct.magnitude32 m e).
    + split; [intros _; now exists s, m, e | reflexivity].
    + split; [discriminate |]. intros [s' [m' [e' [_ H]]]]. exfalso. revert H.
      destruct (_ =? 0); [destruct (_ mod _) | destruct (_ + _)]; discriminate.
Qed.

Lemma pack_f_returns_iff (x : float) :
  (exists w, Struct.pack_f x = Return w) <-> ~ overflows32 x.
Proof.
  rewrite <- pack_f_refuses. pose proof (pack_f_outcome x) as Ho.
  destruct (Struct.pack_f x) as [w | e | c]; [| | contradiction].
  - split; [discriminate | intros _; now exists w].
  - destruct Ho as [-> _]. split; [intros [w H]; discriminate | intros H; now elim H].
Qed.

(** C8, as the code has it.  A vector that [vec_to_blob] serializes is
    read back by [blob_to_vec] with the same length, each element rounded
    to binary32: the float read is the double that holds the binary32
    rounding of the float written.  The vectors that [vec_to_blob]
    serializes are those without a finite element whose binary32 rounding
    is not finite; on the others [struct.pack] raises OverflowError. *)
Theorem blob_roundtrip (json_loads : string -> answer (list float))
        (vec : list float) :
  (forall blob,
     vec_to_blob vec = Return blob ->
     exists vec',
       blob_to_vec json_loads (SqlBlob blob) = Return vec' /\
       List.length vec' = List.length vec /\
       Forall2 (fun x y => y = SF2Prim (round32 x)) vec vec') /\
  ((exists blob, vec_to_blob vec = Return blob) <->
   Forall (fun x => ~ overflows32 x) vec) /\
  (Exists overflows32 vec -> vec_to_blob vec = Raise OverflowError).
Proof.
  assert ((exists ws, omap Struct.pack_f vec = Return ws) <->
          Forall (fun x => ~ overflows32 x) vec) as Hret.
  { rewrite omap_returns, !Forall_forall. split; intros H x Hx.
    - apply pack_f_returns_iff, H, Hx.
    - apply pack_f_returns_iff, H, Hx. }
  unfold vec_to_blob, Struct.pack.
  destruct (omap Struct.pack_f vec) as [ws | e | c] eqn:Hws; cbn [obind].
  - split; [| split].
    + intros blob [= <-]. destruct (omap_pack_f_range vec ws Hws) as [Hlen Hrange].
      exists (map Struct.unpack_f ws). split; [| split].
      * cbn [blob_to_vec]. unfold Struct.unpack.
        rewrite length_flat_map_le_split.
        replace (4 * List.length ws / 4)%nat with (List.length ws)
          by (rewrite Nat.mul_comm, Nat.div_mul; lia).
        rewrite Nat.eqb_refl, words_flat_map_le_split; [reflexivity | exact Hrange].
      * now rewrite length_map.
      * clear Hlen Hrange Hret. revert ws Hws.
        induction vec as [| x t IH]; intros ws; cbn [omap].
        -- intros [= <-]. constructor.
        -- destruct (Struct.pack_f x) as [w | e | c] eqn:Hx; cbn [obind];
             try discriminate.
           destruct (omap Struct.pack_f t) as [ws' | e | c]; cbn [obind];
             try discriminate.
           intros [= <-]. cbn [map]. constructor; [| now apply IH].
           now apply unpack_pack_f.
    + split; [intros _; apply Hret; now exists ws | intros _; eexists; reflexivity].
    + intros Hex. exfalso. apply Exists_exists in Hex. destruct Hex as [x [Hx Ho]].
      assert (Forall (fun x => ~ overflows32 x) vec) as Hall
          by (apply Hret; now exists ws).
      rewrite Forall_forall in Hall. exact (Hall x Hx Ho).
  - destruct (omap_raise _ _ _ Hws) as [x [Hin Hx]].
    pose proof (pack_f_outcome x) as Ho. rewrite Hx in Ho. destruct Ho as [-> _].
    split; [discriminate |]. split; [| reflexivity].
    split; [intros [blob H]; discriminate |].
    intros Hall. exfalso. rewrite Forall_forall in Hall.
    apply (Hall x Hin). now apply pack_f_refuses.
  - destruct (omap_exit _ _ _ Hws) as [x [_ Hx]].
    pose proof (pack_f_outcome x) as Ho. now rewrite Hx in Ho.
Qed.

Lemma blob_roundtrip_witness :
  exists vec',
    blob_to_vec json_loads_none
                (SqlBlob (flat_map (le_split 4) [1065353216; 1036831949; 3223322624]))
    = Return vec' /\
    List.length vec' = List.length [1%float; 0.1%float; (-2.5)%float] /\
    Forall2 (fun x y => y = SF2Prim (round32 x))
            [1%float; 0.1%float; (-2.5)%float] vec'.
Proof.
  apply (proj1 (blob_roundtrip json_loads_none
                               [1%float; 0.1%float; (-2.5)%float])).
  vm_compute. reflexivity.
Defined.

(** The binary32 rounding of some floats, as [blob_to_vec] reads them
    back: 0.1 is rounded, the largest binary32 number is kept, the tie
    below the smallest subnormal goes to zero. *)
Lemma round32_samples :
  map (fun x => SF2Prim (round32 x))
      [1%float; 0.1%float; (-2.5)%float; 3.4028234663852886e38%float;
       1e-45%float; 7.006492321624085e-46%float; infinity; (-0)%float]
  = [1%float; 0.10000000149011612%float; (-2.5)%float;
     3.4028234663852886e38%float; 1.401298464324817e-45%float; 0%float;
     infinity; (-0)%float].
Proof. vm_compute. reflexivity. Qed.

(** The double that [blob_to_vec] reads holds the binary32 number
    exactly: same sign, same significand and exponent, up to the trailing
    zeros that bring the significand to 53 bits. *)
Lemma round32_exact (x : float) (s : bool) (m : positive) (e : Z) :
  round32 x = S754_finite s m e ->
  exists m',
    Zpos m' = Zpos m * 2 ^ (53 - (Z.log2 (Zpos m) + 1)) /\
    Prim2SF (SF2Prim (round32 x))
    = S754_finite s m' (e + (Z.log2 (Zpos m) + 1) - 53).
Proof.
  intros Hr. rewrite Hr.
  assert (Z.log2 (Z.pos m) + 1 <= 24 /\ -149 <= e <= 104) as [Hd He].
  { pose proof (Prim2SF_valid x) as Hv. revert Hr. unfold round32.
    destruct (Prim2SF x) as [s0 | s0 | | s0 m0 e0]; try discriminate.
    cbn [valid_binary] in Hv. rewrite (binary_round_magnitude32 s0 m0 e0 Hv).
    pose proof (magnitude32_nonneg m0 e0) as Hb0.
    unfold Struct.inf32. change (2 ^ 23) with 8388608.
    set (b := Struct.magnitude32 m0 e0) in *.
    pose proof (Z.mod_pos_bound b 8388608 ltac:(lia)) as Hmod.
    destruct (Z.leb_spec (255 * 8388608) b) as [H | Hlt]; [discriminate |].
    assert (0 <= b / 8388608 < 255) as Hq
        by (split; [apply Z.div_pos; lia | apply Z.div_lt_upper_bound; lia]).
    destruct (Z.eqb_spec (b / 8388608) 0) as [E0 | E0].
    - destruct (b mod 8388608) as [| p | p] eqn:Hp; try discriminate.
      intros [= -> -> <-]. split; [| lia].
      assert (Z.log2 (Z.pos m) < 23); [| lia].
      apply Z.log2_lt_pow2; [lia |]. change (2 ^ 23) with 8388608. lia.
    - destruct (8388608 + b mod 8388608) as [| p | p] eqn:Hp; try discriminate.
      intros [= -> -> <-]. split; [| lia].
      assert (Z.log2 (Z.pos m) < 24); [| lia].
      apply Z.log2_lt_pow2; [lia |]. change (2 ^ 24) with 16777216. lia. }
  pose proof (Z.log2_nonneg (Z.pos m)) as H0.
  apply (Prim2SF_SF2Prim_finite s m e); lia.
Qed.
